(** * MiniGames-Rambu-Lalulintas: the simulation core, embedded and verified

    A shallow embedding of the parts of the game that carry numeric or
    temporal contracts:

    - [js/world/lighting.js]   traffic-light timer, day/night clock, lamps;
    - [js/core/controls.js]    the movement and collision integrator;
    - [js/ui/popup.js]         the HUD clock text;
    - [js/data/buildingData.js] and [js/world/buildings.js]
                               the grid layout, the collider registry, the
                               roads, crossings and trees;
    - [js/data/quizData.js], [js/data/signData.js], [js/world/signs.js]
                               the quiz, its score and the signs;
    - [main.js]                the game loop and the click handler.

    Number model.  JavaScript numbers are IEEE doubles.  Every double is a
    rational, and the code below only adds, subtracts, multiplies, divides
    and compares, so numbers are embedded as exact rationals [Q]: rounding
    is idealised away, everything else is as written.  The two library
    functions without a rational model are handled separately: [Math.sqrt]
    is a parameter of the movement section, and the quantities derived
    from [Math.sin] live in the reals [R].  The stripe loop of
    [ZebraCross], whose count and end depend on the rounding, is also
    embedded on binary64 floats. *)

From Stdlib Require Import ZArith QArith Qround Qabs Bool List Lia.
From Stdlib Require PrimFloat.
From Stdlib Require Import Reals Lra Lqa.
From Stdlib Require Import Ascii String DecimalString.
Import ListNotations.

Local Open Scope Q_scope.

(** ** JavaScript number primitives on [Q] *)

Module Js.

(** [a < b] and [a > b] as the booleans JavaScript computes. *)
Definition ltb (a b : Q) : bool := negb (Qle_bool b a).
Definition gtb (a b : Q) : bool := ltb b a.
Definition geb (a b : Q) : bool := Qle_bool b a.

(** [Math.floor]. *)
Definition floor (a : Q) : Z := Qfloor a.

(** [a % 1]: the remainder of the division truncated towards zero, which
    keeps the sign of [a]. *)
Definition trunc (a : Q) : Z := Z.quot (Qnum a) (Zpos (Qden a)).
Definition rem1 (a : Q) : Q := a - inject_Z (trunc a).

(** [Number(b)] for a boolean. *)
Definition ofBool (b : bool) : Q := if b then 1 else 0.

End Js.

(** ** Traffic lights ([updateTrafficLights], lighting.js) *)

Module TrafficLights.

(** One entry of the [trafficLights] array.  The three meshes are kept as
    the emissive colour of their material; [state] is the number the code
    stores (0 red, 1 green, 2 yellow). *)
Record Light : Type := mkLight {
  red : Z;
  yellow : Z;
  green : Z;
  timer : Q;
  state : Z
}.

Definition RED : Z := 0.
Definition GREEN : Z := 1.
Definition YELLOW : Z := 2.

Definition redTime : Q := 4.
Definition greenTime : Q := 4.
Definition yellowTime : Q := 2.

(** What [createTrafficLight] pushes. *)
Definition createTrafficLight : Light := mkLight 0 0 0 0 0.

(** The timer part of the loop body: [light.timer += delta] followed by the
    [if / else if / else if] chain. *)
Definition advance (delta : Q) (l : Light) : Light :=
  let t := timer l + delta in
  if (state l =? 0)%Z && Js.gtb t redTime then
    mkLight (red l) (yellow l) (green l) 0 1
  else if (state l =? 1)%Z && Js.gtb t greenTime then
    mkLight (red l) (yellow l) (green l) 0 2
  else if (state l =? 2)%Z && Js.gtb t yellowTime then
    mkLight (red l) (yellow l) (green l) 0 0
  else
    mkLight (red l) (yellow l) (green l) t (state l).

(** The emissive part: all three reset to black, then the lamp of the
    current state is lit. *)
Definition paint (l : Light) : Light :=
  let r := if (state l =? 0)%Z then 0xff0000%Z else 0%Z in
  let g := if (state l =? 1)%Z then 0x00ff00%Z else 0%Z in
  let y := if (state l =? 2)%Z then 0xffcc00%Z else 0%Z in
  mkLight r y g (timer l) (state l).

Definition updateLight (delta : Q) (l : Light) : Light :=
  paint (advance delta l).

(** [trafficLights.forEach(...)]: every instance is updated in place. *)
Definition updateTrafficLights (delta : Q) (lights : list Light) : list Light :=
  map (updateLight delta) lights.

(** The vocabulary of the specification: the duration of a state and the
    state that follows it in the cycle.  Numbers that are not a state of
    the cycle have no duration and no successor other than themselves. *)
Definition duration (s : Z) : option Q :=
  if (s =? RED)%Z then Some redTime
  else if (s =? GREEN)%Z then Some greenTime
  else if (s =? YELLOW)%Z then Some yellowTime
  else None.

Definition successor (s : Z) : Z :=
  if (s =? RED)%Z then GREEN
  else if (s =? GREEN)%Z then YELLOW
  else if (s =? YELLOW)%Z then RED
  else s.

End TrafficLights.

(** ** The three.js vector ([THREE.Vector3])

    three.js is a library the game imports; the few methods the movement
    code calls are written here as release 0.152 defines them. *)

Module Vector3.

Record t : Type := mk { x : Q; y : Q; z : Q }.

Definition zero : t := mk 0 0 0.

(** [a.addScaledVector(v, s)]. *)
Definition addScaledVector (a v : t) (s : Q) : t :=
  mk (x a + x v * s) (y a + y v * s) (z a + z v * s).

(** [crossVectors(a, b)]. *)
Definition crossVectors (a b : t) : t :=
  mk (y a * z b - z a * y b) (z a * x b - x a * z b) (x a * y b - y a * x b).

Definition multiplyScalar (a : t) (s : Q) : t := mk (x a * s) (y a * s) (z a * s).
Definition divideScalar (a : t) (s : Q) : t := multiplyScalar a (1 / s).

Definition lengthSq (a : t) : Q := x a * x a + y a * y a + z a * z a.

Section WithSqrt.
(** [Math.sqrt], whose results are not rational in general. *)
Variable sqrt : Q -> Q.

Definition length (a : t) : Q := sqrt (lengthSq a).

(** [normalize()] is [divideScalar(length() || 1)]. *)
Definition normalize (a : t) : t :=
  let l := length a in
  divideScalar a (if Qeq_bool l 0 then 1 else l).
End WithSqrt.

Definition setX (a : t) (v : Q) : t := mk v (y a) (z a).
Definition setY (a : t) (v : Q) : t := mk (x a) v (z a).
Definition setZ (a : t) (v : Q) : t := mk (x a) (y a) v.

End Vector3.

(** ** Colliders ([buildingColliders], buildings.js) *)

Module Collider.

(** An entry of the registry: centre and full extents. *)
Record t : Type := mk { x : Q; z : Q; width : Q; depth : Q }.

End Collider.

(** ** Player controls ([controls.js]) *)

Module Controls.

(** The camera that [PointerLockControls] (three.js) drives.  [right] is
    column 0 of the camera matrix, the vector its [moveRight] and
    [moveForward] read; it is set by the mouse and is an input here. *)
Record Camera : Type := mkCamera {
  position : Vector3.t;
  right : Vector3.t;
  up : Vector3.t
}.

Record PointerLock : Type := mkPointerLock { isLocked : bool }.

(** The module-level bindings of controls.js.  [controls] is undefined
    until [initControls] has run. *)
Record State : Type := mkState {
  camera : Camera;
  controls : option PointerLock;
  moveForward : bool;
  moveBackward : bool;
  moveLeft : bool;
  moveRight : bool;
  sprint : bool;
  velocity : Vector3.t;
  direction : Vector3.t;
  dayNightAuto : bool;
  timeOfDay : Q
}.

Definition setCamera (s : State) (c : Camera) : State :=
  mkState c (controls s) (moveForward s) (moveBackward s) (moveLeft s)
    (moveRight s) (sprint s) (velocity s) (direction s) (dayNightAuto s)
    (timeOfDay s).

Definition setPosition (s : State) (p : Vector3.t) : State :=
  setCamera s (mkCamera p (right (camera s)) (up (camera s))).

Definition setVelocity (s : State) (v : Vector3.t) : State :=
  mkState (camera s) (controls s) (moveForward s) (moveBackward s)
    (moveLeft s) (moveRight s) (sprint s) v (direction s) (dayNightAuto s)
    (timeOfDay s).

Definition setDirection (s : State) (d : Vector3.t) : State :=
  mkState (camera s) (controls s) (moveForward s) (moveBackward s)
    (moveLeft s) (moveRight s) (sprint s) (velocity s) d (dayNightAuto s)
    (timeOfDay s).

Definition setTimeOfDay (s : State) (v : Q) : State :=
  mkState (camera s) (controls s) (moveForward s) (moveBackward s)
    (moveLeft s) (moveRight s) (sprint s) (velocity s) (direction s)
    (dayNightAuto s) v.

Definition setDayNightAuto (s : State) (v : bool) : State :=
  mkState (camera s) (controls s) (moveForward s) (moveBackward s)
    (moveLeft s) (moveRight s) (sprint s) (velocity s) (direction s) v
    (timeOfDay s).

Definition pos (s : State) : Vector3.t := position (camera s).

(** The module as it is loaded, and after [initControls], which places the
    player at (0, 2, 20).  A fresh camera looks down -z: its matrix column
    0 is the x axis. *)
Definition initial : State :=
  mkState (mkCamera Vector3.zero (Vector3.mk 1 0 0) (Vector3.mk 0 1 0))
    None false false false false false Vector3.zero Vector3.zero false
    0.25.

Definition initControls (s : State) : State :=
  mkState (mkCamera (Vector3.mk 0 2 20) (right (camera s)) (up (camera s)))
    (Some (mkPointerLock false)) (moveForward s) (moveBackward s)
    (moveLeft s) (moveRight s) (sprint s) (velocity s) (direction s)
    (dayNightAuto s) (timeOfDay s).

(** [PointerLockControls.moveRight(distance)]: along column 0 of the
    camera matrix. *)
Definition plcMoveRight (c : Camera) (distance : Q) : Camera :=
  mkCamera (Vector3.addScaledVector (position c) (right c) distance)
    (right c) (up c).

(** [PointerLockControls.moveForward(distance)]: along [up x right],
    parallel to the ground. *)
Definition plcMoveForward (c : Camera) (distance : Q) : Camera :=
  mkCamera
    (Vector3.addScaledVector (position c)
       (Vector3.crossVectors (up c) (right c)) distance)
    (right c) (up c).

(** [checkBuildingCollisions]. *)
Definition playerRadius : Q := 1.0.

Definition hits (p : Vector3.t) (b : Collider.t) : bool :=
  let halfW := Collider.width b / 2 + playerRadius in
  let halfD := Collider.depth b / 2 + playerRadius in
  Js.gtb (Vector3.x p) (Collider.x b - halfW) &&
  Js.ltb (Vector3.x p) (Collider.x b + halfW) &&
  Js.gtb (Vector3.z p) (Collider.z b - halfD) &&
  Js.ltb (Vector3.z p) (Collider.z b + halfD).

Definition checkBuildingCollisions (buildingColliders : list Collider.t)
    (p : Vector3.t) : bool :=
  existsb (hits p) buildingColliders.

Definition limit : Q := 130.

Section Movement.
Variable sqrt : Q -> Q.
Variable buildingColliders : list Collider.t.

(** "Apply friction". *)
Definition applyFriction (delta : Q) (s : State) : State :=
  let v := velocity s in
  setVelocity s
    (Vector3.mk (Vector3.x v - Vector3.x v * 10.0 * delta) (Vector3.y v)
       (Vector3.z v - Vector3.z v * 10.0 * delta)).

(** "Calculate direction" and "Apply speed". *)
Definition applyInput (delta : Q) (s : State) : State :=
  let d0 := direction s in
  let d1 := Vector3.setZ d0
              (Js.ofBool (moveForward s) - Js.ofBool (moveBackward s)) in
  let d2 := Vector3.setX d1
              (Js.ofBool (moveRight s) - Js.ofBool (moveLeft s)) in
  let d := Vector3.normalize sqrt d2 in
  let speed : Q := if sprint s then 200.0 else 80.0 in
  let v := velocity s in
  let v1 := if moveForward s || moveBackward s
            then Vector3.setZ v (Vector3.z v - Vector3.z d * speed * delta)
            else v in
  let v2 := if moveLeft s || moveRight s
            then Vector3.setX v1 (Vector3.x v1 - Vector3.x d * speed * delta)
            else v1 in
  setVelocity (setDirection s d) v2.

(** "Attempt X movement". *)
Definition attemptX (delta : Q) (oldPos : Vector3.t) (s : State) : State :=
  let s1 := setCamera s
              (plcMoveRight (camera s) (- Vector3.x (velocity s) * delta)) in
  if checkBuildingCollisions buildingColliders (pos s1) then
    setVelocity (setPosition s1 (Vector3.setX (pos s1) (Vector3.x oldPos)))
      (Vector3.setX (velocity s1) 0)
  else s1.

(** "Attempt Z movement". *)
Definition attemptZ (delta : Q) (oldPos : Vector3.t) (s : State) : State :=
  let s1 := setCamera s
              (plcMoveForward (camera s) (- Vector3.z (velocity s) * delta)) in
  if checkBuildingCollisions buildingColliders (pos s1) then
    setVelocity (setPosition s1 (Vector3.setZ (pos s1) (Vector3.z oldPos)))
      (Vector3.setZ (velocity s1) 0)
  else s1.

(** "Keep player at fixed height". *)
Definition pinHeight (s : State) : State :=
  setPosition s (Vector3.setY (pos s) 2).

(** "Apply strict city boundaries": four tests in sequence. *)
Definition clampLowX (s : State) : State :=
  if Js.ltb (Vector3.x (pos s)) (- limit) then
    setVelocity (setPosition s (Vector3.setX (pos s) (- limit)))
      (Vector3.setX (velocity s) 0)
  else s.

Definition clampHighX (s : State) : State :=
  if Js.gtb (Vector3.x (pos s)) limit then
    setVelocity (setPosition s (Vector3.setX (pos s) limit))
      (Vector3.setX (velocity s) 0)
  else s.

Definition clampLowZ (s : State) : State :=
  if Js.ltb (Vector3.z (pos s)) (- limit) then
    setVelocity (setPosition s (Vector3.setZ (pos s) (- limit)))
      (Vector3.setZ (velocity s) 0)
  else s.

Definition clampHighZ (s : State) : State :=
  if Js.gtb (Vector3.z (pos s)) limit then
    setVelocity (setPosition s (Vector3.setZ (pos s) limit))
      (Vector3.setZ (velocity s) 0)
  else s.

Definition clampToCity (s : State) : State :=
  clampHighZ (clampLowZ (clampHighX (clampLowX s))).

(** The state the two attempts leave, before height and boundaries. *)
Definition attemptMoves (delta : Q) (s : State) : State :=
  let s1 := applyInput delta (applyFriction delta s) in
  let oldPos := pos s1 in
  attemptZ delta oldPos (attemptX delta oldPos s1).

Definition updateMovement (delta : Q) (s : State) : State :=
  match controls s with
  | None => s
  | Some _ => clampToCity (pinHeight (attemptMoves delta s))
  end.

(** [n] frames, one [delta] each. *)
Fixpoint run (deltas : list Q) (s : State) : State :=
  match deltas with
  | [] => s
  | delta :: rest => run rest (updateMovement delta s)
  end.
End Movement.

(** Key codes the handlers react to. *)
Inductive Key : Type :=
  | KeyW | KeyA | KeyS | KeyD | ShiftLeft | ShiftRight
  | Digit1 | Digit2 | Digit3 | Digit4 | KeyN | OtherKey.

Definition setFlags (s : State) (f b l r sp : bool) : State :=
  mkState (camera s) (controls s) f b l r sp (velocity s) (direction s)
    (dayNightAuto s) (timeOfDay s).

Definition onKeyDown (k : Key) (s : State) : State :=
  match k with
  | KeyW => setFlags s true (moveBackward s) (moveLeft s) (moveRight s) (sprint s)
  | KeyA => setFlags s (moveForward s) (moveBackward s) true (moveRight s) (sprint s)
  | KeyS => setFlags s (moveForward s) true (moveLeft s) (moveRight s) (sprint s)
  | KeyD => setFlags s (moveForward s) (moveBackward s) (moveLeft s) true (sprint s)
  | ShiftLeft | ShiftRight =>
      setFlags s (moveForward s) (moveBackward s) (moveLeft s) (moveRight s) true
  | Digit1 => setTimeOfDay (setDayNightAuto s false) 0.05
  | Digit2 => setTimeOfDay (setDayNightAuto s false) 0.25
  | Digit3 => setTimeOfDay (setDayNightAuto s false) 0.48
  | Digit4 => setTimeOfDay (setDayNightAuto s false) 0.75
  | KeyN => setDayNightAuto s (negb (dayNightAuto s))
  | OtherKey => s
  end.

Definition onKeyUp (k : Key) (s : State) : State :=
  match k with
  | KeyW => setFlags s false (moveBackward s) (moveLeft s) (moveRight s) (sprint s)
  | KeyA => setFlags s (moveForward s) (moveBackward s) false (moveRight s) (sprint s)
  | KeyS => setFlags s (moveForward s) false (moveLeft s) (moveRight s) (sprint s)
  | KeyD => setFlags s (moveForward s) (moveBackward s) (moveLeft s) false (sprint s)
  | ShiftLeft | ShiftRight =>
      setFlags s (moveForward s) (moveBackward s) (moveLeft s) (moveRight s) false
  | _ => s
  end.

(** The vocabulary of the specification.  A point is blocked when it lies
    strictly inside some collider grown by the player radius on both axes;
    the city is the square of side [2 * limit]; the horizontal speed is
    kept squared, which orders speeds as the speed itself does. *)
Definition Padded (b : Collider.t) (p : Vector3.t) : Prop :=
  Qabs (Vector3.x p - Collider.x b) < Collider.width b / 2 + playerRadius /\
  Qabs (Vector3.z p - Collider.z b) < Collider.depth b / 2 + playerRadius.

Definition Blocked (colliders : list Collider.t) (p : Vector3.t) : Prop :=
  exists b, In b colliders /\ Padded b p.

Definition InCity (p : Vector3.t) : Prop :=
  (- limit <= Vector3.x p /\ Vector3.x p <= limit) /\
  (- limit <= Vector3.z p /\ Vector3.z p <= limit).



(** The two targets of a frame: where the X attempt and then the Z attempt
    would put the player if nothing were in the way. *)
Definition targetX (sqrt : Q -> Q) (delta : Q) (s : State) : Vector3.t :=
  let s1 := applyInput sqrt delta (applyFriction delta s) in
  Vector3.addScaledVector (pos s1) (right (camera s1))
    (- Vector3.x (velocity s1) * delta).

Definition targetZ (sqrt : Q -> Q) (delta : Q) (s : State) : Vector3.t :=
  let s1 := applyInput sqrt delta (applyFriction delta s) in
  Vector3.addScaledVector (targetX sqrt delta s)
    (Vector3.crossVectors (up (camera s1)) (right (camera s1)))
    (- Vector3.z (velocity s1) * delta).


End Controls.

(** ** The HUD clock ([updateGameClock], popup.js) *)

Module Clock.

(** [n.toString()] for an integer [n]. *)
Definition toString (n : Z) : string :=
  DecimalString.NilZero.string_of_int (Z.to_int n).

(** [s.padStart(targetLength, c)] with a one-character filler. *)
Fixpoint fill (n : nat) (c : ascii) (s : string) : string :=
  match n with
  | O => s
  | S k => String c (fill k c s)
  end.

Definition padStart (targetLength : nat) (c : ascii) (s : string) : string :=
  fill (targetLength - String.length s) c s.

(** The text computed from [getTimeOfDay()]. *)
Definition clockText (timeVal : Q) : string :=
  let totalHours := 6 + timeVal * 24 in
  let totalHours :=
    if Js.geb totalHours 24 then totalHours - 24 else totalHours in
  let hours := Js.floor totalHours in
  let minutes := Js.floor ((totalHours - inject_Z hours) * 60) in
  let hStr := padStart 2 "0" (toString hours) in
  let mStr := padStart 2 "0" (toString minutes) in
  (hStr ++ ":" ++ mStr)%string.

(** The element [#gameClock] is its text content, or absent. *)
Definition updateGameClock (clockEl : option string) (s : Controls.State)
    : option string :=
  match clockEl with
  | None => None
  | Some _ => Some (clockText (Controls.timeOfDay s))
  end.

(** The vocabulary of the specification: [x mod m] on rationals, and a
    number below 100 written with exactly two decimal digits. *)
Definition Qmod (a m : Q) : Q := a - m * inject_Z (Qfloor (a / m)).

Definition digit (n : Z) : ascii := ascii_of_nat (48 + Z.to_nat n).

Definition twoDigits (n : Z) : string :=
  String (digit (n / 10)) (String (digit (n mod 10)) EmptyString).

End Clock.

(** ** Day and night ([updateDayNight], lighting.js) *)

Module Lighting.

(** Positions and intensities that depend on [Math.sin] and [Math.cos]
    are real numbers. *)
Record Vector3R : Type := mkVector3R { x : R; y : R; z : R }.

(** [sunLight]: a directional light. *)
Record DirectionalLight : Type := mkDirectionalLight {
  lightPosition : Vector3R;
  lightIntensity : R
}.

(** [sunMesh] and [moonMesh]. *)
Record Mesh : Type := mkMesh { position : Vector3R; visible : bool }.

(** An entry of [streetLamps]: [lamp.light.intensity] and
    [lamp.bulb.material.emissiveIntensity]. *)
Record Lamp : Type := mkLamp { intensity : R; emissiveIntensity : R }.

(** The module-level bindings; each is undefined until [initLighting]
    has created it.  [hemiLight] is kept as its intensity.  Clouds and the
    sky colour are presentation only and are left out. *)
Record State : Type := mkState {
  hemiLight : option R;
  sunLight : option DirectionalLight;
  sunMesh : option Mesh;
  moonMesh : option Mesh;
  streetLamps : list Lamp
}.

(** What [createStreetLamp] pushes: point light off, bulb material at 2.0. *)
Definition createStreetLamp : Lamp := mkLamp 0%R 2.0%R.

Definition cycleSpeed : Q := 0.001388.

(** [a > b] on real numbers. *)
Definition gtb (a b : R) : bool := if Rgt_dec a b then true else false.

Section Derived.
Local Open Scope R_scope.
Variable timeOfDay : R.

Definition angle : R := timeOfDay * PI * 2.
Definition sunHeight : R := sin angle.
Definition orbitRadius : R := 150.
Definition sunX : R := cos angle * orbitRadius.
Definition sunY : R := sin angle * orbitRadius.
Definition sunZ : R := -30.

Definition sunVisible : bool := gtb sunY (-10).
Definition moonVisible : bool := gtb (- sunY) (-10).

Definition dayFactor : R := Rmax 0 sunHeight.
Definition nightFactor : R := 1 - dayFactor.

(** The body of [streetLamps.forEach]. *)
Definition updateLamp (lamp : Lamp) : Lamp :=
  let intensity := 3.0 * Rmax 0 (nightFactor - 0.2) in
  mkLamp intensity (if gtb intensity 0.1 then 2.0 else 0).

(** Everything below the clock update. *)
Definition render (l : State) : State :=
  mkState
    (option_map (fun _ => 0.4 + 0.6 * dayFactor) (hemiLight l))
    (option_map
       (fun _ => mkDirectionalLight (mkVector3R sunX (Rmax 10 sunY) sunZ)
                   (1.3 * dayFactor))
       (sunLight l))
    (option_map
       (fun _ => mkMesh (mkVector3R sunX sunY sunZ) sunVisible)
       (sunMesh l))
    (option_map
       (fun _ => mkMesh (mkVector3R (- sunX) (- sunY) (- sunZ)) moonVisible)
       (moonMesh l))
    (map updateLamp (streetLamps l)).
End Derived.

(** The clock update: [timeOfDay] advances only in auto mode. *)
Definition tick (delta : Q) (c : Controls.State) : Controls.State :=
  if Controls.dayNightAuto c then
    Controls.setTimeOfDay c
      (Js.rem1 (Controls.timeOfDay c + delta * cycleSpeed))
  else c.

Definition updateDayNight (delta : Q) (c : Controls.State) (l : State)
    : Controls.State * State :=
  match hemiLight l, sunLight l with
  | Some _, Some _ =>
      let c' := tick delta c in
      (c', render (Q2R (Controls.timeOfDay c')) l)
  | _, _ => (c, l)
  end.

End Lighting.

(** ** Building data ([buildingData.js]) and the world ([buildings.js]) *)

Module Buildings.

Definition roadWidth : Q := 12.
Definition gridSpacing : Q := 40.

(** A building configuration.  [color] is undefined when the palette is
    indexed out of range. *)
Record Config : Type := mkConfig {
  x : Q;
  z : Q;
  width : Q;
  height : Q;
  depth : Q;
  color : option Z
}.

Definition reservedLocations : list (Q * Q) :=
  [ (0, -40); (40, -40) ].

Definition skyscrapers : list Config :=
  [ mkConfig (-80) 80 14 38 14 (Some 0x9e9e9e%Z);
    mkConfig (-40) 80 14 45 14 (Some 0x757575%Z);
    mkConfig (-80) 40 14 35 14 (Some 0x616161%Z);
    mkConfig 80 (-80) 14 42 14 (Some 0x5d4037%Z);
    mkConfig 40 (-80) 14 40 14 (Some 0x6d4c41%Z);
    mkConfig 80 80 14 36 14 (Some 0x455a64%Z);
    mkConfig (-40) (-80) 14 33 14 (Some 0x37474f%Z) ].

(** [isOccupied]; [===] on numbers is numeric equality. *)
Definition isOccupied (px pz : Q) : bool :=
  if existsb (fun p => Qeq_bool (fst p) px && Qeq_bool (snd p) pz)
       reservedLocations
  then true
  else if existsb (fun p => Qeq_bool (x p) px && Qeq_bool (z p) pz) skyscrapers
  then true
  else false.

Definition gridRange : list Q := [ -120; -80; -40; 0; 40; 80; 120 ].

Definition metroColors : list Z :=
  [ 0x808080; 0xA9A9A9; 0xC0C0C0; 0xD3D3D3; 0x778899;
    0x708090; 0x5F9EA0; 0xB0C4DE; 0xE5E4E2; 0xF5F5F5 ]%Z.

(** [Math.random()] is an injected source: [random n] is the n-th draw
    and a generator threads the number of draws made so far. *)
Definition Gen (A : Type) : Type := nat -> A * nat.

Definition ret {A : Type} (a : A) : Gen A := fun n => (a, n).

Definition bind {A B : Type} (m : Gen A) (k : A -> Gen B) : Gen B :=
  fun n => let (a, n') := m n in k a n'.

Notation "v <- m ;; k" := (bind m (fun v => k))
  (at level 61, m at next level, right associativity).

Section Generation.
Variable random : nat -> Q.

Definition mathRandom : Gen Q := fun n => (random n, S n).

(** The body of the inner [forEach]: nothing for an occupied cell, else
    one configuration; the draws are height, colour, width, depth. *)
Definition generateCell (gx gz : Q) : Gen (list Config) :=
  if isOccupied gx gz then ret []
  else
    r1 <- mathRandom ;;
    let height :=
      if Qle_bool (Qabs gx) 40 && Qle_bool (Qabs gz) 40
      then 20 + r1 * 10
      else 10 + r1 * 8 in
    r2 <- mathRandom ;;
    let color :=
      nth_error metroColors
        (Z.to_nat (Js.floor (r2 * inject_Z (Z.of_nat (List.length metroColors))))) in
    r3 <- mathRandom ;;
    r4 <- mathRandom ;;
    ret [ mkConfig gx gz (12 + r3 * 2) height (12 + r4 * 2) color ].

(** [cells.forEach(f)] with the pushes of [f] collected in order. *)
Fixpoint forEachGen {A : Type} (f : A -> Gen (list Config)) (cells : list A)
    : Gen (list Config) :=
  match cells with
  | [] => ret []
  | c :: rest =>
      out <- f c ;;
      outs <- forEachGen f rest ;;
      ret (out ++ outs)
  end.

Definition generate : Gen (list Config) :=
  forEachGen (fun gx => forEachGen (fun gz => generateCell gx gz) gridRange)
    gridRange.

Definition generatedBuildings : list Config := fst (generate O).

Definition roadsideBuildings : list Config := [].
Definition mediumBuildings : list Config := generatedBuildings.

Definition colliderOf (c : Config) : Collider.t :=
  Collider.mk (x c) (z c) (width c) (depth c).

(** [createBuildings]: the three loops push one collider per
    configuration.  The meshes and the trees planted around them are
    presentation and register nothing. *)
Definition createBuildings (buildingColliders : list Collider.t)
    : list Collider.t :=
  buildingColliders
    ++ map colliderOf roadsideBuildings
    ++ map colliderOf mediumBuildings
    ++ map colliderOf skyscrapers.

Definition schoolCollider : Collider.t := Collider.mk 0 (-40) 20 15.

(** [initWorld], as far as the registry goes: the buildings, then the
    school; the parking lot and the crossings register nothing. *)
Definition initWorld : list Collider.t :=
  createBuildings [] ++ [ schoolCollider ].
End Generation.

(** The values [i] takes in [for (let i = lo; i <= hi; i += step)]. *)
Fixpoint steps (n : nat) (i step : Q) : list Q :=
  match n with
  | O => []
  | S k => i :: steps k (i + step) step
  end.

Definition forRange (lo hi step : Q) : list Q :=
  steps (Z.to_nat (Qfloor ((hi - lo) / step) + 1)) lo step.

(** The centre lines [createRoads] lays, vertical and horizontal alike. *)
Definition roadLines : list Q := forRange (-100) 100 gridSpacing.

(** [isTooCloseToRoad], the strict version. *)
Definition margin : Q := 5.

Definition isTooCloseToRoad (px pz : Q) : bool :=
  if Js.ltb (Qabs pz) (roadWidth / 2 + margin) then true
  else if Js.ltb (Qabs px) (roadWidth / 2 + margin) then true
  else
    existsb
      (fun i =>
         (Js.ltb (Qabs (px - i)) (roadWidth / 2 + margin) && Js.ltb (Qabs pz) 150)
         || (Js.ltb (Qabs (pz - i)) (roadWidth / 2 + margin) && Js.ltb (Qabs px) 150))
      roadLines.

(** The vocabulary of the specification.  A collider is the rectangle of
    its full extents around its centre; two rectangles overlap when their
    interiors meet; the road buffer is where [isTooCloseToRoad] holds. *)
Definition Inside (c : Collider.t) (px pz : Q) : Prop :=
  Qabs (px - Collider.x c) <= Collider.width c / 2 /\
  Qabs (pz - Collider.z c) <= Collider.depth c / 2.

Definition Overlap (a b : Collider.t) : Prop :=
  Qabs (Collider.x a - Collider.x b) < (Collider.width a + Collider.width b) / 2 /\
  Qabs (Collider.z a - Collider.z b) < (Collider.depth a + Collider.depth b) / 2.

Definition InRoadBuffer (c : Collider.t) : Prop :=
  exists px pz, Inside c px pz /\ isTooCloseToRoad px pz = true.

(** Within [roadWidth / 2 + margin] of a centre line that carries a road. *)
Definition NearRoadLine (c : Collider.t) : Prop :=
  exists px pz i, Inside c px pz /\ In i roadLines /\
    (Qabs (px - i) < roadWidth / 2 + margin \/
     Qabs (pz - i) < roadWidth / 2 + margin).

End Buildings.

(** ** Sky colour and clouds ([updateDayNight] and [createClouds],
    lighting.js) *)

Module Sky.

(** A [THREE.Color] in the working colour space.  How a hex code becomes
    three channels is the library's business; the three colour stops are
    inputs. *)
Record Color : Type := mkColor { r : R; g : R; b : R }.

(** [lerpColors(color1, color2, alpha)]. *)
Definition lerpColors (color1 color2 : Color) (alpha : R) : Color :=
  mkColor (r color1 + (r color2 - r color1) * alpha)%R
          (g color1 + (g color2 - g color1) * alpha)%R
          (b color1 + (b color2 - b color1) * alpha)%R.

Section Stops.
Local Open Scope R_scope.
Variable dayColor sunsetColor nightColor : Color.

(** "Sky Color Interpolation": the value given to [scene.background] and
    copied to the fog. *)
Definition skyColor (timeOfDay : R) : Color :=
  let dayFactor := Lighting.dayFactor timeOfDay in
  if Lighting.gtb dayFactor 0.3 then
    let t := 1 - (dayFactor - 0.3) / 0.7 in
    lerpColors dayColor sunsetColor (Rmax 0 (Rmin 1 (t * 0.4)))
  else
    let t := 1 - dayFactor / 0.3 in
    lerpColors sunsetColor nightColor t.
End Stops.

(** "Dynamic Cloud Color": the grey level given to the shared cloud
    material. *)
Definition cloudColorVal (timeOfDay : R) : R :=
  Rmax 0.2 (Lighting.sunHeight timeOfDay).

(** A cloud cluster, as far as the update goes: its position and
    [userData.speed]; [blobs] is the number of meshes it is made of. *)
Record Cloud : Type := mkCloud {
  x : Q;
  y : Q;
  z : Q;
  speed : Q;
  blobs : Z
}.

Section Creation.
Variable random : nat -> Q.
Import Buildings.

(** The inner loop of [createClouds]: each blob draws a size and three
    offsets. *)
Fixpoint createBlobs (n : nat) : Gen unit :=
  match n with
  | O => ret tt
  | S k =>
      size <- mathRandom random ;;
      px <- mathRandom random ;;
      py <- mathRandom random ;;
      pz <- mathRandom random ;;
      createBlobs k
  end.

Definition createCloud : Gen Cloud :=
  r0 <- mathRandom random ;;
  let blobs := (3 + Js.floor (r0 * 5))%Z in
  u <- createBlobs (Z.to_nat blobs) ;;
  rx <- mathRandom random ;;
  ry <- mathRandom random ;;
  rz <- mathRandom random ;;
  rs <- mathRandom random ;;
  ret (mkCloud ((rx - 0.5) * 400) (60 + ry * 40) ((rz - 0.5) * 400)
         (0.5 + rs * 1.5) blobs).

Fixpoint createCloudsFrom (n : nat) : Gen (list Cloud) :=
  match n with
  | O => ret []
  | S k =>
      c <- createCloud ;;
      cs <- createCloudsFrom k ;;
      ret (c :: cs)
  end.

Definition cloudCount : nat := 15.

(** [createClouds]: the children of [cloudsGroup], the draws starting at
    draw number [n]. *)
Definition createClouds (n : nat) : list Cloud :=
  fst (createCloudsFrom cloudCount n).
End Creation.

(** "Animate Clouds": the body of [cloudsGroup.children.forEach]. *)
Definition moveCloud (delta : Q) (c : Cloud) : Cloud :=
  let x1 := x c + speed c * delta in
  mkCloud (if Js.gtb x1 250 then -250 else x1) (y c) (z c) (speed c) (blobs c).

(** [cloudsGroup] is undefined until [createClouds] has run. *)
Definition updateClouds (delta : Q) (cloudsGroup : option (list Cloud))
    : option (list Cloud) :=
  option_map (map (moveCloud delta)) cloudsGroup.

Fixpoint drift (deltas : list Q) (cloudsGroup : option (list Cloud))
    : option (list Cloud) :=
  match deltas with
  | [] => cloudsGroup
  | delta :: rest => drift rest (updateClouds delta cloudsGroup)
  end.

End Sky.

(** ** The traffic lights of the city ([initLighting], lighting.js) *)

Module Junctions.
Import TrafficLights.

(** Where [initLighting] puts its five traffic lights. *)
Definition positions : list (Q * Q) :=
  [ (13, -27); (27, -27); (-13, -28); (-13, 53); (67, -27) ].

(** The [trafficLights] array once [initLighting] has run: one push per
    call of [createTrafficLight]. *)
Definition initTrafficLights : list Light :=
  map (fun _ => createTrafficLight) positions.

(** Frame after frame. *)
Fixpoint runLights (deltas : list Q) (lights : list Light) : list Light :=
  match deltas with
  | [] => lights
  | delta :: rest => runLights rest (updateTrafficLights delta lights)
  end.

End Junctions.

(** ** Birds ([Bird.update], objects/Bird.js) *)

Module Bird.

(** A bird, as far as [update] goes.  The horizontal position is
    rational; the height and the wing angles take a sine and are real. *)
Record t : Type := mk {
  x : Q;
  y : R;
  z : Q;
  direction : Vector3.t;
  speed : Q;
  flapSpeed : Q;
  wingL : R;
  wingR : R
}.

(** [update(delta)], with the value of [Date.now()] as an input. *)
Definition update (now : Z) (delta : Q) (b : t) : t :=
  let s := speed b * delta in
  let x1 := x b + Vector3.x (direction b) * s in
  let y1 := (y b + Q2R (Vector3.y (direction b) * s))%R in
  let z1 := z b + Vector3.z (direction b) * s in
  let x2 := if Js.gtb x1 300 then -300 else x1 in
  let x3 := if Js.ltb x2 (-300) then 300 else x2 in
  let z2 := if Js.gtb z1 300 then -300 else z1 in
  let z3 := if Js.ltb z2 (-300) then 300 else z2 in
  let time := inject_Z now * 0.001 in
  let flap := (sin (Q2R (time * flapSpeed b)) * 0.4)%R in
  mk x3 (y1 + sin (Q2R (time * 2)) * 0.02)%R z3
     (direction b) (speed b) (flapSpeed b) flap (- flap)%R.

End Bird.

(** ** Roads, crossings and trees ([buildings.js], [Road.js],
    [ZebraCross.js], [Tree.js], [Building.js]) *)

Module Scenery.
Import Buildings.

(** A [Road]: a box [width] wide along x and [length] long along z,
    centred at (x, z). *)
Record Road : Type := mkRoad {
  roadW : Q;
  roadL : Q;
  roadX : Q;
  roadZ : Q
}.

(** [createRoads]: the vertical roads, then the horizontal ones. *)
Definition createRoads : list Road :=
  map (fun i => mkRoad roadWidth 300 i 0) (forRange (-100) 100 gridSpacing)
  ++ map (fun j => mkRoad 300 roadWidth 0 j) (forRange (-100) 100 gridSpacing).

(** The stripes of a [ZebraCross]: the loop
    [for (let x = xStart; x <= xEnd; x += step)], which need not end; it
    is run for at most [fuel] turns and answers [None] if that is not
    enough. *)
Fixpoint stripes (fuel : nat) (x xEnd step : Q) : option (list Q) :=
  match fuel with
  | O => None
  | S k =>
      if Qle_bool x xEnd then
        match stripes k (x + step) xEnd step with
        | Some rest => Some (x :: rest)
        | None => None
        end
      else Some []
  end.

(** The crossings [initWorld] lays: [xStart], [xEnd], [z], with the
    default step 1.2. *)
Definition crossings : list (Q * Q * Q) :=
  [ (13, 27, -30); (13, 28, -12); (-26, -13, -12); (-28, -13, 48);
    (53, 68, -30) ].

Definition defaultStep : Q := 1.2.

(** [isTooCloseToRoadLoose]. *)
Definition isTooCloseToRoadLoose (px pz : Q) : bool :=
  let safeDist := roadWidth / 2 + 1.5 in
  if Js.ltb (Qabs pz) safeDist then true
  else if Js.ltb (Qabs px) safeDist then true
  else
    existsb
      (fun i =>
         (Js.ltb (Qabs (px - i)) safeDist && Js.ltb (Qabs pz) 150)
         || (Js.ltb (Qabs (pz - i)) safeDist && Js.ltb (Qabs px) 150))
      (forRange (-100) 100 gridSpacing).

(** [noTreeZones] and [isInNoTreeZone]. *)
Record Zone : Type := mkZone { xMin : Q; xMax : Q; zMin : Q; zMax : Q }.

Definition noTreeZones : list Zone :=
  [ mkZone 30 55 (-55) (-25); mkZone (-20) 20 (-55) (-25) ].

Definition isInNoTreeZone (px pz : Q) : bool :=
  existsb
    (fun zone =>
       Js.geb px (xMin zone) && Qle_bool px (xMax zone) &&
       Js.geb pz (zMin zone) && Qle_bool pz (zMax zone))
    noTreeZones.

(** A [Tree]: where it stands, its uniform scale, its turn about the
    vertical and the leaf colour its constructor draws. *)
Record Tree : Type := mkTree {
  treeX : Q;
  treeZ : Q;
  treeScale : Q;
  treeRotation : Q;
  leaf : option Z
}.

Definition leafColors : list Z :=
  [ 0x2e8b57; 0x228b22; 0x66bb66; 0x556b2f; 0xff8c00; 0xeebb44 ]%Z.

Section Planting.
Variable random : nat -> Q.

(** [new Tree(x, z)]: one draw, for the leaf colour. *)
Definition newTree (px pz : Q) : Gen Tree :=
  r <- mathRandom random ;;
  ret (mkTree px pz 1 0
         (nth_error leafColors
            (Z.to_nat (Js.floor (r * inject_Z (Z.of_nat (List.length leafColors))))))).

(** A loop whose body may push trees. *)
Fixpoint forEachTree {A : Type} (f : A -> Gen (list Tree)) (l : list A)
    : Gen (list Tree) :=
  match l with
  | [] => ret []
  | a :: rest =>
      out <- f a ;;
      outs <- forEachTree f rest ;;
      ret (out ++ outs)
  end.

(** One [if (!isInNoTreeZone(..) && !isTooCloseToRoad(..))] of
    [createTrees]. *)
Definition plantIfClear (px pz scale : Q) : Gen (list Tree) :=
  if negb (isInNoTreeZone px pz) && negb (isTooCloseToRoad px pz) then
    t <- newTree px pz ;;
    ret [ mkTree (treeX t) (treeZ t) scale (treeRotation t) (leaf t) ]
  else ret [].

Definition largeTreeLocations : list (Q * Q) :=
  [ (30, 0); (-30, 0); (50, 50); (-50, 50); (50, -60); (-50, -60);
    (70, 20); (-70, 20); (0, 60); (0, -70); (85, 50); (-85, 50);
    (85, -50); (-85, -50) ].

(** [createTrees]: the rows along the vertical roads, then the large
    trees. *)
Definition createTrees : Gen (list Tree) :=
  let offsetFromRoad := 12 in
  let treeSpacing := 8 in
  let maxRange := 100 in
  rows <-
    forEachTree
      (fun i =>
         forEachTree
           (fun pz =>
              let leftX := i - roadWidth / 2 - offsetFromRoad in
              let rightX := i + roadWidth / 2 + offsetFromRoad in
              l <- plantIfClear leftX pz 1 ;;
              r <- plantIfClear rightX pz 1 ;;
              ret (l ++ r))
           (forRange (- maxRange) maxRange treeSpacing))
      (forRange (-100) 100 gridSpacing) ;;
  large <-
    forEachTree (fun loc => plantIfClear (fst loc) (snd loc) 2.5)
      largeTreeLocations ;;
  ret (rows ++ large).

(** The [Building] constructor decides its style from two draws; the
    second is made only for a height above 50. *)
Definition isTiered (height : Q) : Gen bool :=
  styleVal <- mathRandom random ;;
  if Js.gtb height 50 then
    r <- mathRandom random ;;
    ret (Js.gtb r 0.4)
  else ret false.

(** [addRandomTreesSmart]; [Math.cos], [Math.sin], [Math.sqrt] and
    [Math.PI] are inputs. *)
Variable cos sin sqrt : Q -> Q.
Variable PI : Q.

Definition qmax (a b : Q) : Q := if Js.ltb a b then b else a.

Definition tooNear (placed : list (Q * Q)) (tx tz : Q) : bool :=
  existsb
    (fun p =>
       let dx := fst p - tx in
       let dz := snd p - tz in
       Js.ltb (sqrt (dx * dx + dz * dz)) 1.5)
    placed.

(** The loop, [attempts] turns at most; [treesPlaced] and [count] are the
    variables of the code, [trees] collects what is added to the scene. *)
Fixpoint tryPlacing (attempts : nat) (config : Config) (targetCount : Z)
    (treesPlaced : list (Q * Q)) (count : Z) (trees : list Tree)
    : Gen (list Tree) :=
  match attempts with
  | O => ret trees
  | S remaining =>
      if (count <? targetCount)%Z then
        let halfW := width config / 2 in
        let halfD := depth config / 2 in
        let radiusMin := qmax halfW halfD + 1.5 in
        let radiusMax := 15 in
        r1 <- mathRandom random ;;
        let angle := r1 * PI * 2 in
        r2 <- mathRandom random ;;
        let dist := radiusMin + r2 * (radiusMax - radiusMin) in
        let tx := x config + cos angle * dist in
        let tz := z config + sin angle * dist in
        if Js.gtb tx (x config - halfW - 1) && Js.ltb tx (x config + halfW + 1)
           && Js.gtb tz (z config - halfD - 1)
           && Js.ltb tz (z config + halfD + 1)
        then tryPlacing remaining config targetCount treesPlaced count trees
        else if isTooCloseToRoadLoose tx tz
        then tryPlacing remaining config targetCount treesPlaced count trees
        else if isInNoTreeZone tx tz
        then tryPlacing remaining config targetCount treesPlaced count trees
        else if tooNear treesPlaced tx tz
        then tryPlacing remaining config targetCount treesPlaced count trees
        else
          t <- newTree tx tz ;;
          r3 <- mathRandom random ;;
          let scale := 0.9 + r3 * 0.6 in
          r4 <- mathRandom random ;;
          tryPlacing remaining config targetCount
            (treesPlaced ++ [(tx, tz)]) (count + 1)
            (trees ++ [ mkTree tx tz scale (r4 * PI * 2) (leaf t) ])
      else ret trees
  end.

Definition addRandomTreesSmart (config : Config) (minCount maxCount : Z)
    : Gen (list Tree) :=
  let maxAttempts := 300%nat in
  r <- mathRandom random ;;
  let targetCount :=
    (Js.floor (r * inject_Z (maxCount - minCount + 1)) + minCount)%Z in
  tryPlacing maxAttempts config targetCount [] 0 [].
End Planting.

End Scenery.

(** ** The quiz and its score ([quizData.js], [popup.js], [hud.js]) *)

Module Quiz.
Local Open Scope Z_scope.

Definition SIGN_IDS : list string :=
  [ "parking"; "schoolzone"; "noparking"; "speedlimit"; "stop";
    "intersection"; "noleft"; "noright"; "noovertake"; "slippery" ]%string.

(** A question: [a] is the number of options it offers and [c] the index
    of the right one; the texts are left out. *)
Record Item : Type := mkItem { a : nat; c : Z }.

(** A JavaScript object with string keys, in insertion order. *)
Fixpoint get {A : Type} (o : list (string * A)) (id : string) : option A :=
  match o with
  | [] => None
  | (k, v) :: rest => if String.eqb k id then Some v else get rest id
  end.

(** [o[id] = v]: in place for an existing key, at the end for a new one. *)
Fixpoint put {A : Type} (o : list (string * A)) (id : string) (v : A)
    : list (string * A) :=
  match o with
  | [] => [ (id, v) ]
  | (k, w) :: rest =>
      if String.eqb k id then (k, v) :: rest else (k, w) :: put rest id v
  end.

Definition quizData : list (string * list Item) :=
  [ ("parking"%string,
     [ mkItem 4 1; mkItem 4 2; mkItem 4 0; mkItem 4 1; mkItem 4 2 ]);
    ("schoolzone"%string,
     [ mkItem 4 1; mkItem 4 2; mkItem 4 0; mkItem 4 1; mkItem 4 1 ]);
    ("noparking"%string,
     [ mkItem 4 1; mkItem 4 0; mkItem 4 1; mkItem 4 1; mkItem 4 1 ]);
    ("speedlimit"%string,
     [ mkItem 4 1; mkItem 4 1; mkItem 4 1; mkItem 4 1; mkItem 4 2 ]);
    ("stop"%string,
     [ mkItem 4 1; mkItem 4 2; mkItem 4 1; mkItem 4 0; mkItem 4 1 ]);
    ("intersection"%string,
     [ mkItem 4 1; mkItem 4 0; mkItem 4 1; mkItem 4 1; mkItem 4 2 ]);
    ("noleft"%string,
     [ mkItem 4 1; mkItem 4 1; mkItem 4 0; mkItem 4 1; mkItem 4 2 ]);
    ("noright"%string,
     [ mkItem 4 1; mkItem 4 0; mkItem 4 2; mkItem 4 1; mkItem 4 1 ]);
    ("noovertake"%string,
     [ mkItem 4 2; mkItem 4 1; mkItem 4 0; mkItem 4 1; mkItem 4 2 ]);
    ("slippery"%string,
     [ mkItem 4 1; mkItem 4 2; mkItem 4 1; mkItem 4 2; mkItem 4 2 ]) ].

(** [getTotalQuizQuestions]. *)
Definition getTotalQuizQuestions : Z :=
  fold_left (fun total kv => total + Z.of_nat (List.length (snd kv)))
    quizData 0.

(** A radio button of the quiz form, with its value already parsed. *)
Record Radio : Type := mkRadio { checked : bool; value : Z }.

(** The form: the radio buttons named [q_<id>_<index>], in document
    order. *)
Definition Form : Type := string -> nat -> list Radio.

(** The radio buttons [startQuiz] writes for a sign: per question one
    button per option, valued with the option's index, none checked. *)
Definition startQuiz (id : string) : nat -> list Radio :=
  fun index =>
    match get quizData id with
    | None => []
    | Some data =>
        match nth_error data index with
        | None => []
        | Some item =>
            map (fun aIdx => mkRadio false (Z.of_nat aIdx)) (seq 0 (a item))
        end
    end.

(** The player ticks option [choice index] of question [index], if
    any. *)
Definition tick (choice : nat -> option nat) (group : nat -> list Radio)
    : nat -> list Radio :=
  fun index =>
    match choice index with
    | None => group index
    | Some k =>
        map (fun r => mkRadio (Z.eqb (value r) (Z.of_nat k)) (value r))
          (group index)
    end.

(** The value of the first checked button of a group, or -1. *)
Definition chosen (radios : list Radio) : Z :=
  match find checked radios with
  | Some r => value r
  | None => -1
  end.

(** The first loop of [finishQuiz]: the answers read and the number of
    right ones. *)
Fixpoint grade (group : nat -> list Radio) (index : nat) (data : list Item)
    : list Z * Z :=
  match data with
  | [] => ([], 0)
  | item :: rest =>
      let val := chosen (group index) in
      let (userAnswers, correct) := grade group (S index) rest in
      (val :: userAnswers, (if val =? c item then 1 else 0) + correct)
  end.

(** What the mission box shows. *)
Inductive Mission : Type :=
| Learn (completed total : Z)
| AllLearned.

Definition truthy (v : option bool) : bool :=
  match v with
  | Some true => true
  | _ => false
  end.

(** [updateHud]: the points shown and the maximum shown. *)
Definition updateHud (signScores : list (string * Z)) : Z * Z :=
  let totalBenar := fold_left (fun total kv => total + snd kv) signScores 0 in
  let totalQuestions := getTotalQuizQuestions in
  (totalBenar, totalQuestions * 2).

(** [updateMissionBox]. *)
Definition updateMissionBox (signStates : list (string * bool)) : Mission :=
  let completed :=
    fold_left
      (fun completed id =>
         if truthy (get signStates id) then completed + 1 else completed)
      SIGN_IDS 0 in
  if completed =? Z.of_nat (List.length SIGN_IDS) then AllLearned
  else Learn completed (Z.of_nat (List.length SIGN_IDS)).

(** [updateSignChecklist]: per sign, whether it is shown as done. *)
Definition updateSignChecklist (signStates : list (string * bool))
    : list (string * bool) :=
  map (fun id => (id, truthy (get signStates id))) SIGN_IDS.

(** The two objects of [popup.js] and what the three HUD elements show;
    the elements are taken to be on the page. *)
Record State : Type := mkState {
  signScores : list (string * Z);
  signStates : list (string * bool);
  hud : Z * Z;
  missionBox : Mission;
  signChecklist : list (string * bool)
}.

(** The module's initial state and [initHud]. *)
Definition initial : State :=
  let scores := [] in
  let states := map (fun id => (id, false)) SIGN_IDS in
  mkState scores states (updateHud scores) (updateMissionBox states)
    (updateSignChecklist states).

(** [finishQuiz]. *)
Definition finishQuiz (form : Form) (id : string) (st : State) : State :=
  match get quizData id with
  | None => st
  | Some data =>
      let (userAnswers, correct) := grade (form id) 0 data in
      let scores := put (signScores st) id (correct * 2) in
      let states :=
        if correct =? Z.of_nat (List.length data)
        then put (signStates st) id true
        else signStates st in
      mkState scores states (updateHud scores) (updateMissionBox states)
        (updateSignChecklist states)
  end.

(** A session: one form handed in after another. *)
Fixpoint session (quizzes : list (string * Form)) (st : State) : State :=
  match quizzes with
  | [] => st
  | (id, form) :: rest => session rest (finishQuiz form id st)
  end.

End Quiz.

(** ** The game loop ([main.js]) *)

Module Game.

(** What a frame reads and writes: the controls module, the traffic
    lights, the lighting module and the text of [#gameClock] (absent when
    the page has no such element). *)
Record World : Type := mkWorld {
  player : Controls.State;
  trafficLights : list TrafficLights.Light;
  sky : Lighting.State;
  gameClock : option string
}.

(** [init], as far as these go. *)
Definition init (sky0 : Lighting.State) (clockEl : option string) : World :=
  mkWorld (Controls.initControls Controls.initial)
    Junctions.initTrafficLights sky0 clockEl.

(** What happens between two frames: a key goes down or up, or the mouse
    turns the camera. *)
Inductive Event : Type :=
| Frame (delta : Q)
| KeyDown (k : Controls.Key)
| KeyUp (k : Controls.Key)
| Look (r u : Vector3.t).

Section Loop.
Variable sqrt : Q -> Q.
Variable colliders : list Collider.t.

(** [animate]: movement, traffic lights, day and night, clock, in this
    order.  The interaction hint, the minimap, the position display and
    the rendering read the state and are left out. *)
Definition animate (delta : Q) (w : World) : World :=
  let player1 := Controls.updateMovement sqrt colliders delta (player w) in
  let lights := TrafficLights.updateTrafficLights delta (trafficLights w) in
  let (player2, sky2) := Lighting.updateDayNight delta player1 (sky w) in
  mkWorld player2 lights sky2 (Clock.updateGameClock (gameClock w) player2).

Definition turn (r u : Vector3.t) (s : Controls.State) : Controls.State :=
  Controls.mkState
    (Controls.mkCamera (Controls.position (Controls.camera s)) r u)
    (Controls.controls s) (Controls.moveForward s) (Controls.moveBackward s)
    (Controls.moveLeft s) (Controls.moveRight s) (Controls.sprint s)
    (Controls.velocity s) (Controls.direction s) (Controls.dayNightAuto s)
    (Controls.timeOfDay s).

Definition step (e : Event) (w : World) : World :=
  match e with
  | Frame delta => animate delta w
  | KeyDown k =>
      mkWorld (Controls.onKeyDown k (player w)) (trafficLights w) (sky w)
        (gameClock w)
  | KeyUp k =>
      mkWorld (Controls.onKeyUp k (player w)) (trafficLights w) (sky w)
        (gameClock w)
  | Look r u =>
      mkWorld (turn r u (player w)) (trafficLights w) (sky w) (gameClock w)
  end.

Fixpoint play (events : list Event) (w : World) : World :=
  match events with
  | [] => w
  | e :: rest => play rest (step e w)
  end.
End Loop.

End Game.

(** ** The signs and how they are clicked ([signData.js], [signs.js],
    [main.js], [hud.js]) *)

Module SignData.

(** A sign configuration; [rotationY] is kept in units of [Math.PI]. *)
Record SignConfig : Type := mkSignConfig {
  id : string;
  x : Q;
  y : Q;
  z : Q;
  rotationY : Q;
  scale : Q
}.

Definition signConfigs : list SignConfig :=
  [ mkSignConfig "parking" 40 0 (-29) (-1) 1.0;
    mkSignConfig "schoolzone" 27 0 (-41) 1 1.0;
    mkSignConfig "noparking" 53 0 73 0 1.0;
    mkSignConfig "speedlimit" (-13.5) 0 40 1 1.0;
    mkSignConfig "stop" 13.5 0 (-7) 0 1.0;
    mkSignConfig "intersection" (-33) 0 (-66.5) (-1 / 2) 1.0;
    mkSignConfig "noleft" (-29) 0 (-27) (-1 / 2) 1.0;
    mkSignConfig "noright" 66.5 0 (-70) (-1) 1.0;
    mkSignConfig "noovertake" 106.5 0 0 1 1.0;
    mkSignConfig "slippery" 66.5 0 39 (-1) 1.0 ].

(** The keys of [signPopupInfo]. *)
Definition signPopupInfo : list string :=
  [ "parking"; "schoolzone"; "noparking"; "speedlimit"; "stop";
    "intersection"; "noleft"; "noright"; "noovertake"; "slippery" ]%string.

End SignData.

Module Signs.

(** An object of the scene graph: its identity, its position and, once
    added to another object, its parent.  [===] on objects is equality of
    identities. *)
Inductive Object3D : Type :=
| detached (uuid : nat) (position : Vector3.t)
| attached (uuid : nat) (position : Vector3.t) (parent : Object3D).

Definition uuid (o : Object3D) : nat :=
  match o with detached u _ | attached u _ _ => u end.

Definition position (o : Object3D) : Vector3.t :=
  match o with detached _ p | attached _ p _ => p end.

Definition parent (o : Object3D) : option Object3D :=
  match o with detached _ _ => None | attached _ _ p => Some p end.

(** An entry of [clickableSigns]. *)
Record Clickable : Type := mkClickable { mesh : Object3D; id : string }.

(** [createTextureSign]: a group at the sign's place, added to the scene,
    with the pole and the two boards as children; objects are numbered as
    they are created.  Returns the entry pushed and the three children. *)
Definition createTextureSign (scene : Object3D) (next : nat)
    (config : SignData.SignConfig) : Clickable * list Object3D :=
  let boardCenterY := 3.2 in
  let poleHeight := boardCenterY in
  let group :=
    attached next
      (Vector3.mk (SignData.x config) (SignData.y config) (SignData.z config))
      scene in
  let pole :=
    attached (next + 1) (Vector3.mk 0 (poleHeight / 2) (-0.1)) group in
  let frontBoard :=
    attached (next + 2) (Vector3.mk 0 boardCenterY 0.02) group in
  let backBoard :=
    attached (next + 3) (Vector3.mk 0 boardCenterY (-0.02)) group in
  (mkClickable group (SignData.id config), [ pole; frontBoard; backBoard ]).

(** [initSigns]: one sign per configuration, in order. *)
Fixpoint createAll (scene : Object3D) (next : nat)
    (configs : list SignData.SignConfig) : list (Clickable * list Object3D) :=
  match configs with
  | [] => []
  | config :: rest =>
      createTextureSign scene next config :: createAll scene (next + 4) rest
  end.

Definition initSigns (scene : Object3D) : list Clickable :=
  map fst (createAll scene (S (uuid scene)) SignData.signConfigs).

(** [findClickableSignFromObject]: up the parents until an entry's mesh
    is met. *)
Fixpoint findClickableSignFromObject (clickableSigns : list Clickable)
    (o : Object3D) : option Clickable :=
  match find (fun s => Nat.eqb (uuid (mesh s)) (uuid o)) clickableSigns with
  | Some found => Some found
  | None =>
      match o with
      | detached _ _ => None
      | attached _ _ o' => findClickableSignFromObject clickableSigns o'
      end
  end.

Section Clicks.
Variable sqrt : Q -> Q.

(** [Vector3.distanceTo]. *)
Definition distanceTo (a b : Vector3.t) : Q :=
  let dx := Vector3.x a - Vector3.x b in
  let dy := Vector3.y a - Vector3.y b in
  let dz := Vector3.z a - Vector3.z b in
  sqrt (dx * dx + dy * dy + dz * dz).

(** [raycaster.intersectObjects(objects, true)] from the centre of the
    screen: the objects hit, nearest first. *)
Variable intersectObjects : list Object3D -> list Object3D.

(** [handleSceneClick]: the sign whose popup is opened, if any. *)
Definition handleSceneClick (controls : option Controls.PointerLock)
    (camera : Controls.Camera) (clickableSigns : list Clickable)
    : option string :=
  match controls with
  | None => None
  | Some c =>
      if negb (Controls.isLocked c) then None
      else
        match intersectObjects (map mesh clickableSigns) with
        | [] => None
        | obj :: _ =>
            match findClickableSignFromObject clickableSigns obj with
            | None => None
            | Some found =>
                let dist :=
                  distanceTo (Controls.position camera)
                    (position (mesh found)) in
                if Js.ltb dist 12 then Some (id found) else None
            end
        end
  end.

(** [updateInteractionHint]: whether the hint ends up visible. *)
Definition updateInteractionHint (controls : option Controls.PointerLock)
    (camera : Controls.Camera) (clickableSigns : list Clickable) : bool :=
  match controls with
  | None => false
  | Some c =>
      if negb (Controls.isLocked c)
         || Nat.eqb (List.length clickableSigns) 0
      then false
      else
        match intersectObjects (map mesh clickableSigns) with
        | [] => false
        | obj :: _ =>
            match findClickableSignFromObject clickableSigns obj with
            | None => false
            | Some found =>
                let dist :=
                  distanceTo (Controls.position camera)
                    (position (mesh found)) in
                if Js.ltb dist 12 then true else false
            end
        end
  end.
End Clicks.

(** [o] is the object numbered [m] or lies below it in the scene graph. *)
Fixpoint Below (m : nat) (o : Object3D) : Prop :=
  uuid o = m \/
  match o with
  | detached _ _ => False
  | attached _ _ o' => Below m o'
  end.

End Signs.

(** ** The stripe loop in the code's own arithmetic ([ZebraCross.js]) *)

Module ZebraCross.
Import PrimFloat.

(** The loop [for (let x = xStart; x <= xEnd; x += step)] on IEEE
    doubles: [x + step] is rounded at every turn, which [Scenery.stripes]
    idealises away.  [None] when [fuel] turns are not enough. *)
Fixpoint stripes (fuel : nat) (x xEnd step : float) : option (list float) :=
  match fuel with
  | O => None
  | S k =>
      if PrimFloat.leb x xEnd then
        match stripes k (PrimFloat.add x step) xEnd step with
        | Some rest => Some (x :: rest)
        | None => None
        end
      else Some []
  end.

(** The default step: the double nearest to 1.2. *)
Definition defaultStep : float := 0x1.3333333333333p+0%float.

(** [xStart] and [xEnd] of the crossings [initWorld] lays. *)
Definition crossings : list (float * float) :=
  [ (13, 27); (13, 28); (-26, -13); (-28, -13); (53, 68) ]%float.

End ZebraCross.

(** * Properties *)

(** ** Comparisons *)

Module JsFacts.

Lemma ltb_lt (a b : Q) : Js.ltb a b = true <-> a < b.
Proof.
  unfold Js.ltb. rewrite negb_true_iff, <- not_true_iff_false, Qle_bool_iff.
  split; [apply Qnot_le_lt | apply Qlt_not_le].
Qed.

Lemma ltb_ge (a b : Q) : Js.ltb a b = false <-> b <= a.
Proof.
  unfold Js.ltb. rewrite negb_false_iff. apply Qle_bool_iff.
Qed.

Lemma gtb_gt (a b : Q) : Js.gtb a b = true <-> b < a.
Proof. apply ltb_lt. Qed.

Lemma gtb_le (a b : Q) : Js.gtb a b = false <-> a <= b.
Proof. apply ltb_ge. Qed.

(** Division by 2, for linear arithmetic. *)
Ltac halves := unfold Qdiv in *; change (/ 2) with (1 # 2) in *.

End JsFacts.

(** ** Traffic lights *)

Module TrafficLightsFacts.
Import TrafficLights.

Lemma paint_state (l : Light) : state (paint l) = state l.
Proof. reflexivity. Qed.

Lemma paint_timer (l : Light) : timer (paint l) = timer l.
Proof. reflexivity. Qed.

(** The chain of tests, read as the specification reads it. *)
Lemma advance_expired (delta d : Q) (l : Light) :
  duration (state l) = Some d -> d < timer l + delta ->
  state (advance delta l) = successor (state l) /\ timer (advance delta l) = 0.
Proof.
  unfold duration, successor, advance, RED, GREEN, YELLOW.
  intros Hd Hlt.
  destruct (state l =? 0)%Z eqn:E0.
  - injection Hd as <-. apply JsFacts.gtb_gt in Hlt. rewrite Hlt. simpl. auto.
  - destruct (state l =? 1)%Z eqn:E1.
    + injection Hd as <-. apply JsFacts.gtb_gt in Hlt. rewrite Hlt. simpl. auto.
    + destruct (state l =? 2)%Z eqn:E2; [|discriminate].
      injection Hd as <-. apply JsFacts.gtb_gt in Hlt. rewrite Hlt. simpl. auto.
Qed.

Lemma advance_running (delta d : Q) (l : Light) :
  duration (state l) = Some d -> timer l + delta <= d ->
  state (advance delta l) = state l /\
  timer (advance delta l) = timer l + delta.
Proof.
  unfold duration, advance, RED, GREEN, YELLOW.
  intros Hd Hle.
  destruct (state l =? 0)%Z eqn:E0; [|destruct (state l =? 1)%Z eqn:E1;
    [|destruct (state l =? 2)%Z eqn:E2; [|discriminate]]];
    injection Hd as <-; apply JsFacts.gtb_le in Hle; rewrite Hle; simpl;
    repeat match goal with
           | H : (state l =? _)%Z = true |- _ =>
               apply Z.eqb_eq in H; rewrite H; simpl
           end; auto.
Qed.

Lemma advance_one_step (delta : Q) (l : Light) :
  state (advance delta l) = state l \/
  state (advance delta l) = successor (state l).
Proof.
  unfold advance, successor, RED, GREEN, YELLOW.
  destruct (Z.eqb_spec (state l) 0) as [E|E];
    [rewrite E|destruct (Z.eqb_spec (state l) 1) as [E1|E1];
      [rewrite E1|destruct (Z.eqb_spec (state l) 2) as [E2|E2];
        [rewrite E2|]]]; simpl;
    try destruct (Js.gtb _ _); simpl; auto.
Qed.

End TrafficLightsFacts.

Section TrafficLightClaims.
Import TrafficLights TrafficLightsFacts.

Lemma updateLight_at (delta : Q) (lights : list Light) (i : nat) (l : Light) :
  nth_error lights i = Some l ->
  nth_error (updateTrafficLights delta lights) i = Some (updateLight delta l).
Proof.
  intros H. unfold updateTrafficLights. rewrite nth_error_map, H. reflexivity.
Qed.

(** C4.  A tick of [updateTrafficLights] adds [delta] to the timer of every
    instance; when the sum exceeds the duration of the current state (red
    4 s, green 4 s, yellow 2 s) the instance moves to the next state of the
    cycle red, green, yellow, red and its timer is exactly 0, the overshoot
    being dropped; otherwise the state stays and the timer keeps the sum.
    From red with timer 0, one tick of [redTime + eps] gives green with a
    timer of at most [eps]. *)
Theorem C4_traffic_light_tick :
  forall (lights : list Light) (delta : Q) (i : nat) (l : Light),
    0 < delta ->
    nth_error lights i = Some l ->
    exists l',
      nth_error (updateTrafficLights delta lights) i = Some l' /\
      (forall d, duration (state l) = Some d ->
         (d < timer l + delta ->
            state l' = successor (state l) /\ timer l' = 0) /\
         (timer l + delta <= d ->
            state l' = state l /\ timer l' = timer l + delta)) /\
      (forall eps, 0 < eps -> state l = RED -> timer l == 0 ->
         delta == redTime + eps ->
         state l' = GREEN /\ timer l' <= eps) /\
      duration RED = Some 4 /\ duration GREEN = Some 4 /\
      duration YELLOW = Some 2 /\
      successor RED = GREEN /\ successor GREEN = YELLOW /\
      successor YELLOW = RED.
Proof.
  intros lights delta i l _ Hi.
  exists (updateLight delta l). split; [now apply updateLight_at|].
  unfold updateLight. rewrite paint_state, paint_timer.
  split; [|split].
  - intros d Hd. split; intros H.
    + now apply advance_expired with d.
    + now apply advance_running with d.
  - intros eps Heps Hs Ht Hdelta.
    destruct (advance_expired delta redTime l) as [E1 E2].
    + rewrite Hs. reflexivity.
    + rewrite Ht, Hdelta. unfold redTime. lra.
    + rewrite E1, E2, Hs. split; [reflexivity|]. lra.
  - repeat split; reflexivity.
Qed.

Lemma C4_traffic_light_tick_witness :
  exists l',
    nth_error (updateTrafficLights 4.5 [createTrafficLight]) 0 = Some l' /\
    state l' = GREEN /\ timer l' = 0 /\ red l' = 0%Z /\ green l' = 0x00ff00%Z.
Proof.
  destruct (C4_traffic_light_tick [createTrafficLight] 4.5 0 createTrafficLight)
    as (l' & Hn & _ & Heps & _).
  - reflexivity.
  - reflexivity.
  - exists l'. split; [exact Hn|].
    injection Hn as <-. repeat split; reflexivity.
Defined.

(** C10.  One call of [updateTrafficLights] moves an instance by at most
    one state: whatever the state and however large [delta], the state
    after the call is the state before it or that state's successor in the
    cycle. *)
Theorem C10_one_transition_per_update :
  forall (lights : list Light) (delta : Q) (i : nat) (l : Light),
    nth_error lights i = Some l ->
    exists l',
      nth_error (updateTrafficLights delta lights) i = Some l' /\
      (state l' = state l \/ state l' = successor (state l)).
Proof.
  intros lights delta i l Hi.
  exists (updateLight delta l). split; [now apply updateLight_at|].
  unfold updateLight. rewrite paint_state. apply advance_one_step.
Qed.

(** A tick longer than the whole cycle still leaves red for green only. *)
Lemma C10_one_transition_per_update_witness :
  exists l',
    nth_error (updateTrafficLights 1000 [createTrafficLight]) 0 = Some l' /\
    (state l' = state createTrafficLight \/
     state l' = successor (state createTrafficLight)) /\
    state l' = GREEN.
Proof.
  destruct (C10_one_transition_per_update [createTrafficLight] 1000 0
              createTrafficLight eq_refl) as (l' & Hn & Hs).
  exists l'. repeat split; [exact Hn|exact Hs|].
  injection Hn as <-. reflexivity.
Defined.

End TrafficLightClaims.

(** ** The HUD clock *)

Module ClockFacts.
Import Clock.

Lemma Qfloor_unique (a : Q) (n : Z) :
  inject_Z n <= a -> a < inject_Z (n + 1) -> Qfloor a = n.
Proof.
  intros Hlo Hhi.
  pose proof (Qfloor_le a) as H1. pose proof (Qlt_floor a) as H2.
  assert (inject_Z (Qfloor a) < inject_Z (n + 1)) as H3
    by (eapply Qle_lt_trans; eassumption).
  assert (inject_Z n < inject_Z (Qfloor a + 1)) as H4
    by (eapply Qle_lt_trans; eassumption).
  rewrite <- Zlt_Qlt in H3, H4. lia.
Qed.

Lemma Qfloor_range (a : Q) (lo hi : Z) :
  inject_Z lo <= a -> a < inject_Z hi -> (lo <= Qfloor a < hi)%Z.
Proof.
  intros Hlo Hhi.
  pose proof (Qfloor_le a) as H1. pose proof (Qlt_floor a) as H2.
  assert (inject_Z lo < inject_Z (Qfloor a + 1)) as H3
    by (eapply Qle_lt_trans; eassumption).
  assert (inject_Z (Qfloor a) < inject_Z hi) as H4
    by (eapply Qle_lt_trans; eassumption).
  rewrite <- Zlt_Qlt in H3, H4. lia.
Qed.

(** Below 100, [toString] padded to two places is the two decimal digits. *)
Lemma padStart_twoDigits (n : Z) :
  (0 <= n < 100)%Z -> padStart 2 "0" (toString n) = twoDigits n.
Proof.
  intros Hn.
  assert (forallb
            (fun k => String.eqb (padStart 2 "0" (toString (Z.of_nat k)))
                        (twoDigits (Z.of_nat k)))
            (seq 0 100) = true) as Hall by (vm_compute; reflexivity).
  rewrite forallb_forall in Hall.
  specialize (Hall (Z.to_nat n)).
  rewrite Z2Nat.id in Hall by lia.
  apply String.eqb_eq, Hall, in_seq. lia.
Qed.

(** The wrapped hour count of the code is [(6 + p * 24) mod 24]. *)
Lemma wrapped_hours (p : Q) :
  0 <= p -> p < 1 ->
  (if Js.geb (6 + p * 24) 24 then 6 + p * 24 - 24 else 6 + p * 24)
  == Qmod (6 + p * 24) 24.
Proof.
  intros H0 H1. unfold Qmod, Js.geb.
  destruct (Qle_bool 24 (6 + p * 24)) eqn:E.
  - apply Qle_bool_iff in E.
    rewrite (Qfloor_unique ((6 + p * 24) / 24) 1).
    + ring.
    + apply Qle_shift_div_l; [reflexivity|]. change (inject_Z 1) with 1. lra.
    + apply Qlt_shift_div_r; [reflexivity|]. change (inject_Z (1 + 1)) with 2. lra.
  - assert (6 + p * 24 < 24) as E'.
    { apply Qnot_le_lt. intros C. apply Qle_bool_iff in C. congruence. }
    rewrite (Qfloor_unique ((6 + p * 24) / 24) 0).
    + ring.
    + apply Qle_shift_div_l; [reflexivity|]. change (inject_Z 0) with 0. lra.
    + apply Qlt_shift_div_r; [reflexivity|]. change (inject_Z (0 + 1)) with 1. lra.
Qed.

Lemma Qmod_24_range (p : Q) :
  0 <= p -> p < 1 -> 0 <= Qmod (6 + p * 24) 24 /\ Qmod (6 + p * 24) 24 < 24.
Proof.
  intros H0 H1. rewrite <- (wrapped_hours p H0 H1). unfold Js.geb.
  destruct (Qle_bool 24 (6 + p * 24)) eqn:E.
  - apply Qle_bool_iff in E. split; lra.
  - assert (6 + p * 24 < 24) as E'.
    { apply Qnot_le_lt. intros C. apply Qle_bool_iff in C. congruence. }
    split; lra.
Qed.

Lemma minutes_range (h : Q) :
  (0 <= Qfloor ((h - inject_Z (Qfloor h)) * 60) < 60)%Z.
Proof.
  pose proof (Qfloor_le h) as H1. pose proof (Qlt_floor h) as H2.
  rewrite inject_Z_plus in H2. change (inject_Z 1) with 1 in H2.
  apply Qfloor_range; [change (inject_Z 0) with 0|change (inject_Z 60) with 60]; lra.
Qed.

Lemma clockText_digits (p : Q) :
  0 <= p -> p < 1 ->
  let h := Qmod (6 + p * 24) 24 in
  let hours := Qfloor h in
  let minutes := Qfloor ((h - inject_Z hours) * 60) in
  (0 <= hours < 24)%Z /\ (0 <= minutes < 60)%Z /\
  clockText p = (twoDigits hours ++ ":" ++ twoDigits minutes)%string.
Proof.
  intros H0 H1 h hours minutes.
  destruct (Qmod_24_range p H0 H1) as [Hlo Hhi]. fold h in Hlo, Hhi.
  assert (0 <= hours < 24)%Z as Hh by (apply Qfloor_range; assumption).
  assert (0 <= minutes < 60)%Z as Hm by apply minutes_range.
  split; [exact Hh|]. split; [exact Hm|].
  unfold clockText, Js.floor.
  pose proof (wrapped_hours p H0 H1) as Hw. fold h in Hw.
  set (t := if Js.geb (6 + p * 24) 24 then 6 + p * 24 - 24 else 6 + p * 24)
    in *.
  assert (Qfloor t = hours) as Eh by (unfold hours; now rewrite Hw).
  rewrite Eh.
  assert (Qfloor ((t - inject_Z hours) * 60) = minutes) as Em
    by (unfold minutes; now rewrite Hw).
  rewrite Em.
  rewrite !padStart_twoDigits by lia. reflexivity.
Qed.

End ClockFacts.

(** C7.  For a phase in [0, 1) the clock text is the hour
    [floor ((6 + phase * 24) mod 24)], a colon and the minute
    [floor (fractional hour * 60)], each written with exactly two decimal
    digits; phases 0, 0.25, 0.5 and 0.75 read 06:00, 12:00, 18:00 and
    00:00, the last one past the wrap at 24 hours. *)
Theorem C7_clock_text :
  forall p : Q,
    0 <= p -> p < 1 ->
    let h := Clock.Qmod (6 + p * 24) 24 in
    let hours := Qfloor h in
    let minutes := Qfloor ((h - inject_Z hours) * 60) in
    ((0 <= hours < 24)%Z /\ (0 <= minutes < 60)%Z /\
     Clock.clockText p
     = (Clock.twoDigits hours ++ ":" ++ Clock.twoDigits minutes)%string) /\
    Clock.clockText 0 = "06:00"%string /\
    Clock.clockText 0.25 = "12:00"%string /\
    Clock.clockText 0.5 = "18:00"%string /\
    Clock.clockText 0.75 = "00:00"%string.
Proof.
  intros p H0 H1 h hours minutes.
  split; [now apply ClockFacts.clockText_digits|].
  repeat split; vm_compute; reflexivity.
Qed.

(** The phase of key 3, 0.48, reads 17:31 on the element. *)
Lemma C7_clock_text_witness :
  Clock.clockText 0.48 = "17:31"%string /\
  Clock.updateGameClock (Some "--:--"%string)
    (Controls.onKeyDown Controls.Digit3 Controls.initial)
  = Some "17:31"%string.
Proof.
  destruct (C7_clock_text 0.48) as [(_ & _ & E) _].
  - discriminate.
  - reflexivity.
  - split; [rewrite E; vm_compute; reflexivity|].
    vm_compute. reflexivity.
Defined.

(** ** Movement *)

Module ControlsFacts.
Import Controls.

Lemma hits_Padded (p : Vector3.t) (b : Collider.t) :
  hits p b = true <-> Padded b p.
Proof.
  unfold hits, Padded.
  rewrite !andb_true_iff, !JsFacts.gtb_gt, !JsFacts.ltb_lt.
  rewrite !Qabs_Qlt_condition. split; intros H; repeat split; lra.
Qed.

Lemma check_Blocked (colliders : list Collider.t) (p : Vector3.t) :
  checkBuildingCollisions colliders p = true <-> Blocked colliders p.
Proof.
  unfold checkBuildingCollisions, Blocked. rewrite existsb_exists.
  split; intros (b & Hin & Hb); exists b; split; auto; now apply hits_Padded.
Qed.

Lemma check_free (colliders : list Collider.t) (p : Vector3.t) :
  checkBuildingCollisions colliders p = false <-> ~ Blocked colliders p.
Proof.
  rewrite <- check_Blocked. destruct (checkBuildingCollisions colliders p);
    split; intros; congruence.
Qed.

Section Attempts.
Variable sqrt : Q -> Q.
Variable colliders : list Collider.t.

Lemma attemptX_blocked (delta : Q) (old : Vector3.t) (s : State) :
  let p := Vector3.addScaledVector (pos s) (right (camera s))
             (- Vector3.x (velocity s) * delta) in
  Blocked colliders p ->
  pos (attemptX colliders delta old s) = Vector3.setX p (Vector3.x old) /\
  velocity (attemptX colliders delta old s) = Vector3.setX (velocity s) 0 /\
  right (camera (attemptX colliders delta old s)) = right (camera s) /\
  up (camera (attemptX colliders delta old s)) = up (camera s).
Proof.
  intros p H. apply check_Blocked in H. unfold attemptX, p, pos in *.
  cbn [setCamera camera plcMoveRight position] in *. rewrite H.
  repeat split; reflexivity.
Qed.

Lemma attemptX_free (delta : Q) (old : Vector3.t) (s : State) :
  let p := Vector3.addScaledVector (pos s) (right (camera s))
             (- Vector3.x (velocity s) * delta) in
  ~ Blocked colliders p ->
  pos (attemptX colliders delta old s) = p /\
  velocity (attemptX colliders delta old s) = velocity s /\
  right (camera (attemptX colliders delta old s)) = right (camera s) /\
  up (camera (attemptX colliders delta old s)) = up (camera s).
Proof.
  intros p H. apply check_free in H. unfold attemptX, p, pos in *.
  cbn [setCamera camera plcMoveRight position] in *. rewrite H.
  repeat split; reflexivity.
Qed.

Lemma attemptZ_blocked (delta : Q) (old : Vector3.t) (s : State) :
  let p := Vector3.addScaledVector (pos s)
             (Vector3.crossVectors (up (camera s)) (right (camera s)))
             (- Vector3.z (velocity s) * delta) in
  Blocked colliders p ->
  pos (attemptZ colliders delta old s) = Vector3.setZ p (Vector3.z old) /\
  velocity (attemptZ colliders delta old s) = Vector3.setZ (velocity s) 0.
Proof.
  intros p H. apply check_Blocked in H. unfold attemptZ, p, pos in *.
  cbn [setCamera camera plcMoveForward position] in *. rewrite H.
  split; reflexivity.
Qed.

Lemma attemptZ_free (delta : Q) (old : Vector3.t) (s : State) :
  let p := Vector3.addScaledVector (pos s)
             (Vector3.crossVectors (up (camera s)) (right (camera s)))
             (- Vector3.z (velocity s) * delta) in
  ~ Blocked colliders p ->
  pos (attemptZ colliders delta old s) = p /\
  velocity (attemptZ colliders delta old s) = velocity s.
Proof.
  intros p H. apply check_free in H. unfold attemptZ, p, pos in *.
  cbn [setCamera camera plcMoveForward position] in *. rewrite H.
  split; reflexivity.
Qed.

(** The boundary tests. *)
Ltac clamp_case :=
  match goal with
  | |- context [Js.ltb ?a ?b] =>
      destruct (Js.ltb a b) eqn:?E;
      [apply JsFacts.ltb_lt in E|apply JsFacts.ltb_ge in E]
  | |- context [Js.gtb ?a ?b] =>
      destruct (Js.gtb a b) eqn:?E;
      [apply JsFacts.gtb_gt in E|apply JsFacts.gtb_le in E]
  end;
  cbn [pos setVelocity setPosition setCamera camera position velocity
       Vector3.setX Vector3.setZ Vector3.x Vector3.z] in *.

Lemma clampLowX_spec (s : State) :
  (Vector3.x (pos s) < - limit ->
     Vector3.x (pos (clampLowX s)) = - limit /\
     Vector3.x (velocity (clampLowX s)) = 0) /\
  (- limit <= Vector3.x (pos s) -> clampLowX s = s) /\
  - limit <= Vector3.x (pos (clampLowX s)) /\
  Vector3.z (pos (clampLowX s)) = Vector3.z (pos s) /\
  Vector3.z (velocity (clampLowX s)) = Vector3.z (velocity s).
Proof.
  unfold clampLowX. clamp_case; unfold limit in *;
    repeat split; try reflexivity; try lra; intros; lra.
Qed.

Lemma clampHighX_spec (s : State) :
  (limit < Vector3.x (pos s) ->
     Vector3.x (pos (clampHighX s)) = limit /\
     Vector3.x (velocity (clampHighX s)) = 0) /\
  (Vector3.x (pos s) <= limit -> clampHighX s = s) /\
  Vector3.x (pos (clampHighX s)) <= limit /\
  Vector3.z (pos (clampHighX s)) = Vector3.z (pos s) /\
  Vector3.z (velocity (clampHighX s)) = Vector3.z (velocity s).
Proof.
  unfold clampHighX. clamp_case; unfold limit in *;
    repeat split; try reflexivity; try lra; intros; lra.
Qed.

Lemma clampLowZ_spec (s : State) :
  (Vector3.z (pos s) < - limit ->
     Vector3.z (pos (clampLowZ s)) = - limit /\
     Vector3.z (velocity (clampLowZ s)) = 0) /\
  (- limit <= Vector3.z (pos s) -> clampLowZ s = s) /\
  - limit <= Vector3.z (pos (clampLowZ s)) /\
  Vector3.x (pos (clampLowZ s)) = Vector3.x (pos s) /\
  Vector3.x (velocity (clampLowZ s)) = Vector3.x (velocity s).
Proof.
  unfold clampLowZ. clamp_case; unfold limit in *;
    repeat split; try reflexivity; try lra; intros; lra.
Qed.

Lemma clampHighZ_spec (s : State) :
  (limit < Vector3.z (pos s) ->
     Vector3.z (pos (clampHighZ s)) = limit /\
     Vector3.z (velocity (clampHighZ s)) = 0) /\
  (Vector3.z (pos s) <= limit -> clampHighZ s = s) /\
  Vector3.z (pos (clampHighZ s)) <= limit /\
  Vector3.x (pos (clampHighZ s)) = Vector3.x (pos s) /\
  Vector3.x (velocity (clampHighZ s)) = Vector3.x (velocity s).
Proof.
  unfold clampHighZ. clamp_case; unfold limit in *;
    repeat split; try reflexivity; try lra; intros; lra.
Qed.

Lemma clampToCity_InCity (s : State) : InCity (pos (clampToCity s)).
Proof.
  unfold clampToCity, InCity.
  destruct (clampLowX_spec s) as (_ & A2 & A3 & _).
  destruct (clampHighX_spec (clampLowX s)) as (B1 & B2 & B3 & _).
  destruct (clampLowZ_spec (clampHighX (clampLowX s))) as (_ & C2 & C3 & C4 & _).
  destruct (clampHighZ_spec (clampLowZ (clampHighX (clampLowX s))))
    as (D1 & D2 & D3 & D4 & _).
  rewrite D4, C4. split; split.
  - destruct (Qlt_le_dec limit (Vector3.x (pos (clampLowX s)))) as [H|H].
    + destruct (B1 H) as [-> _]. unfold limit. lra.
    + rewrite (B2 H). exact A3.
  - exact B3.
  - destruct (Qlt_le_dec limit
                (Vector3.z (pos (clampLowZ (clampHighX (clampLowX s))))))
      as [H|H].
    + destruct (D1 H) as [-> _]. unfold limit. lra.
    + rewrite (D2 H). exact C3.
  - exact D3.
Qed.


Lemma clampToCity_high_x (s : State) :
  limit < Vector3.x (pos s) ->
  Vector3.x (pos (clampToCity s)) = limit /\
  Vector3.x (velocity (clampToCity s)) = 0.
Proof.
  intros H. unfold clampToCity.
  destruct (clampLowX_spec s) as (_ & A2 & _).
  rewrite A2 by (unfold limit in *; lra).
  destruct (clampHighX_spec s) as (B1 & _). destruct (B1 H) as [P V].
  destruct (clampLowZ_spec (clampHighX s)) as (_ & _ & _ & C4 & C5).
  destruct (clampHighZ_spec (clampLowZ (clampHighX s))) as (_ & _ & _ & D4 & D5).
  rewrite D4, D5, C4, C5. now split.
Qed.

Lemma clampToCity_low_x (s : State) :
  Vector3.x (pos s) < - limit ->
  Vector3.x (pos (clampToCity s)) = - limit /\
  Vector3.x (velocity (clampToCity s)) = 0.
Proof.
  intros H. unfold clampToCity.
  destruct (clampLowX_spec s) as (A1 & _). destruct (A1 H) as [P V].
  destruct (clampHighX_spec (clampLowX s)) as (_ & B2 & _).
  rewrite B2 by (rewrite P; unfold limit; lra).
  destruct (clampLowZ_spec (clampLowX s)) as (_ & _ & _ & C4 & C5).
  destruct (clampHighZ_spec (clampLowZ (clampLowX s))) as (_ & _ & _ & D4 & D5).
  rewrite D4, D5, C4, C5. now split.
Qed.

Lemma clampToCity_high_z (s : State) :
  limit < Vector3.z (pos s) ->
  Vector3.z (pos (clampToCity s)) = limit /\
  Vector3.z (velocity (clampToCity s)) = 0.
Proof.
  intros H. unfold clampToCity.
  destruct (clampLowX_spec s) as (_ & _ & _ & A4 & _).
  destruct (clampHighX_spec (clampLowX s)) as (_ & _ & _ & B4 & _).
  set (t := clampHighX (clampLowX s)) in *.
  assert (limit < Vector3.z (pos t)) as H' by (rewrite B4, A4; exact H).
  destruct (clampLowZ_spec t) as (_ & C2 & _).
  rewrite C2 by (unfold limit in *; lra).
  destruct (clampHighZ_spec t) as (D1 & _). exact (D1 H').
Qed.

Lemma clampToCity_low_z (s : State) :
  Vector3.z (pos s) < - limit ->
  Vector3.z (pos (clampToCity s)) = - limit /\
  Vector3.z (velocity (clampToCity s)) = 0.
Proof.
  intros H. unfold clampToCity.
  destruct (clampLowX_spec s) as (_ & _ & _ & A4 & _).
  destruct (clampHighX_spec (clampLowX s)) as (_ & _ & _ & B4 & _).
  set (t := clampHighX (clampLowX s)) in *.
  assert (Vector3.z (pos t) < - limit) as H' by (rewrite B4, A4; exact H).
  destruct (clampLowZ_spec t) as (C1 & _). destruct (C1 H') as [P V].
  destruct (clampHighZ_spec (clampLowZ t)) as (_ & D2 & _).
  rewrite D2 by (rewrite P; unfold limit; lra). now split.
Qed.

Lemma pinHeight_xz (s : State) :
  Vector3.x (pos (pinHeight s)) = Vector3.x (pos s) /\
  Vector3.z (pos (pinHeight s)) = Vector3.z (pos s) /\
  Vector3.y (pos (pinHeight s)) = 2 /\
  velocity (pinHeight s) = velocity s.
Proof. repeat split; reflexivity. Qed.

Lemma updateMovement_on (delta : Q) (s : State) :
  controls s <> None ->
  updateMovement sqrt colliders delta s
  = clampToCity (pinHeight (attemptMoves sqrt colliders delta s)).
Proof.
  unfold updateMovement. destruct (controls s); [reflexivity|congruence].
Qed.

End Attempts.

End ControlsFacts.

(** A square root that is exact at 0 and 1, the only squared lengths of
    the direction vector when at most one axis is steered. *)
Definition sqrt01 (a : Q) : Q := a.

(** C8.  After a movement update the player is inside the city square
    [-130, 130] on x and on z: always once the controls exist, and from
    any start inside the square whether they exist or not.  A coordinate
    that the attempts left beyond a boundary ends exactly on that boundary
    with the velocity of that axis at 0. *)
Theorem C8_world_boundary :
  forall (sqrt : Q -> Q) (colliders : list Collider.t) (delta : Q)
         (s : Controls.State),
    let target := Controls.attemptMoves sqrt colliders delta s in
    let s' := Controls.updateMovement sqrt colliders delta s in
    (Controls.controls s <> None -> Controls.InCity (Controls.pos s')) /\
    (Controls.InCity (Controls.pos s) -> Controls.InCity (Controls.pos s')) /\
    (Controls.controls s <> None ->
       (Controls.limit < Vector3.x (Controls.pos target) ->
          Vector3.x (Controls.pos s') = Controls.limit /\
          Vector3.x (Controls.velocity s') = 0) /\
       (Vector3.x (Controls.pos target) < - Controls.limit ->
          Vector3.x (Controls.pos s') = - Controls.limit /\
          Vector3.x (Controls.velocity s') = 0) /\
       (Controls.limit < Vector3.z (Controls.pos target) ->
          Vector3.z (Controls.pos s') = Controls.limit /\
          Vector3.z (Controls.velocity s') = 0) /\
       (Vector3.z (Controls.pos target) < - Controls.limit ->
          Vector3.z (Controls.pos s') = - Controls.limit /\
          Vector3.z (Controls.velocity s') = 0)) /\
    Controls.limit = 130.
Proof.
  intros sqrt colliders delta s target s'.
  assert (Controls.controls s <> None ->
          Controls.InCity (Controls.pos s')) as Hon.
  { intros Hc. unfold s'. rewrite ControlsFacts.updateMovement_on by exact Hc.
    apply ControlsFacts.clampToCity_InCity. }
  split; [exact Hon|]. split; [|split; [|reflexivity]].
  - intros Hin. destruct (Controls.controls s) eqn:E.
    + apply Hon. congruence.
    + unfold s', Controls.updateMovement. rewrite E. exact Hin.
  - intros Hc. unfold s'. rewrite ControlsFacts.updateMovement_on by exact Hc.
    fold target. repeat split.
    + now apply ControlsFacts.clampToCity_high_x.
    + now apply ControlsFacts.clampToCity_high_x.
    + now apply ControlsFacts.clampToCity_low_x.
    + now apply ControlsFacts.clampToCity_low_x.
    + now apply ControlsFacts.clampToCity_high_z.
    + now apply ControlsFacts.clampToCity_high_z.
    + now apply ControlsFacts.clampToCity_low_z.
    + now apply ControlsFacts.clampToCity_low_z.
Qed.

(** A player at x = 100 coasting so fast that one frame of 0.05 s would
    carry it to x = 180 = limit + 50: it ends at x = 130 with no x
    velocity. *)
Definition speeding : Controls.State :=
  Controls.setVelocity
    (Controls.setPosition (Controls.initControls Controls.initial)
       (Vector3.mk 100 2 0))
    (Vector3.mk (-3200) 0 0).

Lemma C8_world_boundary_witness :
  Vector3.x (Controls.pos (Controls.attemptMoves sqrt01 [] 0.05 speeding))
  == Controls.limit + 50 /\
  Vector3.x (Controls.pos (Controls.updateMovement sqrt01 [] 0.05 speeding))
  = Controls.limit /\
  Vector3.x (Controls.velocity (Controls.updateMovement sqrt01 [] 0.05 speeding))
  = 0 /\
  Controls.InCity (Controls.pos (Controls.updateMovement sqrt01 [] 0.05 speeding)).
Proof.
  destruct (C8_world_boundary sqrt01 [] 0.05 speeding) as (Hin & _ & Hclamp & _).
  assert (Controls.controls speeding <> None) as Hc by discriminate.
  destruct (Hclamp Hc) as (Hx & _).
  split; [vm_compute; reflexivity|].
  split; [apply Hx; vm_compute; reflexivity|].
  split; [apply Hx; vm_compute; reflexivity|].
  exact (Hin Hc).
Defined.

(** A wall 4 wide centred at x = 10, so grown to x in (7, 13).  The player
    of [besideWall] stands at x = 6.9 with an axis-aligned camera, holding
    D while drifting forward.  The player of [facingWall] stands at the
    same place with the camera turned a quarter turn, looking along the
    world x axis at the wall, holding W. *)
Definition wall : Collider.t := Collider.mk 10 0 4 100.

Definition besideWall : Controls.State :=
  Controls.onKeyDown Controls.KeyD
    (Controls.setVelocity
       (Controls.setPosition (Controls.initControls Controls.initial)
          (Vector3.mk 6.9 2 0))
       (Vector3.mk 0 0 (-40))).

Definition facingWall : Controls.State :=
  Controls.onKeyDown Controls.KeyW
    (Controls.setCamera (Controls.initControls Controls.initial)
       (Controls.mkCamera (Vector3.mk 6.9 2 0) (Vector3.mk 0 0 1)
          (Vector3.mk 0 1 0))).

Section CollisionClaim.
Import Controls ControlsFacts.

(** A movement update resolves the two attempts one after the other.  The
    X displacement is applied and the whole collider list is tested, every
    collider grown by the player radius 1.0 on both axes; on overlap only
    the x coordinate goes back to its value before the move and the x
    velocity becomes 0.  The Z displacement is then applied and tested in
    the same way.  With the camera axis-aligned the displacements are
    along the world axes, and a player whose X move runs into a wall keeps
    its x, loses its x velocity and still makes its unobstructed Z move. *)
Lemma axis_separated_attempts :
  forall (sqrt : Q -> Q) (colliders : list Collider.t) (delta : Q) (s : State),
    let s1 := applyInput sqrt delta (applyFriction delta s) in
    let old := pos s1 in
    let px := targetX sqrt delta s in
    let sx := attemptX colliders delta old s1 in
    let pz := Vector3.addScaledVector (pos sx)
                (Vector3.crossVectors (up (camera s)) (right (camera s)))
                (- Vector3.z (velocity s1) * delta) in
    let sz := attemptMoves sqrt colliders delta s in
    (forall p, checkBuildingCollisions colliders p = true <->
       exists b, In b colliders /\
         Qabs (Vector3.x p - Collider.x b) < Collider.width b / 2 + 1 /\
         Qabs (Vector3.z p - Collider.z b) < Collider.depth b / 2 + 1) /\
    (Blocked colliders px ->
       pos sx = Vector3.setX px (Vector3.x old) /\
       velocity sx = Vector3.setX (velocity s1) 0) /\
    (~ Blocked colliders px -> pos sx = px /\ velocity sx = velocity s1) /\
    (Blocked colliders pz ->
       pos sz = Vector3.setZ pz (Vector3.z old) /\
       velocity sz = Vector3.setZ (velocity sx) 0) /\
    (~ Blocked colliders pz -> pos sz = pz /\ velocity sz = velocity sx) /\
    (controls s <> None ->
       updateMovement sqrt colliders delta s = clampToCity (pinHeight sz)) /\
    (right (camera s) = Vector3.mk 1 0 0 -> up (camera s) = Vector3.mk 0 1 0 ->
     Blocked colliders px -> ~ Blocked colliders pz ->
       Vector3.x (pos sz) == Vector3.x old /\
       Vector3.x (velocity sz) = 0 /\
       Vector3.z (pos sz) == Vector3.z old + Vector3.z (velocity s1) * delta /\
       Vector3.z (velocity sz) = Vector3.z (velocity s1)).
Proof.
  intros sqrt colliders delta s s1 old px sx pz sz.
  assert (Hx1 : Blocked colliders px ->
                pos sx = Vector3.setX px (Vector3.x old) /\
                velocity sx = Vector3.setX (velocity s1) 0 /\
                right (camera sx) = right (camera s) /\
                up (camera sx) = up (camera s))
    by (intros H; apply (attemptX_blocked colliders delta old s1 H)).
  assert (Hx2 : ~ Blocked colliders px ->
                pos sx = px /\ velocity sx = velocity s1 /\
                right (camera sx) = right (camera s) /\
                up (camera sx) = up (camera s))
    by (intros H; apply (attemptX_free colliders delta old s1 H)).
  assert (Hcam : right (camera sx) = right (camera s) /\
                 up (camera sx) = up (camera s) /\
                 Vector3.z (velocity sx) = Vector3.z (velocity s1)).
  { destruct (checkBuildingCollisions colliders px) eqn:E.
    - apply check_Blocked in E. destruct (Hx1 E) as (_ & V & R & U).
      rewrite V. auto.
    - apply check_free in E. destruct (Hx2 E) as (_ & V & R & U).
      rewrite V. auto. }
  destruct Hcam as (R & U & VZ).
  assert (Hz1 : Blocked colliders pz ->
                pos sz = Vector3.setZ pz (Vector3.z old) /\
                velocity sz = Vector3.setZ (velocity sx) 0).
  { intros H. pose proof (attemptZ_blocked colliders delta old sx) as A.
    cbv zeta in A. rewrite R, U, VZ in A. exact (A H). }
  assert (Hz2 : ~ Blocked colliders pz ->
                pos sz = pz /\ velocity sz = velocity sx).
  { intros H. pose proof (attemptZ_free colliders delta old sx) as A.
    cbv zeta in A. rewrite R, U, VZ in A. exact (A H). }
  split.
  { intros p. rewrite check_Blocked. unfold Blocked, Padded, playerRadius.
    split; intros (b & Hin & H1 & H2); exists b; repeat split; auto; lra. }
  split; [intros H; destruct (Hx1 H) as (P & V & _); now split|].
  split; [intros H; destruct (Hx2 H) as (P & V & _); now split|].
  split; [exact Hz1|]. split; [exact Hz2|].
  split; [apply updateMovement_on|].
  intros Er Eu Bx Fz.
  destruct (Hx1 Bx) as (P & V & _). destruct (Hz2 Fz) as (P' & V').
  rewrite P', V', V. unfold pz. rewrite P, Er, Eu.
  cbn [Vector3.addScaledVector Vector3.crossVectors Vector3.setX Vector3.x
       Vector3.y Vector3.z].
  assert (Vector3.z px == Vector3.z old) as Zx.
  { unfold px, targetX. fold s1. fold old.
    change (right (camera s1)) with (right (camera s)). rewrite Er.
    cbn [Vector3.addScaledVector Vector3.z]. ring. }
  repeat split; try reflexivity; try ring.
  rewrite Zx. ring.
Qed.

End CollisionClaim.

(** ** Day and night *)

Module LightingFacts.
Import Lighting.

Lemma gtb_true (a b : R) : gtb a b = true <-> (a > b)%R.
Proof.
  unfold gtb. destruct (Rgt_dec a b); split; intros; auto; discriminate.
Qed.

Lemma gtb_false (a b : R) : gtb a b = false <-> (a <= b)%R.
Proof.
  unfold gtb. destruct (Rgt_dec a b); split; intros; auto;
    try discriminate; Lra.lra.
Qed.

(** [a % 1] for [a >= 0] is the fractional part. *)
Lemma trunc_nonneg (a : Q) : 0 <= a -> Js.trunc a = Qfloor a.
Proof.
  destruct a as [n d]. unfold Qle, Js.trunc, Qfloor. simpl. intros H.
  apply Z.quot_div_nonneg; lia.
Qed.

Lemma rem1_nonneg (a : Q) :
  0 <= a ->
  Js.rem1 a = a - inject_Z (Qfloor a) /\ 0 <= Js.rem1 a /\ Js.rem1 a < 1.
Proof.
  intros H. unfold Js.rem1. rewrite (trunc_nonneg a H).
  pose proof (Qfloor_le a) as H1. pose proof (Qlt_floor a) as H2.
  rewrite inject_Z_plus in H2. change (inject_Z 1) with 1 in H2.
  repeat split; lra.
Qed.

Lemma updateDayNight_on (delta : Q) (c : Controls.State) (l : State) :
  hemiLight l <> None -> sunLight l <> None ->
  updateDayNight delta c l
  = (tick delta c, render (Q2R (Controls.timeOfDay (tick delta c))) l).
Proof.
  unfold updateDayNight.
  destruct (hemiLight l), (sunLight l); congruence.
Qed.

Lemma sunY_0 : sunY 0 = 0%R.
Proof.
  unfold sunY, angle. rewrite !Rmult_0_l, sin_0. apply Rmult_0_l.
Qed.

Lemma sunY_half : sunY 0.5 = 0%R.
Proof.
  unfold sunY, angle. replace (0.5 * PI * 2)%R with PI by Lra.lra.
  rewrite sin_PI. apply Rmult_0_l.
Qed.

Lemma sunHeight_midnight : sunHeight (Q2R 0.75) = (-1)%R.
Proof.
  unfold sunHeight, angle.
  replace (Q2R 0.75 * PI * 2)%R with (3 * (PI / 2))%R
    by (unfold Q2R; simpl; Lra.lra).
  apply sin_3PI2.
Qed.

End LightingFacts.

(** Lights created, sun and moon in the sky, one lamp, auto cycle on. *)
Definition litWorld : Lighting.State :=
  Lighting.mkState (Some 0.7%R)
    (Some (Lighting.mkDirectionalLight
             (Lighting.mkVector3R 50 60 (-30)) 1.0%R))
    (Some (Lighting.mkMesh (Lighting.mkVector3R 0 0 0) true))
    (Some (Lighting.mkMesh (Lighting.mkVector3R 0 0 0) true))
    [Lighting.createStreetLamp].

Definition autoFrom (phase : Q) : Controls.State :=
  Controls.setTimeOfDay
    (Controls.onKeyDown Controls.KeyN (Controls.initControls Controls.initial))
    phase.

(** C5, as the code has it.  In auto mode a tick moves the phase to
    [(phase + delta * cycleSpeed) % 1], the fractional part for the
    non-negative values that occur.  The constant is 0.001388, a little
    under 1/720: a real second is 1.99872 simulated minutes, and a day of
    1440 minutes takes [1 / cycleSpeed] real seconds, between 720 and
    721. *)
Theorem C5_cycle_speed :
  forall (delta : Q) (c : Controls.State) (l : Lighting.State),
    Lighting.hemiLight l <> None -> Lighting.sunLight l <> None ->
    Controls.dayNightAuto c = true ->
    let a := Controls.timeOfDay c + delta * Lighting.cycleSpeed in
    Controls.timeOfDay (fst (Lighting.updateDayNight delta c l)) = Js.rem1 a /\
    (0 <= a ->
       Js.rem1 a = a - inject_Z (Qfloor a) /\ 0 <= Js.rem1 a /\ Js.rem1 a < 1) /\
    Lighting.cycleSpeed = 0.001388 /\
    1440 * Lighting.cycleSpeed == 1.99872 /\
    720 < 1 / Lighting.cycleSpeed /\ 1 / Lighting.cycleSpeed < 721.
Proof.
  intros delta c l Hh Hs Ha a.
  rewrite LightingFacts.updateDayNight_on by assumption.
  cbn [fst]. unfold Lighting.tick. rewrite Ha.
  split; [reflexivity|]. split; [apply LightingFacts.rem1_nonneg|].
  repeat split.
Qed.

Lemma C5_cycle_speed_witness :
  Controls.timeOfDay (fst (Lighting.updateDayNight 60 (autoFrom 0.25) litWorld))
  == 0.33328.
Proof.
  destruct (C5_cycle_speed 60 (autoFrom 0.25) litWorld) as (E & _);
    [discriminate|discriminate|reflexivity|].
  rewrite E. vm_compute. reflexivity.
Defined.

(** After 720 real seconds of auto cycle from phase 0 the day is not over:
    the phase is 0.99936, and 720 * cycleSpeed is not 1. *)
Lemma C5_cycle_speed_counterexample :
  Controls.timeOfDay (fst (Lighting.updateDayNight 720 (autoFrom 0) litWorld))
  == 0.99936 /\
  720 * Lighting.cycleSpeed < 1 /\
  1440 * Lighting.cycleSpeed < 2.
Proof.
  rewrite LightingFacts.updateDayNight_on by discriminate.
  repeat split.
Qed.

Section CelestialClaims.
Import Lighting LightingFacts.
Local Open Scope R_scope.

Lemma visibility_flags :
  forall phase : R,
    sunY phase = sin (2 * PI * phase) * 150 /\
    (sunVisible phase = true <-> sunY phase > -10) /\
    (moonVisible phase = true <-> sunY phase < 10) /\
    (sunVisible phase = true \/ moonVisible phase = true) /\
    (moonVisible phase = negb (sunVisible phase) <-> 10 <= Rabs (sunY phase)) /\
    (sunVisible phase = true /\ moonVisible phase = true
       <-> Rabs (sunY phase) < 10).
Proof.
  intros phase.
  assert (sunY phase = sin (2 * PI * phase) * 150) as E.
  { unfold sunY, angle, orbitRadius. f_equal. f_equal. Lra.lra. }
  split; [exact E|]. clear E.
  unfold sunVisible, moonVisible. set (y := sunY phase).
  assert (Hs : gtb y (-10) = true <-> y > -10) by apply gtb_true.
  assert (Hm : gtb (- y) (-10) = true <-> y < 10).
  { rewrite gtb_true. split; intros; Lra.lra. }
  split; [exact Hs|]. split; [exact Hm|].
  assert (Ha : Rabs y < 10 <-> -10 < y /\ y < 10).
  { split.
    - intros H. apply Rabs_def2 in H. Lra.lra.
    - intros [H1 H2]. apply Rabs_def1; Lra.lra. }
  destruct (gtb y (-10)) eqn:Es, (gtb (- y) (-10)) eqn:Em; cbn [negb].
  - assert (y > -10) by (now apply Hs). assert (y < 10) by (now apply Hm).
    split; [auto|]. split; split; intros; auto; try discriminate.
    + exfalso. assert (Rabs y < 10) by (apply Ha; Lra.lra). Lra.lra.
    + apply Ha. Lra.lra.
  - assert (y > -10) by (now apply Hs).
    assert (~ y < 10) by (intros C; apply Hm in C; discriminate).
    split; [auto|]. split; split; intros; auto.
    + apply Rnot_lt_le. intros C. apply Ha in C. Lra.lra.
    + destruct H1. discriminate.
    + apply Ha in H1. Lra.lra.
  - assert (~ y > -10) by (intros C; apply Hs in C; discriminate).
    assert (y < 10) by (now apply Hm).
    split; [auto|]. split; split; intros; auto.
    + apply Rnot_lt_le. intros C. apply Ha in C. Lra.lra.
    + destruct H1. discriminate.
    + apply Ha in H1. Lra.lra.
  - exfalso.
    assert (~ y > -10) by (intros C; apply Hs in C; discriminate).
    assert (~ y < 10) by (intros C; apply Hm in C; discriminate).
    Lra.lra.
Qed.

Lemma render_meshes (delta : Q) (c : Controls.State) (l : State)
    (sm mm : Mesh) :
  hemiLight l <> None -> sunLight l <> None ->
  sunMesh l = Some sm -> moonMesh l = Some mm ->
  let phase := Q2R (Controls.timeOfDay (fst (updateDayNight delta c l))) in
  let l' := snd (updateDayNight delta c l) in
  sunMesh l'
  = Some (mkMesh (mkVector3R (sunX phase) (sunY phase) (sunZ)) (sunVisible phase)) /\
  moonMesh l'
  = Some (mkMesh (mkVector3R (- sunX phase) (- sunY phase) (- sunZ))
            (moonVisible phase)).
Proof.
  intros Hh Hs Esm Emm phase l'. subst l' phase.
  rewrite updateDayNight_on by assumption. cbn [fst snd render sunMesh moonMesh].
  rewrite Esm, Emm. split; reflexivity.
Qed.

(** C1, as the code has it.  The sun is visible exactly when
    [sunY > -10] and the moon exactly when [sunY < 10], where
    [sunY = sin (2 pi phase) * 150].  At least one of them is visible at
    every phase; the moon flag is the negation of the sun flag exactly
    when [|sunY| >= 10]; in the band [|sunY| < 10] both are visible. *)
Theorem C1_sun_moon_visibility :
  (forall phase : R,
     sunY phase = sin (2 * PI * phase) * 150 /\
     (sunVisible phase = true <-> sunY phase > -10) /\
     (moonVisible phase = true <-> sunY phase < 10) /\
     (sunVisible phase = true \/ moonVisible phase = true) /\
     (moonVisible phase = negb (sunVisible phase)
        <-> 10 <= Rabs (sunY phase)) /\
     (sunVisible phase = true /\ moonVisible phase = true
        <-> Rabs (sunY phase) < 10)) /\
  (forall (delta : Q) (c : Controls.State) (l : State) (sm mm : Mesh),
     hemiLight l <> None -> sunLight l <> None ->
     sunMesh l = Some sm -> moonMesh l = Some mm ->
     let phase := Q2R (Controls.timeOfDay (fst (updateDayNight delta c l))) in
     let l' := snd (updateDayNight delta c l) in
     sunMesh l'
     = Some (mkMesh (mkVector3R (sunX phase) (sunY phase) sunZ)
               (sunVisible phase)) /\
     moonMesh l'
     = Some (mkMesh (mkVector3R (- sunX phase) (- sunY phase) (- sunZ))
               (moonVisible phase))).
Proof.
  split; [exact visibility_flags|exact render_meshes].
Qed.

(** Midnight, key 4: [sunY = -150], the sun is hidden and the moon shows. *)
Lemma C1_sun_moon_visibility_witness :
  exists sun moon,
    sunMesh (snd (updateDayNight 0.016
                    (Controls.onKeyDown Controls.Digit4
                       (Controls.initControls Controls.initial))
                    litWorld)) = Some sun /\
    moonMesh (snd (updateDayNight 0.016
                     (Controls.onKeyDown Controls.Digit4
                        (Controls.initControls Controls.initial))
                     litWorld)) = Some moon /\
    visible sun = false /\ visible moon = true.
Proof.
  destruct C1_sun_moon_visibility as [Hflags Hrender].
  destruct (Hrender 0.016%Q
              (Controls.onKeyDown Controls.Digit4
                 (Controls.initControls Controls.initial))
              litWorld
              (mkMesh (mkVector3R 0 0 0) true) (mkMesh (mkVector3R 0 0 0) true))
    as [Es Em]; [discriminate|discriminate|reflexivity|reflexivity|].
  cbv zeta in Es, Em.
  eexists. eexists. split; [exact Es|]. split; [exact Em|].
  cbn [visible].
  assert (Q2R (Controls.timeOfDay
                 (fst (updateDayNight 0.016
                         (Controls.onKeyDown Controls.Digit4
                            (Controls.initControls Controls.initial))
                         litWorld))) = Q2R 0.75) as Ephase
    by (rewrite updateDayNight_on by discriminate; reflexivity).
  rewrite Ephase.
  assert (sunY (Q2R 0.75) = -150) as Y.
  { unfold sunY. change (sin (angle (Q2R 0.75))) with (sunHeight (Q2R 0.75)).
    rewrite sunHeight_midnight. unfold orbitRadius. Lra.lra. }
  destruct (Hflags (Q2R 0.75)) as (_ & Hs & Hm & _).
  split.
  - destruct (sunVisible (Q2R 0.75)); [|reflexivity].
    assert (sunY (Q2R 0.75) > -10) by (now apply Hs). Lra.lra.
  - apply Hm. Lra.lra.
Defined.

(** At phase 0 (and at 0.5) the sun sits on the horizon line, [sunY = 0]:
    both flags are true, so the moon flag is not the negation of the sun
    flag. *)
Lemma C1_sun_moon_visibility_counterexample :
  sunVisible 0 = true /\ moonVisible 0 = true /\
  moonVisible 0 <> negb (sunVisible 0) /\
  sunVisible 0.5 = true /\ moonVisible 0.5 = true.
Proof.
  unfold sunVisible, moonVisible. rewrite sunY_0, sunY_half.
  assert (gtb 0 (-10) = true) as E1 by (apply gtb_true; Lra.lra).
  assert (gtb (- 0) (-10) = true) as E2 by (apply gtb_true; Lra.lra).
  rewrite E1, E2. repeat split. discriminate.
Qed.

(** C6.  With [dayFactor = max 0 (sin (2 pi phase))] and
    [nightFactor = 1 - dayFactor], an update gives every street lamp the
    point-light intensity [3.0 * max 0 (nightFactor - 0.2)], which is 0
    up to [nightFactor = 0.2] and linear above; the bulb glow is 2.0 when
    that intensity exceeds 0.1 and 0 otherwise. *)
Theorem C6_street_lamps :
  forall (delta : Q) (c : Controls.State) (l : State) (i : nat) (lamp : Lamp),
    hemiLight l <> None -> sunLight l <> None ->
    nth_error (streetLamps l) i = Some lamp ->
    let phase := Q2R (Controls.timeOfDay (fst (updateDayNight delta c l))) in
    let nf := nightFactor phase in
    exists lamp',
      nth_error (streetLamps (snd (updateDayNight delta c l))) i = Some lamp' /\
      dayFactor phase = Rmax 0 (sin (2 * PI * phase)) /\
      nf = 1 - dayFactor phase /\
      intensity lamp' = 3.0 * Rmax 0 (nf - 0.2) /\
      (nf <= 0.2 -> intensity lamp' = 0) /\
      (0.2 < nf -> intensity lamp' = 3.0 * (nf - 0.2)) /\
      (intensity lamp' > 0.1 -> emissiveIntensity lamp' = 2.0) /\
      (intensity lamp' <= 0.1 -> emissiveIntensity lamp' = 0).
Proof.
  intros delta c l i lamp Hh Hs Hi phase nf.
  subst nf phase. rewrite updateDayNight_on by assumption.
  cbn [fst snd]. set (p := Q2R (Controls.timeOfDay (tick delta c))).
  exists (updateLamp p lamp). split.
  { cbn [render streetLamps]. rewrite nth_error_map, Hi. reflexivity. }
  split.
  { unfold dayFactor, sunHeight, angle. f_equal. f_equal. Lra.lra. }
  split; [reflexivity|]. split; [reflexivity|].
  cbn [updateLamp intensity emissiveIntensity].
  repeat split.
  - intros H. rewrite Rmax_left by Lra.lra. Lra.lra.
  - intros H. rewrite Rmax_right by Lra.lra. reflexivity.
  - intros H. apply gtb_true in H. rewrite H. reflexivity.
  - intros H. apply gtb_false in H. rewrite H. reflexivity.
Qed.

(** Midnight, key 4: the night factor is 1, the lamp is at 2.4 and its
    bulb glows. *)
Lemma C6_street_lamps_witness :
  exists lamp',
    nth_error
      (streetLamps
         (snd (updateDayNight 0.016
                 (Controls.onKeyDown Controls.Digit4
                    (Controls.initControls Controls.initial))
                 litWorld))) 0
    = Some lamp' /\
    intensity lamp' = 2.4 /\ emissiveIntensity lamp' = 2.0.
Proof.
  destruct (C6_street_lamps 0.016
              (Controls.onKeyDown Controls.Digit4
                 (Controls.initControls Controls.initial))
              litWorld 0%nat createStreetLamp)
    as (lamp' & Hn & _ & Hnf & Hi & _ & _ & Hglow & _);
    [discriminate|discriminate|reflexivity|].
  exists lamp'. split; [exact Hn|].
  rewrite updateDayNight_on in Hnf, Hi by discriminate.
  cbn [fst tick Controls.onKeyDown Controls.dayNightAuto
       Controls.setTimeOfDay Controls.setDayNightAuto Controls.timeOfDay]
    in Hnf, Hi.
  assert (nightFactor (Q2R 0.75) = 1) as E.
  { rewrite Hnf. unfold dayFactor. rewrite sunHeight_midnight.
    rewrite Rmax_left by Lra.lra. Lra.lra. }
  rewrite E in Hi.
  assert (intensity lamp' = 2.4) as E'.
  { rewrite Hi. rewrite Rmax_right by Lra.lra. Lra.lra. }
  split; [exact E'|]. apply Hglow. rewrite E'. Lra.lra.
Defined.

End CelestialClaims.

(** ** The collider registry *)

Module BuildingsFacts.
Import Buildings.

Definition centre (c : Config) : Q * Q := (x c, z c).

Definition colliderCentre (c : Collider.t) : Q * Q :=
  (Collider.x c, Collider.z c).

(** The cells that get a generated building, in generation order. *)
Definition freeCells : list (Q * Q) :=
  flat_map
    (fun gx =>
       flat_map (fun gz => if isOccupied gx gz then [] else [(gx, gz)])
         gridRange)
    gridRange.

(** Every centre of the registry, in registration order. *)
Definition allCentres : list (Q * Q) :=
  freeCells ++ map centre skyscrapers ++ [(0, -40)].

Definition farApart (a b : Q * Q) : bool :=
  Qle_bool 40 (Qabs (fst a - fst b)) || Qle_bool 40 (Qabs (snd a - snd b)).

Fixpoint pairwiseFar (l : list (Q * Q)) : bool :=
  match l with
  | [] => true
  | a :: rest => forallb (farApart a) rest && pairwiseFar rest
  end.

Definition Sized (lo hi : Q) (c : Collider.t) : Prop :=
  (lo <= Collider.width c /\ Collider.width c <= hi) /\
  (lo <= Collider.depth c /\ Collider.depth c <= hi).

Section Generated.
Variable random : nat -> Q.
Hypothesis random_unit : forall n, 0 <= random n /\ random n < 1.

Lemma forEachGen_centres {A : Type} (f : A -> Gen (list Config))
    (g : A -> list (Q * Q)) (cells : list A) :
  (forall c n, map centre (fst (f c n)) = g c) ->
  forall n, map centre (fst (forEachGen f cells n)) = flat_map g cells.
Proof.
  intros Hf. induction cells as [|c rest IH]; intros n; [reflexivity|].
  cbn [forEachGen flat_map]. unfold bind, ret.
  specialize (Hf c n). destruct (f c n) as [out n1].
  specialize (IH n1). destruct (forEachGen f rest n1) as [outs n2].
  cbn [fst] in *. rewrite map_app. congruence.
Qed.

Lemma forEachGen_Forall {A : Type} (P : Config -> Prop)
    (f : A -> Gen (list Config)) (cells : list A) :
  (forall c n, Forall P (fst (f c n))) ->
  forall n, Forall P (fst (forEachGen f cells n)).
Proof.
  intros Hf. induction cells as [|c rest IH]; intros n; [constructor|].
  cbn [forEachGen]. unfold bind, ret.
  specialize (Hf c n). destruct (f c n) as [out n1].
  specialize (IH n1). destruct (forEachGen f rest n1) as [outs n2].
  cbn [fst] in *. apply Forall_app. now split.
Qed.

Lemma generateCell_centres (gx gz : Q) (n : nat) :
  map centre (fst (generateCell random gx gz n))
  = if isOccupied gx gz then [] else [(gx, gz)].
Proof.
  unfold generateCell. destruct (isOccupied gx gz); reflexivity.
Qed.

Lemma generateCell_sized (gx gz : Q) (n : nat) :
  Forall (fun c => Sized 12 14 (colliderOf c))
    (fst (generateCell random gx gz n)).
Proof.
  unfold generateCell. destruct (isOccupied gx gz); [constructor|].
  unfold bind, mathRandom, ret. cbn [fst].
  constructor; [|constructor].
  unfold Sized. cbn [colliderOf Collider.width Collider.depth width depth].
  pose proof (random_unit (S (S n))) as [? ?].
  pose proof (random_unit (S (S (S n)))) as [? ?].
  repeat split; lra.
Qed.

Lemma generated_centres :
  map centre (generatedBuildings random) = freeCells.
Proof.
  unfold generatedBuildings, generate, freeCells.
  apply forEachGen_centres. intros gx n.
  apply forEachGen_centres. intros gz m. apply generateCell_centres.
Qed.

Lemma generated_sized :
  Forall (fun c => Sized 12 14 (colliderOf c)) (generatedBuildings random).
Proof.
  unfold generatedBuildings, generate.
  apply forEachGen_Forall. intros gx n.
  apply forEachGen_Forall. intros gz m. apply generateCell_sized.
Qed.

Lemma createBuildings_centres :
  map colliderCentre (createBuildings random [])
  = freeCells ++ map centre skyscrapers.
Proof.
  unfold createBuildings, roadsideBuildings, mediumBuildings.
  cbn [map app]. rewrite map_app, !map_map.
  change (fun c => colliderCentre (colliderOf c)) with centre.
  now rewrite generated_centres.
Qed.

Lemma initWorld_centres :
  map colliderCentre (initWorld random) = allCentres.
Proof.
  unfold initWorld, allCentres. rewrite map_app, createBuildings_centres.
  rewrite <- app_assoc. reflexivity.
Qed.

Lemma createBuildings_sized :
  Forall (Sized 12 14) (createBuildings random []).
Proof.
  unfold createBuildings, roadsideBuildings, mediumBuildings.
  cbn [map app]. apply Forall_app. split.
  - rewrite Forall_map. apply generated_sized.
  - repeat constructor; cbn; lra.
Qed.

Lemma initWorld_sized : Forall (Sized 12 20) (initWorld random).
Proof.
  unfold initWorld. apply Forall_app. split.
  - eapply Forall_impl; [|apply createBuildings_sized].
    intros c [[? ?] [? ?]]. repeat split; lra.
  - repeat constructor; cbn; lra.
Qed.

End Generated.

Lemma pairwiseFar_nth (l : list (Q * Q)) :
  pairwiseFar l = true ->
  forall i j a b, (i < j)%nat ->
    nth_error l i = Some a -> nth_error l j = Some b -> farApart a b = true.
Proof.
  induction l as [|c rest IH]; intros H i j a b Hij Ha Hb.
  - destruct i; discriminate.
  - cbn [pairwiseFar] in H. apply andb_true_iff in H as [H1 H2].
    destruct j as [|j]; [lia|]. cbn [nth_error] in Hb.
    destruct i as [|i]; cbn [nth_error] in Ha.
    + injection Ha as <-. rewrite forallb_forall in H1.
      apply H1. eapply nth_error_In; eassumption.
    + apply (IH H2 i j); auto. lia.
Qed.

Lemma Qabs_ge (c d : Q) : c <= Qabs d -> c <= d \/ c <= - d.
Proof.
  apply Qabs_case; intros; [left|right]; assumption.
Qed.

Lemma farApart_no_overlap (a b : Collider.t) :
  Sized 12 20 a -> Sized 12 20 b ->
  farApart (colliderCentre a) (colliderCentre b) = true -> ~ Overlap a b.
Proof.
  intros [[? ?] [? ?]] [[? ?] [? ?]] F [O1 O2].
  unfold farApart, colliderCentre in F. cbn [fst snd] in F.
  apply Qabs_Qlt_condition in O1, O2.
  apply orb_true_iff in F as [F|F]; apply Qle_bool_iff, Qabs_ge in F;
    destruct F; JsFacts.halves; lra.
Qed.

Lemma Overlap_sym (a b : Collider.t) : Overlap a b -> Overlap b a.
Proof.
  unfold Overlap. rewrite !Qabs_Qlt_condition. intros [H1 H2].
  JsFacts.halves. repeat split; lra.
Qed.

Lemma allCentres_far : pairwiseFar allCentres = true.
Proof. vm_compute. reflexivity. Qed.

(** The loop over the road lines runs while [i <= 100]: it visits these
    six values and stops at 140. *)
Lemma roadLines_loop :
  roadLines = [-100; -60; -20; 20; 60; 100] /\
  Forall (fun i => i <= 100) roadLines /\
  100 < 100 + gridSpacing.
Proof.
  split; [reflexivity|]. split; [|reflexivity].
  repeat constructor; discriminate.
Qed.

Lemma grid_road_gap (g i : Q) :
  In g gridRange -> In i roadLines -> 20 <= Qabs (g - i).
Proof.
  assert (forallb (fun g => forallb (fun i => Qle_bool 20 (Qabs (g - i)))
                              roadLines) gridRange = true) as H
    by (vm_compute; reflexivity).
  rewrite forallb_forall in H. intros Hg Hi. specialize (H g Hg).
  rewrite forallb_forall in H. apply Qle_bool_iff. now apply H.
Qed.

Lemma allCentres_on_grid (p : Q * Q) :
  In p allCentres -> In (fst p) gridRange /\ In (snd p) gridRange.
Proof.
  intros H. unfold allCentres, freeCells, skyscrapers, gridRange in H.
  cbn in H.
  repeat (destruct H as [<-|H]; [cbn; split; tauto|]). destruct H.
Qed.

(** Away from a grid centre by at most 7, a point is at least 13 from
    every road line. *)
Lemma clear_of_roads (g half p i : Q) :
  In g gridRange -> In i roadLines -> half <= 7 ->
  Qabs (p - g) <= half -> ~ Qabs (p - i) < roadWidth / 2 + margin.
Proof.
  intros Hg Hi Hh Hp C. pose proof (grid_road_gap g i Hg Hi) as G.
  unfold roadWidth, margin in C.
  apply Qabs_Qle_condition in Hp. apply Qabs_Qlt_condition in C.
  apply Qabs_ge in G. JsFacts.halves. destruct G; lra.
Qed.

End BuildingsFacts.

Section RegistryClaim.
Import Buildings BuildingsFacts.

Lemma registry_entry (random : nat -> Q) (i : nat) (a : Collider.t) :
  nth_error (initWorld random) i = Some a ->
  nth_error allCentres i = Some (colliderCentre a).
Proof.
  intros H. rewrite <- (initWorld_centres random), nth_error_map, H.
  reflexivity.
Qed.

Lemma built_clear_of_roads (random : nat -> Q) (c : Collider.t) :
  (forall n, 0 <= random n /\ random n < 1) ->
  In c (createBuildings random []) -> ~ NearRoadLine c.
Proof.
  intros Hr Hc (px & pz & i & [Ix Iz] & Hi & Hnear).
  pose proof (createBuildings_sized random Hr) as S.
  rewrite Forall_forall in S. destruct (S c Hc) as [[_ Sw] [_ Sd]].
  assert (In (colliderCentre c) allCentres) as Hcen.
  { unfold allCentres. rewrite app_assoc. apply in_or_app. left.
    rewrite <- (createBuildings_centres random). now apply in_map. }
  apply allCentres_on_grid in Hcen as [Gx Gz]. cbn [colliderCentre fst snd] in *.
  destruct Hnear as [N|N].
  - revert N. apply (clear_of_roads (Collider.x c) (Collider.width c / 2));
      auto. JsFacts.halves. lra.
  - revert N. apply (clear_of_roads (Collider.z c) (Collider.depth c / 2));
      auto. JsFacts.halves. lra.
Qed.

(** C9, as the code has it.  Whatever the random draws, no two colliders
    of the registry left by [initWorld] overlap, and no collider that
    [createBuildings] registered has a point within road half-width plus
    margin of a road line (-100, -60, -20, 20, 60, 100 on either axis).
    The registry is those colliders followed by the school's. *)
Theorem C9_collider_registry :
  forall random : nat -> Q,
    (forall n, 0 <= random n /\ random n < 1) ->
    let registry := initWorld random in
    (forall i j a b, i <> j ->
       nth_error registry i = Some a -> nth_error registry j = Some b ->
       ~ Overlap a b) /\
    registry = createBuildings random [] ++ [schoolCollider] /\
    (forall c, In c (createBuildings random []) -> ~ NearRoadLine c) /\
    roadLines = [-100; -60; -20; 20; 60; 100] /\
    roadWidth / 2 + margin == 11.
Proof.
  intros random Hr registry. split; [|split; [reflexivity|split]].
  - assert (forall i j a b, (i < j)%nat ->
              nth_error registry i = Some a -> nth_error registry j = Some b ->
              ~ Overlap a b) as Hlt.
    { intros i j a b Hij Ha Hb.
      pose proof (initWorld_sized random Hr) as S. rewrite Forall_forall in S.
      apply farApart_no_overlap.
      - apply S. eapply nth_error_In; eassumption.
      - apply S. eapply nth_error_In; eassumption.
      - apply (pairwiseFar_nth allCentres allCentres_far i j); auto;
          now apply (registry_entry random). }
    intros i j a b Hij Ha Hb.
    destruct (Nat.lt_total i j) as [L|[E|L]]; [|contradiction|].
    + now apply (Hlt i j).
    + intros O. apply Overlap_sym in O. revert O. now apply (Hlt j i).
  - intros c. now apply built_clear_of_roads.
  - split; reflexivity.
Qed.

End RegistryClaim.

(** A random source that cycles through 0, 0.1, ..., 0.9. *)
Definition cycling (n : nat) : Q := inject_Z (Z.of_nat (n mod 10)) / 10.

Lemma cycling_unit (n : nat) : 0 <= cycling n /\ cycling n < 1.
Proof.
  unfold cycling. pose proof (Nat.mod_upper_bound n 10 ltac:(lia)) as H.
  split.
  - apply Qle_shift_div_l; [reflexivity|]. rewrite Qmult_0_l.
    change 0 with (inject_Z 0). rewrite <- Zle_Qle. lia.
  - apply Qlt_shift_div_r; [reflexivity|]. rewrite Qmult_1_l.
    change 10 with (inject_Z 10). rewrite <- Zlt_Qlt. lia.
Qed.

Lemma C9_collider_registry_witness :
  List.length (Buildings.initWorld cycling) = 48%nat /\
  (forall i j a b, i <> j ->
     nth_error (Buildings.initWorld cycling) i = Some a ->
     nth_error (Buildings.initWorld cycling) j = Some b ->
     ~ Buildings.Overlap a b) /\
  (forall c, In c (Buildings.createBuildings cycling []) ->
     ~ Buildings.NearRoadLine c).
Proof.
  destruct (C9_collider_registry cycling cycling_unit) as (H1 & _ & H2 & _).
  split; [vm_compute; reflexivity|]. split; assumption.
Defined.

(** The school collider, 20 wide at x = 0, is registered and holds the
    point (9.5, -40), which is 10.5 from the road line x = 20 and for
    which [isTooCloseToRoad] answers true.  The building generated at the
    centre cell holds its own centre (0, 0), which [isTooCloseToRoad]
    rejects as well. *)
Lemma C9_collider_registry_counterexample :
  In Buildings.schoolCollider (Buildings.initWorld cycling) /\
  Buildings.Inside Buildings.schoolCollider 9.5 (-40) /\
  In 20 Buildings.roadLines /\
  Qabs (9.5 - 20) < Buildings.roadWidth / 2 + Buildings.margin /\
  Buildings.isTooCloseToRoad 9.5 (-40) = true /\
  Buildings.InRoadBuffer Buildings.schoolCollider /\
  (exists c, nth_error (Buildings.initWorld cycling) 19 = Some c /\
     Collider.x c = 0 /\ Collider.z c = 0 /\
     Buildings.Inside c 0 0 /\ Buildings.isTooCloseToRoad 0 0 = true).
Proof.
  assert (Buildings.Inside Buildings.schoolCollider 9.5 (-40)) as I
    by (split; vm_compute; discriminate).
  split; [apply in_or_app; right; left; reflexivity|].
  split; [exact I|].
  split; [vm_compute; tauto|].
  split; [vm_compute; reflexivity|].
  split; [vm_compute; reflexivity|].
  split; [exists 9.5, (-40); split; [exact I|vm_compute; reflexivity]|].
  eexists. split; [vm_compute; reflexivity|].
  repeat split; vm_compute; try reflexivity; discriminate.
Qed.

(** The player in front of the school of the generated city, at
    (-11.1, 2, -40), just outside the school's collider grown by the
    player radius (x from -11 to 11).  [facingSchool] has turned a quarter
    turn to look along the world x axis at the school and holds W;
    [besideSchool] has the camera as created and holds D.  Either way the
    player is moving towards +x, into the school. *)
Definition facingSchool : Controls.State :=
  Controls.onKeyDown Controls.KeyW
    (Controls.setCamera (Controls.initControls Controls.initial)
       (Controls.mkCamera (Vector3.mk (-11.1) 2 (-40)) (Vector3.mk 0 0 1)
          (Vector3.mk 0 1 0))).

Definition besideSchool : Controls.State :=
  Controls.onKeyDown Controls.KeyD
    (Controls.setPosition (Controls.initControls Controls.initial)
       (Vector3.mk (-11.1) 2 (-40))).

(** C3.  The code misses the claim once the camera is turned.  In the
    generated city the player of [facingSchool] walks forward into the
    school: the move is made by [moveForward] along the world x axis, the
    test after it finds the overlap, but the code restores only z and
    zeroes only the z velocity, so the player ends the frame at
    x = -10.9, inside the school's collider grown by the player radius,
    and goes 0.2 further in every frame.  The player of [besideSchool],
    camera axis-aligned, is stopped as the claim says: x stays at -11.1
    and the x velocity is 0.  The same with a single wall: the player of
    [facingWall] ends the first frame at x = 7.1 inside the grown wall and
    after 31 frames stands at x = 13.1 on its far side, while the player
    of [besideWall] keeps x = 6.9 with x velocity 0 and still makes its Z
    move. *)
Theorem C3_axis_separated_collision :
  (In Buildings.schoolCollider (Buildings.initWorld cycling) /\
   Controls.checkBuildingCollisions (Buildings.initWorld cycling)
     (Controls.pos facingSchool) = false /\
   Controls.checkBuildingCollisions (Buildings.initWorld cycling)
     (Controls.targetZ sqrt01 0.05 facingSchool) = true /\
   Vector3.x (Controls.pos (Controls.updateMovement sqrt01
                              (Buildings.initWorld cycling) 0.05 facingSchool))
   == -10.9 /\
   Vector3.z (Controls.velocity (Controls.updateMovement sqrt01
                                   (Buildings.initWorld cycling) 0.05 facingSchool))
   = 0 /\
   Controls.checkBuildingCollisions (Buildings.initWorld cycling)
     (Controls.pos (Controls.updateMovement sqrt01
                      (Buildings.initWorld cycling) 0.05 facingSchool))
   = true /\
   Vector3.x (Controls.pos (Controls.run sqrt01 (Buildings.initWorld cycling)
                              (repeat 0.05 3) facingSchool))
   == -10.5) /\
  (Controls.checkBuildingCollisions (Buildings.initWorld cycling)
     (Controls.targetX sqrt01 0.05 besideSchool) = true /\
   Vector3.x (Controls.pos (Controls.updateMovement sqrt01
                              (Buildings.initWorld cycling) 0.05 besideSchool))
   == -11.1 /\
   Vector3.x (Controls.velocity (Controls.updateMovement sqrt01
                                   (Buildings.initWorld cycling) 0.05 besideSchool))
   = 0 /\
   Controls.checkBuildingCollisions (Buildings.initWorld cycling)
     (Controls.pos (Controls.updateMovement sqrt01
                      (Buildings.initWorld cycling) 0.05 besideSchool))
   = false) /\
  (Controls.checkBuildingCollisions [wall] (Controls.pos facingWall) = false /\
   Controls.checkBuildingCollisions [wall]
     (Controls.targetZ sqrt01 0.05 facingWall) = true /\
   Vector3.x (Controls.pos (Controls.updateMovement sqrt01 [wall] 0.05 facingWall))
   == 7.1 /\
   Vector3.z (Controls.velocity
                (Controls.updateMovement sqrt01 [wall] 0.05 facingWall)) = 0 /\
   Controls.checkBuildingCollisions [wall]
     (Controls.pos (Controls.updateMovement sqrt01 [wall] 0.05 facingWall))
   = true /\
   Vector3.x (Controls.pos
                (Controls.run sqrt01 [wall] (repeat 0.05 31) facingWall))
   == 13.1) /\
  (Controls.checkBuildingCollisions [wall]
     (Controls.targetX sqrt01 0.05 besideWall) = true /\
   Vector3.x (Controls.pos (Controls.updateMovement sqrt01 [wall] 0.05 besideWall))
   == 6.9 /\
   Vector3.x (Controls.velocity
                (Controls.updateMovement sqrt01 [wall] 0.05 besideWall)) = 0 /\
   Vector3.z (Controls.pos (Controls.updateMovement sqrt01 [wall] 0.05 besideWall))
   == -1).
Proof.
  split; [split|].
  { unfold Buildings.initWorld. apply in_or_app. right. left. reflexivity. }
  all: repeat match goal with |- _ /\ _ => split end; vm_compute; reflexivity.
Qed.


(** ** Coasting *)

Module CoastingFacts.
Import Controls ControlsFacts.

(** What a frame never writes: the controls handle, the key flags and the
    orientation of the camera. *)
Definition inputs (s : State)
    : option PointerLock * (bool * bool * bool * bool * bool)
      * (Vector3.t * Vector3.t) :=
  (controls s,
   (moveForward s, moveBackward s, moveLeft s, moveRight s, sprint s),
   (right (camera s), up (camera s))).


Section Coast.
Variable sqrt : Q -> Q.
Variable colliders : list Collider.t.

Lemma attemptX_inputs (delta : Q) (old : Vector3.t) (s : State) :
  inputs (attemptX colliders delta old s) = inputs s.
Proof.
  unfold attemptX. destruct (checkBuildingCollisions _ _); reflexivity.
Qed.

Lemma attemptZ_inputs (delta : Q) (old : Vector3.t) (s : State) :
  inputs (attemptZ colliders delta old s) = inputs s.
Proof.
  unfold attemptZ. destruct (checkBuildingCollisions _ _); reflexivity.
Qed.

Lemma clampToCity_inputs (s : State) : inputs (clampToCity s) = inputs s.
Proof.
  unfold clampToCity.
  transitivity (inputs (clampLowZ (clampHighX (clampLowX s))));
    [unfold clampHighZ; destruct (Js.gtb _ _); reflexivity|].
  transitivity (inputs (clampHighX (clampLowX s)));
    [unfold clampLowZ; destruct (Js.ltb _ _); reflexivity|].
  transitivity (inputs (clampLowX s));
    [unfold clampHighX; destruct (Js.gtb _ _); reflexivity|].
  unfold clampLowX; destruct (Js.ltb _ _); reflexivity.
Qed.

Lemma updateMovement_inputs (delta : Q) (s : State) :
  inputs (updateMovement sqrt colliders delta s) = inputs s.
Proof.
  unfold updateMovement. destruct (controls s) eqn:E; [|reflexivity].
  rewrite clampToCity_inputs.
  change (inputs (pinHeight ?t)) with (inputs t).
  unfold attemptMoves. rewrite attemptZ_inputs, attemptX_inputs. reflexivity.
Qed.






End Coast.








End CoastingFacts.

Module DecayFacts.
Import Controls ControlsFacts CoastingFacts.

(** What the attempts and the boundary tests do to the horizontal
    velocity: each component is kept or set to 0. *)
Definition KeptOrZero (v w : Vector3.t) : Prop :=
  (Vector3.x w = Vector3.x v \/ Vector3.x w = 0) /\
  (Vector3.z w = Vector3.z v \/ Vector3.z w = 0).

Lemma KeptOrZero_refl (v : Vector3.t) : KeptOrZero v v.
Proof. split; left; reflexivity. Qed.





Section Frames.
Variable sqrt : Q -> Q.
Variable colliders : list Collider.t.









End Frames.

End DecayFacts.

Section FrictionClaim.
Import Controls ControlsFacts CoastingFacts DecayFacts.


End FrictionClaim.




(** ** Sun, sky and clouds *)

Module SkyFacts.
Import Lighting LightingFacts.

Section Reals.
Local Open Scope R_scope.

Lemma sunHeight_bounds (p : R) : -1 <= sunHeight p <= 1.
Proof. unfold sunHeight. apply SIN_bound. Qed.

Lemma dayFactor_bounds (p : R) : 0 <= dayFactor p <= 1.
Proof.
  unfold dayFactor. pose proof (sunHeight_bounds p) as [H1 H2].
  unfold Rmax. destruct (Rle_dec 0 (sunHeight p)); Lra.lra.
Qed.

Lemma dayFactor_night (p : R) : sunHeight p <= 0 -> dayFactor p = 0.
Proof.
  intros H. unfold dayFactor, Rmax.
  destruct (Rle_dec 0 (sunHeight p)); Lra.lra.
Qed.

Lemma dayFactor_day (p : R) : 0 <= sunHeight p -> dayFactor p = sunHeight p.
Proof.
  intros H. unfold dayFactor, Rmax.
  destruct (Rle_dec 0 (sunHeight p)); Lra.lra.
Qed.

Lemma orbit (p : R) : sunX p * sunX p + sunY p * sunY p = 150 * 150.
Proof.
  unfold sunX, sunY, orbitRadius.
  pose proof (sin2_cos2 (angle p)) as H. unfold Rsqr in H.
  replace (cos (angle p) * 150 * (cos (angle p) * 150)
           + sin (angle p) * 150 * (sin (angle p) * 150))
    with ((sin (angle p) * sin (angle p) + cos (angle p) * cos (angle p))
          * (150 * 150)) by ring.
  rewrite H. ring.
Qed.

Lemma sunHeight_noon : sunHeight (Q2R 0.25) = 1.
Proof.
  unfold sunHeight, angle.
  replace (Q2R 0.25 * PI * 2) with (PI / 2) by (unfold Q2R; simpl; Lra.lra).
  apply sin_PI2.
Qed.

Lemma lamp_intensity (p : R) (lamp : Lamp) :
  intensity (updateLamp p lamp) = 3.0 * Rmax 0 (0.8 - dayFactor p).
Proof.
  cbn [updateLamp intensity]. unfold nightFactor. f_equal. f_equal. Lra.lra.
Qed.

End Reals.

End SkyFacts.

Section CelestialExtras.
Import Lighting LightingFacts SkyFacts.
Local Open Scope R_scope.

(** X1.  After an update the sun mesh lies on the circle of radius 150
    around (0, 0, -30) in the plane z = -30, the moon mesh is its mirror
    image through the world origin, and the directional light stands
    above the sun's x and z at a height that never drops below 10. *)
Theorem X1_sun_on_orbit :
  forall (delta : Q) (c : Controls.State) (l : State)
         (light : DirectionalLight) (sun moon : Mesh),
    hemiLight l <> None -> sunLight l = Some light ->
    sunMesh l = Some sun -> moonMesh l = Some moon ->
    exists light' sun' moon',
      sunLight (snd (updateDayNight delta c l)) = Some light' /\
      sunMesh (snd (updateDayNight delta c l)) = Some sun' /\
      moonMesh (snd (updateDayNight delta c l)) = Some moon' /\
      x (position sun') * x (position sun')
      + y (position sun') * y (position sun') = 150 * 150 /\
      z (position sun') = -30 /\
      x (position moon') = - x (position sun') /\
      y (position moon') = - y (position sun') /\
      z (position moon') = - z (position sun') /\
      x (lightPosition light') = x (position sun') /\
      z (lightPosition light') = z (position sun') /\
      10 <= y (lightPosition light') <= 150 /\
      y (position sun') <= y (lightPosition light').
Proof.
  intros delta c l light sun moon Hh Hl Hs Hm.
  rewrite updateDayNight_on by congruence.
  set (p := Q2R (Controls.timeOfDay (tick delta c))).
  cbn [snd render sunLight sunMesh moonMesh]. rewrite Hl, Hs, Hm.
  cbn [option_map]. do 3 eexists.
  split; [reflexivity|]. split; [reflexivity|]. split; [reflexivity|].
  cbn [position lightPosition x y z].
  split; [apply orbit|]. split; [reflexivity|].
  repeat (split; [reflexivity|]).
  pose proof (sunHeight_bounds p) as [B1 B2].
  assert (sunY p = sunHeight p * 150) as E by reflexivity.
  unfold Rmax. destruct (Rle_dec 10 (sunY p)); repeat split; Lra.lra.
Qed.

Lemma X1_sun_on_orbit_witness :
  exists light' sun',
    sunLight (snd (updateDayNight 0.016 (autoFrom 0.25) litWorld))
    = Some light' /\
    sunMesh (snd (updateDayNight 0.016 (autoFrom 0.25) litWorld))
    = Some sun' /\
    10 <= y (lightPosition light') <= 150 /\
    z (position sun') = -30.
Proof.
  destruct (X1_sun_on_orbit 0.016%Q (autoFrom 0.25) litWorld
              (mkDirectionalLight (mkVector3R 50 60 (-30)) 1.0)
              (mkMesh (mkVector3R 0 0 0) true)
              (mkMesh (mkVector3R 0 0 0) true))
    as (light' & sun' & moon' & Hl & Hs & _ & _ & Hz & _ & _ & _ & _ & _ & Hy & _);
    [discriminate|reflexivity|reflexivity|reflexivity|].
  exists light', sun'. repeat split; assumption || apply Hy.
Defined.

(** X2.  After an update the directional light has intensity
    [1.3 * dayFactor], between 0 and 1.3, and the hemisphere light
    [0.4 + 0.6 * dayFactor], between 0.4 and 1; while the sun is not above
    the horizon ([sin (2 pi phase) <= 0], the whole night half of the
    cycle) they sit at exactly 0 and 0.4. *)
Theorem X2_light_levels :
  forall (delta : Q) (c : Controls.State) (l : State)
         (hemi : R) (light : DirectionalLight),
    hemiLight l = Some hemi -> sunLight l = Some light ->
    let p := Q2R (Controls.timeOfDay (fst (updateDayNight delta c l))) in
    exists hemi' light',
      hemiLight (snd (updateDayNight delta c l)) = Some hemi' /\
      sunLight (snd (updateDayNight delta c l)) = Some light' /\
      0 <= lightIntensity light' <= 1.3 /\
      0.4 <= hemi' <= 1 /\
      hemi' = 0.4 + 0.6 / 1.3 * lightIntensity light' /\
      (sin (2 * PI * p) <= 0 -> lightIntensity light' = 0 /\ hemi' = 0.4) /\
      (0 <= sin (2 * PI * p) ->
         lightIntensity light' = 1.3 * sin (2 * PI * p)).
Proof.
  intros delta c l hemi light Hh Hl p. subst p.
  rewrite updateDayNight_on by congruence. cbn [fst snd].
  set (p := Q2R (Controls.timeOfDay (tick delta c))).
  cbn [render sunLight hemiLight]. rewrite Hh, Hl.
  cbn [option_map]. do 2 eexists.
  split; [reflexivity|]. split; [reflexivity|].
  cbn [lightIntensity].
  pose proof (dayFactor_bounds p) as [B1 B2].
  assert (sin (2 * PI * p) = sunHeight p) as E
    by (unfold sunHeight, angle; f_equal; Lra.lra).
  rewrite E.
  split; [Lra.lra|]. split; [Lra.lra|]. split; [Lra.lra|]. split.
  - intros H. rewrite (dayFactor_night p H). split; Lra.lra.
  - intros H. rewrite (dayFactor_day p H). reflexivity.
Qed.

Lemma X2_light_levels_witness :
  exists hemi' light',
    hemiLight (snd (updateDayNight 0.016
                      (Controls.onKeyDown Controls.Digit4
                         (Controls.initControls Controls.initial))
                      litWorld)) = Some hemi' /\
    sunLight (snd (updateDayNight 0.016
                     (Controls.onKeyDown Controls.Digit4
                        (Controls.initControls Controls.initial))
                     litWorld)) = Some light' /\
    lightIntensity light' = 0 /\ hemi' = 0.4.
Proof.
  destruct (X2_light_levels 0.016%Q
              (Controls.onKeyDown Controls.Digit4
                 (Controls.initControls Controls.initial))
              litWorld 0.7 (mkDirectionalLight (mkVector3R 50 60 (-30)) 1.0))
    as (hemi' & light' & Hh & Hl & _ & _ & _ & Hnight & _);
    [reflexivity|reflexivity|].
  exists hemi', light'. split; [exact Hh|]. split; [exact Hl|].
  apply Hnight.
  assert (Q2R (Controls.timeOfDay
                 (fst (updateDayNight 0.016
                         (Controls.onKeyDown Controls.Digit4
                            (Controls.initControls Controls.initial))
                         litWorld))) = Q2R 0.75) as Ephase
    by (rewrite updateDayNight_on by discriminate; reflexivity).
  rewrite Ephase.
  replace (2 * PI * Q2R 0.75) with (3 * (PI / 2))
    by (unfold Q2R; simpl; Lra.lra).
  rewrite sin_3PI2. Lra.lra.
Defined.

(** X3.  A street lamp's point light is off exactly while
    [dayFactor >= 0.8], never exceeds 2.4, and is at 2.4 whenever the sun
    is not above the horizon.  The bulb glows exactly while
    [dayFactor < 23/30]: in the band [23/30 <= dayFactor < 0.8] the point
    light already shines (at most 0.1) while the bulb is still dark. *)
Theorem X3_lamp_thresholds :
  forall (p : R) (lamp : Lamp),
    let lamp' := updateLamp p lamp in
    0 <= intensity lamp' <= 2.4 /\
    (intensity lamp' = 0 <-> 0.8 <= dayFactor p) /\
    (sunHeight p <= 0 -> intensity lamp' = 2.4) /\
    (emissiveIntensity lamp' = 2.0 <-> dayFactor p < 23 / 30) /\
    (emissiveIntensity lamp' = 0 <-> 23 / 30 <= dayFactor p) /\
    (23 / 30 <= dayFactor p -> dayFactor p < 0.8 ->
       0 < intensity lamp' <= 0.1 /\ emissiveIntensity lamp' = 0).
Proof.
  intros p lamp lamp'.
  pose proof (dayFactor_bounds p) as [B1 B2].
  pose proof (lamp_intensity p lamp) as E. fold lamp' in E.
  assert (Hi : intensity lamp' = 0 /\ 0.8 <= dayFactor p \/
               intensity lamp' = 3.0 * (0.8 - dayFactor p) /\
               dayFactor p < 0.8).
  { rewrite E. unfold Rmax.
    destruct (Rle_dec 0.8 (dayFactor p)); [left|right];
      destruct (Rle_dec 0 (0.8 - dayFactor p)); split; Lra.lra. }
  assert (Hg : emissiveIntensity lamp'
               = if gtb (intensity lamp') 0.1 then 2.0 else 0)
    by reflexivity.
  assert (Hgt : gtb (intensity lamp') 0.1 = true <-> dayFactor p < 23 / 30).
  { rewrite gtb_true. destruct Hi as [[I D]|[I D]]; rewrite I;
      split; intros; Lra.lra. }
  split; [destruct Hi as [[I D]|[I D]]; rewrite I; Lra.lra|].
  split; [destruct Hi as [[I D]|[I D]]; rewrite I; split; intros; Lra.lra|].
  split.
  { intros H. rewrite (dayFactor_night p H) in Hi.
    destruct Hi as [[I D]|[I D]]; Lra.lra. }
  rewrite Hg. destruct (gtb (intensity lamp') 0.1) eqn:G.
  - assert (dayFactor p < 23 / 30) by (now apply Hgt).
    repeat split; intros; try Lra.lra.
  - assert (~ dayFactor p < 23 / 30)
      by (intros C; apply Hgt in C; discriminate).
    repeat split; intros; Lra.lra.
Qed.

End CelestialExtras.

Section SkyExtras.
Import Lighting LightingFacts SkyFacts Sky.
Local Open Scope R_scope.

Lemma lerp_start (c1 c2 : Color) : lerpColors c1 c2 0 = c1.
Proof. destruct c1. unfold lerpColors. cbn. f_equal; Lra.lra. Qed.

Lemma lerp_end (c1 c2 : Color) : lerpColors c1 c2 1 = c2.
Proof. destruct c2. unfold lerpColors. cbn. f_equal; Lra.lra. Qed.

Lemma clamp_unit (a : R) : 0 <= a <= 1 -> Rmax 0 (Rmin 1 a) = a.
Proof.
  intros [H0 H1]. unfold Rmax, Rmin.
  destruct (Rle_dec 1 a); destruct (Rle_dec 0 _); Lra.lra.
Qed.

(** X4.  The sky colour has two regimes.  While [dayFactor > 0.3] it is
    the day colour moved towards the sunset colour by
    [0.4 * (1 - dayFactor) / 0.7], a weight that stays below 0.4; at
    [dayFactor <= 0.3] it is the sunset colour moved towards the night
    colour by [1 - dayFactor / 0.3].  So the sky is the day colour at
    [dayFactor = 1], the night colour at [dayFactor = 0], the sunset
    colour exactly at [dayFactor = 0.3], and just above 0.3 it is still
    less than 40% of the way from day to sunset. *)
Theorem X4_sky_colour_stops :
  forall (dayColor sunsetColor nightColor : Color) (p : R),
    let sky := skyColor dayColor sunsetColor nightColor p in
    (0.3 < dayFactor p ->
       exists a, a = 0.4 * (1 - dayFactor p) / 0.7 /\ 0 <= a < 0.4 /\
                 sky = lerpColors dayColor sunsetColor a) /\
    (dayFactor p <= 0.3 ->
       exists t, t = 1 - dayFactor p / 0.3 /\ 0 <= t <= 1 /\
                 sky = lerpColors sunsetColor nightColor t) /\
    (dayFactor p = 1 -> sky = dayColor) /\
    (dayFactor p = 0.3 -> sky = sunsetColor) /\
    (dayFactor p = 0 -> sky = nightColor).
Proof.
  intros dayColor sunsetColor nightColor p sky.
  pose proof (dayFactor_bounds p) as [B0 B1].
  assert (Hday : 0.3 < dayFactor p ->
                 sky = lerpColors dayColor sunsetColor
                         (0.4 * (1 - dayFactor p) / 0.7)).
  { intros H. unfold sky, skyColor.
    assert (gtb (dayFactor p) 0.3 = true) as -> by (apply gtb_true; Lra.lra).
    f_equal.
    replace ((1 - (dayFactor p - 0.3) / 0.7) * 0.4)
      with (0.4 * (1 - dayFactor p) / 0.7) by Lra.lra.
    apply clamp_unit. Lra.lra. }
  assert (Hdusk : dayFactor p <= 0.3 ->
                  sky = lerpColors sunsetColor nightColor
                          (1 - dayFactor p / 0.3)).
  { intros H. unfold sky, skyColor.
    assert (gtb (dayFactor p) 0.3 = false) as -> by (apply gtb_false; Lra.lra).
    reflexivity. }
  split.
  { intros H. eexists. split; [reflexivity|]. split; [Lra.lra|now apply Hday]. }
  split.
  { intros H. eexists. split; [reflexivity|].
    split; [Lra.lra|now apply Hdusk]. }
  split.
  { intros H. rewrite Hday by Lra.lra. rewrite H.
    replace (0.4 * (1 - 1) / 0.7) with 0 by Lra.lra. apply lerp_start. }
  split.
  { intros H. rewrite Hdusk by Lra.lra. rewrite H.
    replace (1 - 0.3 / 0.3) with 0 by Lra.lra. apply lerp_start. }
  intros H. rewrite Hdusk by Lra.lra. rewrite H.
  replace (1 - 0 / 0.3) with 1 by Lra.lra. apply lerp_end.
Qed.

(** At noon (key 2) the sky is the day colour, at midnight (key 4) the
    night colour; [blue], [orange] and [navy] stand for the three stops. *)
Definition blue : Color := mkColor 0.4 0.8 1.
Definition orange : Color := mkColor 1 0.5 0.3.
Definition navy : Color := mkColor 0 0 0.02.

Lemma X4_sky_colour_stops_witness :
  skyColor blue orange navy (Q2R 0.25) = blue /\
  skyColor blue orange navy (Q2R 0.75) = navy.
Proof.
  destruct (X4_sky_colour_stops blue orange navy (Q2R 0.25))
    as (_ & _ & Hnoon & _).
  destruct (X4_sky_colour_stops blue orange navy (Q2R 0.75))
    as (_ & _ & _ & _ & Hnight).
  split.
  - apply Hnoon. rewrite dayFactor_day; rewrite sunHeight_noon; Lra.lra.
  - apply Hnight. apply dayFactor_night. rewrite sunHeight_midnight. Lra.lra.
Defined.

End SkyExtras.

Module CloudFacts.
Import Sky.

Definition Aloft (c : Cloud) : Prop :=
  (-250 <= x c /\ x c <= 250) /\
  (60 <= y c /\ y c < 100) /\
  (-200 <= z c /\ z c < 200) /\
  (0.5 <= speed c /\ speed c < 2) /\
  (3 <= blobs c <= 7)%Z.

Section Created.
Variable random : nat -> Q.
Hypothesis random_unit : forall n, 0 <= random n /\ random n < 1.

Lemma createCloud_fresh (n : nat) :
  let c := fst (createCloud random n) in
  Aloft c /\ -200 <= x c /\ x c < 200.
Proof.
  unfold createCloud, Buildings.bind, Buildings.mathRandom, Buildings.ret.
  destruct (createBlobs random _ (S n)) as [u n1]. cbn [fst].
  unfold Aloft. cbn [x y z speed blobs].
  pose proof (random_unit n) as [A0 A1].
  pose proof (random_unit n1) as [B0 B1].
  pose proof (random_unit (S n1)) as [C0 C1].
  pose proof (random_unit (S (S n1))) as [D0 D1].
  pose proof (random_unit (S (S (S n1)))) as [E0 E1].
  assert (0 <= Js.floor (random n * 5) < 5)%Z as F.
  { unfold Js.floor. apply ClockFacts.Qfloor_range.
    - change (inject_Z 0) with 0. lra.
    - change (inject_Z 5) with 5. lra. }
  repeat split; try lra; lia.
Qed.

Lemma createCloudsFrom_fresh (k : nat) :
  forall n, Forall Aloft (fst (createCloudsFrom random k n)) /\
            List.length (fst (createCloudsFrom random k n)) = k.
Proof.
  induction k as [|k IH]; intros n; [split; [constructor|reflexivity]|].
  cbn [createCloudsFrom]. unfold Buildings.bind, Buildings.ret.
  pose proof (createCloud_fresh n) as H. cbv zeta in H.
  destruct (createCloud random n) as [c n1]. cbn [fst] in H.
  specialize (IH n1). destruct (createCloudsFrom random k n1) as [cs n2].
  cbn [fst] in *. destruct IH as [IH1 IH2]. split.
  - constructor; [apply H|exact IH1].
  - cbn [List.length]. now rewrite IH2.
Qed.

End Created.

Lemma moveCloud_Aloft (delta : Q) (c : Cloud) :
  0 <= delta -> Aloft c -> Aloft (moveCloud delta c).
Proof.
  intros Hd ((X0 & X1) & Y & Z & (S0 & S1) & B). unfold moveCloud, Aloft.
  cbn [x y z speed blobs].
  assert (0 <= speed c * delta) by nra.
  destruct (Js.gtb (x c + speed c * delta) 250) eqn:E;
    [apply JsFacts.gtb_gt in E|apply JsFacts.gtb_le in E];
    repeat split; try tauto; try lra; lia.
Qed.

Lemma drift_Aloft (deltas : list Q) :
  Forall (fun d => 0 <= d) deltas ->
  forall cs, Forall Aloft cs ->
    exists cs', drift deltas (Some cs) = Some cs' /\
                Forall Aloft cs' /\ List.length cs' = List.length cs.
Proof.
  induction 1 as [|d rest Hd _ IH]; intros cs Hcs.
  - exists cs. repeat split; auto.
  - cbn [drift updateClouds option_map].
    destruct (IH (map (moveCloud d) cs)) as (cs' & E & A & L).
    + rewrite Forall_map. eapply Forall_impl; [|exact Hcs].
      intros c. now apply moveCloud_Aloft.
    + exists cs'. rewrite length_map in L. repeat split; auto.
Qed.

End CloudFacts.

(** X5.  [createClouds] makes 15 clouds, each of 3 to 7 blobs, with x and
    z in [-200, 200), height in [60, 100) and a speed in [0.5, 2).  Under
    any run of frames with non-negative [delta] every cloud keeps its
    height, depth and speed and its x stays within [-250, 250]: a cloud
    moves by [speed * delta] and is put back at -250 as soon as that would
    take it beyond 250. *)
Theorem X5_clouds_stay_aloft :
  forall (random : nat -> Q) (n : nat) (deltas : list Q),
    (forall k, 0 <= random k /\ random k < 1) ->
    Forall (fun d => 0 <= d) deltas ->
    exists clouds,
      Sky.drift deltas (Some (Sky.createClouds random n)) = Some clouds /\
      List.length clouds = 15%nat /\
      Forall CloudFacts.Aloft clouds /\
      Forall (fun c => -200 <= Sky.x c /\ Sky.x c < 200)
        (Sky.createClouds random n) /\
      (forall delta c,
         Sky.x (Sky.moveCloud delta c)
         = (if Js.gtb (Sky.x c + Sky.speed c * delta) 250 then -250
            else Sky.x c + Sky.speed c * delta) /\
         Sky.y (Sky.moveCloud delta c) = Sky.y c /\
         Sky.z (Sky.moveCloud delta c) = Sky.z c /\
         Sky.speed (Sky.moveCloud delta c) = Sky.speed c).
Proof.
  intros random n deltas Hr Hd.
  destruct (CloudFacts.createCloudsFrom_fresh random Hr Sky.cloudCount n)
    as [A L].
  destruct (CloudFacts.drift_Aloft deltas Hd (Sky.createClouds random n) A)
    as (cs & E & A' & L').
  exists cs. split; [exact E|]. split; [rewrite L'; exact L|].
  split; [exact A'|]. split; [|intros; repeat split].
  unfold Sky.createClouds.
  assert (forall k m, Forall (fun c => -200 <= Sky.x c /\ Sky.x c < 200)
                        (fst (Sky.createCloudsFrom random k m))) as F.
  { induction k as [|k IH]; intros m; [constructor|].
    cbn [Sky.createCloudsFrom]. unfold Buildings.bind, Buildings.ret.
    pose proof (CloudFacts.createCloud_fresh random Hr m) as H.
    cbv zeta in H. destruct (Sky.createCloud random m) as [c n1].
    specialize (IH n1). destruct (Sky.createCloudsFrom random k n1).
    cbn [fst] in *. constructor; tauto. }
  apply F.
Qed.

(** Sixty frames of half a second with the cycling random source: all 15
    clouds are still between -250 and 250. *)
Lemma X5_clouds_stay_aloft_witness :
  exists clouds,
    Sky.drift (repeat 0.5 60) (Some (Sky.createClouds cycling 0)) = Some clouds /\
    List.length clouds = 15%nat /\
    Forall CloudFacts.Aloft clouds.
Proof.
  destruct (X5_clouds_stay_aloft cycling 0 (repeat 0.5 60) cycling_unit)
    as (cs & E & L & A & _).
  - apply Forall_forall. intros d Hd. apply repeat_spec in Hd. subst d.
    discriminate.
  - exists cs. repeat split; assumption.
Defined.

Module JunctionFacts.
Import TrafficLights TrafficLightsFacts Junctions.

(** A light as a driver sees it: in one of the three states, its timer
    within the duration of that state, and exactly the lamp of that state
    lit. *)
Definition Showing (l : Light) : Prop :=
  (state l = RED /\ 0 <= timer l /\ timer l <= redTime /\
   red l = 0xff0000%Z /\ yellow l = 0%Z /\ green l = 0%Z) \/
  (state l = GREEN /\ 0 <= timer l /\ timer l <= greenTime /\
   red l = 0%Z /\ yellow l = 0%Z /\ green l = 0x00ff00%Z) \/
  (state l = YELLOW /\ 0 <= timer l /\ timer l <= yellowTime /\
   red l = 0%Z /\ yellow l = 0xffcc00%Z /\ green l = 0%Z).

(** What the invariant needs of a light before its first update. *)
Definition Cycling (l : Light) : Prop :=
  (state l = RED \/ state l = GREEN \/ state l = YELLOW) /\ 0 <= timer l.

Lemma Showing_Cycling (l : Light) : Showing l -> Cycling l.
Proof. unfold Showing, Cycling. intuition. Qed.

Lemma updateLight_Showing (delta : Q) (l : Light) :
  0 <= delta -> Cycling l -> Showing (updateLight delta l).
Proof.
  intros Hd [Hs Ht]. unfold Showing, updateLight, paint, advance.
  unfold RED, GREEN, YELLOW, redTime, greenTime, yellowTime in *.
  destruct Hs as [E|[E|E]]; rewrite E; cbn [Z.eqb andb Pos.eqb];
    match goal with |- context [Js.gtb ?a ?b] =>
      destruct (Js.gtb a b) eqn:G;
      [apply JsFacts.gtb_gt in G|apply JsFacts.gtb_le in G] end;
    cbn [state timer red yellow green Z.eqb Pos.eqb];
    [right; left|left|right; right|right; left|left|right; right];
    repeat split; try reflexivity; try lra; try exact E.
Qed.

Lemma runLights_Showing (deltas : list Q) :
  Forall (fun d => 0 <= d) deltas ->
  forall lights, Forall Cycling lights -> deltas <> [] ->
    Forall Showing (runLights deltas lights).
Proof.
  induction 1 as [|d rest Hd Hrest IH]; intros lights Hl Hne; [congruence|].
  cbn [runLights].
  assert (Forall Showing (updateTrafficLights d lights)) as H1.
  { unfold updateTrafficLights. rewrite Forall_map.
    eapply Forall_impl; [|exact Hl]. intros l. now apply updateLight_Showing. }
  destruct rest as [|d' rest']; [exact H1|].
  apply IH; [|discriminate].
  eapply Forall_impl; [|exact H1]. apply Showing_Cycling.
Qed.

Lemma runLights_length (deltas : list Q) :
  forall lights, List.length (runLights deltas lights) = List.length lights.
Proof.
  induction deltas as [|d rest IH]; intros lights; [reflexivity|].
  cbn [runLights]. rewrite IH. unfold updateTrafficLights.
  apply length_map.
Qed.

Lemma runLights_repeat (deltas : list Q) :
  forall (l : Light) (n : nat),
    exists l', runLights deltas (repeat l n) = repeat l' n.
Proof.
  induction deltas as [|d rest IH]; intros l n; [now exists l|].
  cbn [runLights]. unfold updateTrafficLights. rewrite map_repeat.
  apply IH.
Qed.

End JunctionFacts.

(** X6.  From the lights [initLighting] creates, after any run of one or
    more frames with non-negative [delta], every traffic light is in one
    of the three states, its timer lies between 0 and the duration of
    that state, and exactly the lamp of that state is lit (red ff0000,
    green 00ff00, yellow ffcc00), the other two black. *)
Theorem X6_traffic_lights_showing :
  forall deltas : list Q,
    Forall (fun d => 0 <= d) deltas -> deltas <> [] ->
    List.length (Junctions.runLights deltas Junctions.initTrafficLights)
    = 5%nat /\
    Forall JunctionFacts.Showing
      (Junctions.runLights deltas Junctions.initTrafficLights).
Proof.
  intros deltas Hd Hne. split.
  - now rewrite JunctionFacts.runLights_length.
  - apply JunctionFacts.runLights_Showing; auto.
    repeat constructor; cbn; auto; discriminate.
Qed.

Lemma X6_traffic_lights_showing_witness :
  Forall JunctionFacts.Showing
    (Junctions.runLights [3; 3; 0.5] Junctions.initTrafficLights) /\
  map TrafficLights.state
    (Junctions.runLights [3; 3; 0.5] Junctions.initTrafficLights)
  = [1; 1; 1; 1; 1]%Z.
Proof.
  destruct (X6_traffic_lights_showing [3; 3; 0.5]) as [_ H].
  - repeat constructor; discriminate.
  - discriminate.
  - split; [exact H|]. vm_compute. reflexivity.
Defined.

(** X7.  The five traffic lights run in lockstep: they are created equal
    and every frame applies the same step to each, so after any run of
    frames all five are the same light (same state, timer and lamps). *)
Theorem X7_traffic_lights_lockstep :
  forall deltas : list Q,
    exists l,
      Junctions.runLights deltas Junctions.initTrafficLights = repeat l 5.
Proof.
  intros deltas.
  apply (JunctionFacts.runLights_repeat deltas TrafficLights.createTrafficLight 5).
Qed.

(** ** Keys, frames and walls *)

Module MovementFacts.
Import Controls ControlsFacts CoastingFacts.

(** What a frame of movement leaves alone besides [inputs]: the clock and
    the vertical velocity. *)
Definition untouched (s : State) : Q * bool * Q :=
  (timeOfDay s, dayNightAuto s, Vector3.y (velocity s)).

Section Frame.
Variable sqrt : Q -> Q.
Variable colliders : list Collider.t.

Lemma applyInput_untouched (delta : Q) (s : State) :
  untouched (applyInput sqrt delta (applyFriction delta s)) = untouched s.
Proof.
  unfold applyInput, applyFriction, untouched.
  cbn [setVelocity setDirection velocity moveForward moveBackward moveLeft
       moveRight sprint direction timeOfDay dayNightAuto].
  destruct (moveForward s || moveBackward s), (moveLeft s || moveRight s);
    reflexivity.
Qed.

Lemma attemptX_untouched (delta : Q) (old : Vector3.t) (s : State) :
  untouched (attemptX colliders delta old s) = untouched s.
Proof.
  unfold attemptX. destruct (checkBuildingCollisions _ _); reflexivity.
Qed.

Lemma attemptZ_untouched (delta : Q) (old : Vector3.t) (s : State) :
  untouched (attemptZ colliders delta old s) = untouched s.
Proof.
  unfold attemptZ. destruct (checkBuildingCollisions _ _); reflexivity.
Qed.

Lemma clampToCity_untouched (s : State) :
  untouched (clampToCity s) = untouched s.
Proof.
  unfold clampToCity.
  transitivity (untouched (clampLowZ (clampHighX (clampLowX s))));
    [unfold clampHighZ; destruct (Js.gtb _ _); reflexivity|].
  transitivity (untouched (clampHighX (clampLowX s)));
    [unfold clampLowZ; destruct (Js.ltb _ _); reflexivity|].
  transitivity (untouched (clampLowX s));
    [unfold clampHighX; destruct (Js.gtb _ _); reflexivity|].
  unfold clampLowX; destruct (Js.ltb _ _); reflexivity.
Qed.

Lemma updateMovement_untouched (delta : Q) (s : State) :
  untouched (updateMovement sqrt colliders delta s) = untouched s.
Proof.
  unfold updateMovement. destruct (controls s) eqn:E; [|reflexivity].
  rewrite clampToCity_untouched.
  change (untouched (pinHeight ?t)) with (untouched t).
  unfold attemptMoves.
  rewrite attemptZ_untouched, attemptX_untouched.
  apply applyInput_untouched.
Qed.

Lemma clampToCity_height (s : State) :
  Vector3.y (pos (clampToCity s)) = Vector3.y (pos s).
Proof.
  unfold clampToCity.
  transitivity (Vector3.y (pos (clampLowZ (clampHighX (clampLowX s)))));
    [unfold clampHighZ; destruct (Js.gtb _ _); reflexivity|].
  transitivity (Vector3.y (pos (clampHighX (clampLowX s))));
    [unfold clampLowZ; destruct (Js.ltb _ _); reflexivity|].
  transitivity (Vector3.y (pos (clampLowX s)));
    [unfold clampHighX; destruct (Js.gtb _ _); reflexivity|].
  unfold clampLowX; destruct (Js.ltb _ _); reflexivity.
Qed.

End Frame.

Lemma Blocked_ext (colliders : list Collider.t) (p q : Vector3.t) :
  Vector3.x p == Vector3.x q -> Vector3.z p == Vector3.z q ->
  Blocked colliders p -> Blocked colliders q.
Proof.
  intros Ex Ez (b & Hin & H1 & H2). exists b. split; [exact Hin|].
  unfold Padded in *. rewrite <- Ex, <- Ez. now split.
Qed.

Lemma clampToCity_keep_x (s : State) :
  - limit <= Vector3.x (pos s) -> Vector3.x (pos s) <= limit ->
  Vector3.x (pos (clampToCity s)) = Vector3.x (pos s).
Proof.
  intros H1 H2. unfold clampToCity.
  destruct (clampLowX_spec s) as (_ & A & _). rewrite (A H1).
  destruct (clampHighX_spec s) as (_ & B & _). rewrite (B H2).
  destruct (clampLowZ_spec s) as (_ & _ & _ & C & _).
  destruct (clampHighZ_spec (clampLowZ s)) as (_ & _ & _ & D & _).
  now rewrite D, C.
Qed.

Lemma clampToCity_keep_z (s : State) :
  - limit <= Vector3.z (pos s) -> Vector3.z (pos s) <= limit ->
  Vector3.z (pos (clampToCity s)) = Vector3.z (pos s).
Proof.
  intros H1 H2. unfold clampToCity.
  destruct (clampLowX_spec s) as (_ & _ & _ & A & _).
  destruct (clampHighX_spec (clampLowX s)) as (_ & _ & _ & B & _).
  set (t := clampHighX (clampLowX s)) in *.
  assert (Vector3.z (pos t) = Vector3.z (pos s)) as E by (now rewrite B, A).
  destruct (clampLowZ_spec t) as (_ & C & _).
  rewrite C by (rewrite E; exact H1).
  destruct (clampHighZ_spec t) as (_ & D & _).
  rewrite D by (rewrite E; exact H2). exact E.
Qed.

(** Each coordinate after the boundary tests is the one before, or a
    boundary. *)
Lemma clampToCity_x_cases (s : State) :
  Vector3.x (pos (clampToCity s)) = Vector3.x (pos s) \/
  Vector3.x (pos (clampToCity s)) = limit \/
  Vector3.x (pos (clampToCity s)) = - limit.
Proof.
  destruct (Qlt_le_dec limit (Vector3.x (pos s))) as [H|H].
  - right. left. now apply clampToCity_high_x.
  - destruct (Qlt_le_dec (Vector3.x (pos s)) (- limit)) as [L|L].
    + right. right. now apply clampToCity_low_x.
    + left. now apply clampToCity_keep_x.
Qed.

Lemma clampToCity_z_cases (s : State) :
  Vector3.z (pos (clampToCity s)) = Vector3.z (pos s) \/
  Vector3.z (pos (clampToCity s)) = limit \/
  Vector3.z (pos (clampToCity s)) = - limit.
Proof.
  destruct (Qlt_le_dec limit (Vector3.z (pos s))) as [H|H].
  - right. left. now apply clampToCity_high_z.
  - destruct (Qlt_le_dec (Vector3.z (pos s)) (- limit)) as [L|L].
    + right. right. now apply clampToCity_low_z.
    + left. now apply clampToCity_keep_z.
Qed.

End MovementFacts.

Section KeyExtras.
Import Controls.

(** X8.  Keys 1 to 4 switch the auto cycle off and set the phase to 0.05,
    0.25, 0.48 and 0.75.  While the auto cycle is off, [updateDayNight]
    leaves the controls state, and so the phase, exactly as it is whatever
    the [delta]; so after a number key the clock stands still.  Key N
    toggles the mode and pressing it twice restores it.  No key handler
    touches the camera, the velocity or the controls handle, and releasing
    a key never changes the clock. *)
Theorem X8_time_keys_freeze_clock :
  forall (s : State) (delta : Q) (l : Lighting.State),
    (forall k phase,
       In (k, phase) [(Digit1, 0.05); (Digit2, 0.25); (Digit3, 0.48);
                      (Digit4, 0.75)] ->
       dayNightAuto (onKeyDown k s) = false /\
       timeOfDay (onKeyDown k s) = phase /\
       fst (Lighting.updateDayNight delta (onKeyDown k s) l) = onKeyDown k s) /\
    (dayNightAuto s = false -> fst (Lighting.updateDayNight delta s l) = s) /\
    dayNightAuto (onKeyDown KeyN s) = negb (dayNightAuto s) /\
    timeOfDay (onKeyDown KeyN s) = timeOfDay s /\
    onKeyDown KeyN (onKeyDown KeyN s) = setDayNightAuto s (dayNightAuto s) /\
    (forall k,
       camera (onKeyDown k s) = camera s /\
       velocity (onKeyDown k s) = velocity s /\
       controls (onKeyDown k s) = controls s /\
       camera (onKeyUp k s) = camera s /\
       velocity (onKeyUp k s) = velocity s /\
       controls (onKeyUp k s) = controls s /\
       timeOfDay (onKeyUp k s) = timeOfDay s /\
       dayNightAuto (onKeyUp k s) = dayNightAuto s).
Proof.
  intros s delta l.
  assert (Hoff : forall c, dayNightAuto c = false ->
                   fst (Lighting.updateDayNight delta c l) = c).
  { intros c Hc. unfold Lighting.updateDayNight, Lighting.tick.
    rewrite Hc. destruct (Lighting.hemiLight l), (Lighting.sunLight l);
      reflexivity. }
  split; [|split; [apply Hoff|]].
  - intros k phase Hin. cbn [In] in Hin.
    destruct Hin as [E|[E|[E|[E|[]]]]]; injection E as <- <-;
      (split; [reflexivity|]; split; [reflexivity|]; now apply Hoff).
  - split; [reflexivity|]. split; [reflexivity|]. split.
    + cbn [onKeyDown]. unfold setDayNightAuto. cbn. now rewrite negb_involutive.
    + intros k. destruct k; repeat split; reflexivity.
Qed.

(** X9.  A call of [updateMovement] never writes the key flags, the
    controls handle, the orientation of the camera, the clock (phase and
    auto mode) or the vertical velocity.  With the controls initialised it
    leaves the player at eye height 2; without them it changes nothing. *)
Theorem X9_frame_leaves_inputs :
  forall (sqrt : Q -> Q) (colliders : list Collider.t) (delta : Q) (s : State),
    let s' := updateMovement sqrt colliders delta s in
    (moveForward s' = moveForward s /\ moveBackward s' = moveBackward s /\
     moveLeft s' = moveLeft s /\ moveRight s' = moveRight s /\
     sprint s' = sprint s) /\
    controls s' = controls s /\
    right (camera s') = right (camera s) /\ up (camera s') = up (camera s) /\
    timeOfDay s' = timeOfDay s /\ dayNightAuto s' = dayNightAuto s /\
    Vector3.y (velocity s') = Vector3.y (velocity s) /\
    (controls s <> None -> Vector3.y (pos s') = 2) /\
    (controls s = None -> s' = s).
Proof.
  intros sqrt colliders delta s s'.
  pose proof (CoastingFacts.updateMovement_inputs sqrt colliders delta s) as H.
  pose proof (MovementFacts.updateMovement_untouched sqrt colliders delta s)
    as U.
  unfold CoastingFacts.inputs in H. unfold MovementFacts.untouched in U.
  fold s' in H, U.
  injection H as H1 H2 H3 H4 H5 H6 H7 H8. injection U as U1 U2 U3.
  repeat split; try assumption.
  - intros Hc. unfold s'.
    rewrite ControlsFacts.updateMovement_on by exact Hc.
    rewrite MovementFacts.clampToCity_height. reflexivity.
  - intros Hc. unfold s', updateMovement. now rewrite Hc.
Qed.

End KeyExtras.

Module WallFacts.
Import Controls ControlsFacts MovementFacts.

(** Every collider of the registry, grown by the player radius, ends at
    least 2 short of the city boundary. *)
Lemma registry_inside_city (random : nat -> Q) (c : Collider.t) :
  (forall n, 0 <= random n /\ random n < 1) ->
  In c (Buildings.initWorld random) ->
  Qabs (Collider.x c) + Collider.width c / 2 + playerRadius <= 128 /\
  Qabs (Collider.z c) + Collider.depth c / 2 + playerRadius <= 128.
Proof.
  intros Hr Hin. unfold Buildings.initWorld in Hin.
  apply in_app_or in Hin as [Hin|[<-|[]]].
  - pose proof (BuildingsFacts.createBuildings_sized random Hr) as S.
    rewrite Forall_forall in S. destruct (S c Hin) as [[_ Sw] [_ Sd]].
    assert (In (BuildingsFacts.colliderCentre c) BuildingsFacts.allCentres)
      as Hcen.
    { unfold BuildingsFacts.allCentres. rewrite app_assoc.
      apply in_or_app. left.
      rewrite <- (BuildingsFacts.createBuildings_centres random).
      now apply in_map. }
    apply BuildingsFacts.allCentres_on_grid in Hcen as [Gx Gz].
    cbn [BuildingsFacts.colliderCentre fst snd] in Gx, Gz.
    assert (forall g, In g Buildings.gridRange -> Qabs g <= 120) as G.
    { intros g Hg. unfold Buildings.gridRange in Hg. cbn [In] in Hg.
      repeat (destruct Hg as [<-|Hg]; [discriminate|]). destruct Hg. }
    pose proof (G _ Gx). pose proof (G _ Gz).
    unfold playerRadius. JsFacts.halves. split; lra.
  - split; vm_compute; discriminate.
Qed.

Lemma boundary_free (random : nat -> Q) (p : Vector3.t) :
  (forall n, 0 <= random n /\ random n < 1) ->
  Qabs (Vector3.x p) == limit \/ Qabs (Vector3.z p) == limit ->
  ~ Blocked (Buildings.initWorld random) p.
Proof.
  intros Hr Hp (c & Hin & P1 & P2).
  destruct (registry_inside_city random c Hr Hin) as [B1 B2].
  unfold limit in Hp.
  pose proof (Qabs_triangle (Vector3.x p - Collider.x c) (Collider.x c)) as T1.
  pose proof (Qabs_triangle (Vector3.z p - Collider.z c) (Collider.z c)) as T2.
  assert (Vector3.x p - Collider.x c + Collider.x c == Vector3.x p) as E1
    by ring.
  assert (Vector3.z p - Collider.z c + Collider.z c == Vector3.z p) as E2
    by ring.
  rewrite E1 in T1. rewrite E2 in T2.
  destruct Hp as [Hp|Hp]; rewrite Hp in *; lra.
Qed.

Section Aligned.
Variable sqrt : Q -> Q.
Variable colliders : list Collider.t.

(** With the camera along the world axes and the player outside every
    grown collider, the two attempts leave it outside. *)
Lemma aligned_attempts_safe (delta rx : Q) (s : State) :
  right (camera s) = Vector3.mk rx 0 0 -> up (camera s) = Vector3.mk 0 1 0 ->
  ~ Blocked colliders (pos s) ->
  ~ Blocked colliders (pos (attemptMoves sqrt colliders delta s)).
Proof.
  intros Er Eu Hfree.
  set (s1 := applyInput sqrt delta (applyFriction delta s)).
  assert (pos s1 = pos s) as Ep by reflexivity.
  assert (right (camera s1) = Vector3.mk rx 0 0) as Er1 by exact Er.
  assert (up (camera s1) = Vector3.mk 0 1 0) as Eu1 by exact Eu.
  set (px := Vector3.addScaledVector (pos s1) (right (camera s1))
               (- Vector3.x (velocity s1) * delta)).
  set (sx := attemptX colliders delta (pos s1) s1).
  assert (Hx : ~ Blocked colliders (pos sx) /\
               Vector3.z (pos sx) == Vector3.z (pos s) /\
               right (camera sx) = Vector3.mk rx 0 0 /\
               up (camera sx) = Vector3.mk 0 1 0).
  { destruct (checkBuildingCollisions colliders px) eqn:E.
    - apply check_Blocked in E.
      destruct (attemptX_blocked colliders delta (pos s1) s1 E)
        as (P & _ & R & U).
      fold sx in P, R, U. rewrite P, R, U. fold px.
      assert (Vector3.z px == Vector3.z (pos s)) as Z.
      { unfold px. rewrite Er1, Ep.
        cbn [Vector3.addScaledVector Vector3.z]. ring. }
      split; [|split; [exact Z|now split]].
      intros B. apply Hfree. revert B. apply Blocked_ext.
      + cbn [Vector3.setX Vector3.x]. now rewrite Ep.
      + exact Z.
    - apply check_free in E.
      destruct (attemptX_free colliders delta (pos s1) s1 E)
        as (P & _ & R & U).
      fold sx in P, R, U. rewrite P, R, U. fold px.
      split; [exact E|]. split; [|now split].
      unfold px. rewrite Er1, Ep.
      cbn [Vector3.addScaledVector Vector3.z]. ring. }
  destruct Hx as (Fx & Zx & Rx & Ux).
  change (attemptMoves sqrt colliders delta s)
    with (attemptZ colliders delta (pos s1) sx).
  set (pz := Vector3.addScaledVector (pos sx)
               (Vector3.crossVectors (up (camera sx)) (right (camera sx)))
               (- Vector3.z (velocity sx) * delta)).
  destruct (checkBuildingCollisions colliders pz) eqn:E.
  - apply check_Blocked in E.
    destruct (attemptZ_blocked colliders delta (pos s1) sx E) as (P & _).
    rewrite P. fold pz. intros B. apply Fx. revert B. apply Blocked_ext.
    + unfold pz. rewrite Rx, Ux.
      cbn [Vector3.setZ Vector3.addScaledVector Vector3.crossVectors
           Vector3.x Vector3.y Vector3.z]. ring.
    + cbn [Vector3.setZ Vector3.z]. rewrite Ep. symmetry. exact Zx.
  - apply check_free in E.
    destruct (attemptZ_free colliders delta (pos s1) sx E) as (P & _).
    rewrite P. exact E.
Qed.

(** With the camera a quarter turn round (column 0 of its matrix along
    z), the Z attempt moves the player along x and its rollback restores
    z only: the x motion stands whatever the colliders. *)
Lemma quarter_turn_x (delta : Q) (s : State) :
  right (camera s) = Vector3.mk 0 0 1 -> up (camera s) = Vector3.mk 0 1 0 ->
  Vector3.x (pos (attemptMoves sqrt colliders delta s))
  == Vector3.x (pos s)
     - Vector3.z (velocity (applyInput sqrt delta (applyFriction delta s)))
       * delta.
Proof.
  intros Er Eu.
  set (s1 := applyInput sqrt delta (applyFriction delta s)).
  assert (pos s1 = pos s) as Ep by reflexivity.
  assert (right (camera s1) = Vector3.mk 0 0 1) as Er1 by exact Er.
  assert (up (camera s1) = Vector3.mk 0 1 0) as Eu1 by exact Eu.
  set (px := Vector3.addScaledVector (pos s1) (right (camera s1))
               (- Vector3.x (velocity s1) * delta)).
  set (sx := attemptX colliders delta (pos s1) s1).
  assert (Hx : Vector3.x (pos sx) == Vector3.x (pos s) /\
               Vector3.z (velocity sx) = Vector3.z (velocity s1) /\
               right (camera sx) = Vector3.mk 0 0 1 /\
               up (camera sx) = Vector3.mk 0 1 0).
  { destruct (checkBuildingCollisions colliders px) eqn:E.
    - apply check_Blocked in E.
      destruct (attemptX_blocked colliders delta (pos s1) s1 E)
        as (P & V & R & U).
      fold sx in P, V, R, U. rewrite P, V, R, U.
      cbn [Vector3.setX Vector3.x Vector3.z]. rewrite Ep.
      repeat split; auto; reflexivity.
    - apply check_free in E.
      destruct (attemptX_free colliders delta (pos s1) s1 E)
        as (P & V & R & U).
      fold sx in P, V, R, U. rewrite P, V, R, U. fold px.
      repeat split; auto. unfold px. rewrite Er1, Ep.
      cbn [Vector3.addScaledVector Vector3.x]. ring. }
  destruct Hx as (Xx & Vx & Rx & Ux).
  change (attemptMoves sqrt colliders delta s)
    with (attemptZ colliders delta (pos s1) sx).
  set (pz := Vector3.addScaledVector (pos sx)
               (Vector3.crossVectors (up (camera sx)) (right (camera sx)))
               (- Vector3.z (velocity sx) * delta)).
  assert (Vector3.x pz == Vector3.x (pos s) - Vector3.z (velocity s1) * delta)
    as Xz.
  { unfold pz. rewrite Rx, Ux, Vx.
    cbn [Vector3.addScaledVector Vector3.crossVectors Vector3.x Vector3.y
         Vector3.z]. rewrite Xx. ring. }
  destruct (checkBuildingCollisions colliders pz) eqn:E.
  - apply check_Blocked in E.
    destruct (attemptZ_blocked colliders delta (pos s1) sx E) as (P & _).
    rewrite P. fold pz. cbn [Vector3.setZ Vector3.x]. exact Xz.
  - apply check_free in E.
    destruct (attemptZ_free colliders delta (pos s1) sx E) as (P & _).
    rewrite P. exact Xz.
Qed.

End Aligned.

End WallFacts.

Section WallExtras.
Import Controls.

(** X10.  In the generated city, with the camera looking along the world
    z axis (column 0 of its matrix along x), a player who is outside every
    collider grown by the player radius is still outside after
    [updateMovement], whatever the keys, the velocity and the [delta]:
    an attempt either lands clear or is undone on its own axis, and the
    boundary at 130 lies beyond every grown collider. *)
Theorem X10_aligned_player_stays_out :
  forall (sqrt random : _) (delta rx : Q) (s : State),
    (forall n, 0 <= random n /\ random n < 1) ->
    controls s <> None ->
    right (camera s) = Vector3.mk rx 0 0 -> up (camera s) = Vector3.mk 0 1 0 ->
    ~ Blocked (Buildings.initWorld random) (pos s) ->
    ~ Blocked (Buildings.initWorld random)
        (pos (updateMovement sqrt (Buildings.initWorld random) delta s)).
Proof.
  intros sqrt random delta rx s Hr Hc Er Eu Hfree.
  pose proof (WallFacts.aligned_attempts_safe sqrt (Buildings.initWorld random)
                delta rx s Er Eu Hfree) as Safe.
  rewrite ControlsFacts.updateMovement_on by exact Hc.
  set (t := attemptMoves sqrt (Buildings.initWorld random) delta s) in *.
  destruct (ControlsFacts.pinHeight_xz t) as (PX & PZ & _).
  destruct (MovementFacts.clampToCity_x_cases (pinHeight t)) as [X|X];
    [destruct (MovementFacts.clampToCity_z_cases (pinHeight t)) as [Z|Z]|].
  - intros B. apply Safe. revert B. apply MovementFacts.Blocked_ext.
    + rewrite X, PX. reflexivity.
    + rewrite Z, PZ. reflexivity.
  - apply WallFacts.boundary_free; [exact Hr|]. right.
    destruct Z as [Z|Z]; rewrite Z; reflexivity.
  - apply WallFacts.boundary_free; [exact Hr|]. left.
    destruct X as [X|X]; rewrite X; reflexivity.
Qed.

End WallExtras.

(** The player stands at the start position holding W in the generated
    city, camera as created. *)
Definition walking : Controls.State :=
  Controls.onKeyDown Controls.KeyW (Controls.initControls Controls.initial).

Lemma X10_aligned_player_stays_out_witness :
  Controls.checkBuildingCollisions (Buildings.initWorld cycling)
    (Controls.pos walking) = false /\
  ~ Controls.Blocked (Buildings.initWorld cycling)
      (Controls.pos
         (Controls.updateMovement sqrt01 (Buildings.initWorld cycling) 0.05
            walking)).
Proof.
  assert (Controls.checkBuildingCollisions (Buildings.initWorld cycling)
            (Controls.pos walking) = false) as E by (vm_compute; reflexivity).
  split; [exact E|].
  apply (X10_aligned_player_stays_out sqrt01 cycling 0.05 1 walking).
  - exact cycling_unit.
  - discriminate.
  - reflexivity.
  - reflexivity.
  - now apply ControlsFacts.check_free.
Defined.

Section QuarterTurn.
Import Controls.

(** X11.  With the camera turned a quarter turn (column 0 of its matrix
    along the world z axis) the forward attempt moves the player along the
    world x axis, and a collision only restores z: whatever the colliders,
    the player's x after [updateMovement] is its old x minus the z
    velocity times [delta] (when that is inside the city), so walking
    forward into a wall is not stopped. *)
Theorem X11_quarter_turn_not_stopped :
  forall (sqrt : Q -> Q) (colliders : list Collider.t) (delta : Q) (s : State),
    controls s <> None ->
    right (camera s) = Vector3.mk 0 0 1 -> up (camera s) = Vector3.mk 0 1 0 ->
    let vz := Vector3.z (velocity (applyInput sqrt delta (applyFriction delta s))) in
    let x' := Vector3.x (pos s) - vz * delta in
    - limit <= x' -> x' <= limit ->
    Vector3.x (pos (updateMovement sqrt colliders delta s)) == x'.
Proof.
  intros sqrt colliders delta s Hc Er Eu vz x' H1 H2.
  pose proof (WallFacts.quarter_turn_x sqrt colliders delta s Er Eu) as Q.
  fold vz in Q. fold x' in Q.
  rewrite ControlsFacts.updateMovement_on by exact Hc.
  set (t := attemptMoves sqrt colliders delta s) in *.
  destruct (ControlsFacts.pinHeight_xz t) as (PX & _).
  rewrite MovementFacts.clampToCity_keep_x; rewrite PX.
  - exact Q.
  - now rewrite Q.
  - now rewrite Q.
Qed.

End QuarterTurn.

(** The player of [facingWall] ends the frame at x = 7.1, inside the grown
    wall. *)
Lemma X11_quarter_turn_not_stopped_witness :
  Controls.checkBuildingCollisions [wall] (Controls.pos facingWall) = false /\
  Vector3.x (Controls.pos (Controls.updateMovement sqrt01 [wall] 0.05 facingWall))
  == 7.1 /\
  Controls.checkBuildingCollisions [wall]
    (Controls.pos (Controls.updateMovement sqrt01 [wall] 0.05 facingWall))
  = true.
Proof.
  split; [vm_compute; reflexivity|]. split.
  - rewrite (X11_quarter_turn_not_stopped sqrt01 [wall] 0.05 facingWall);
      try reflexivity; try discriminate.
  - vm_compute. reflexivity.
Defined.

Section BirdExtras.
Import Bird.

(** X12.  After [update] a bird is inside the square [-300, 300] on x and
    z, wherever it was and whatever the [delta].  A step that stays inside
    is the straight step [direction * speed * delta]; a step that passes
    300 puts the bird at exactly -300, and one that passes -300 at exactly
    300 (a jump to the opposite side, not a bounce).  Direction and speeds
    are never changed. *)
Theorem X12_bird_wraps :
  forall (now : Z) (delta : Q) (b : t),
    let x1 := x b + Vector3.x (direction b) * (speed b * delta) in
    let z1 := z b + Vector3.z (direction b) * (speed b * delta) in
    let b' := update now delta b in
    (-300 <= x b' /\ x b' <= 300) /\ (-300 <= z b' /\ z b' <= 300) /\
    (-300 <= x1 -> x1 <= 300 -> x b' = x1) /\
    (300 < x1 -> x b' = -300) /\ (x1 < -300 -> x b' = 300) /\
    (-300 <= z1 -> z1 <= 300 -> z b' = z1) /\
    (300 < z1 -> z b' = -300) /\ (z1 < -300 -> z b' = 300) /\
    direction b' = direction b /\ speed b' = speed b /\
    flapSpeed b' = flapSpeed b.
Proof.
  intros now delta b x1 z1 b'.
  assert (W : forall a,
            let a2 := if Js.gtb a 300 then -300 else a in
            let a3 := if Js.ltb a2 (-300) then 300 else a2 in
            (-300 <= a3 /\ a3 <= 300) /\
            (-300 <= a -> a <= 300 -> a3 = a) /\
            (300 < a -> a3 = -300) /\ (a < -300 -> a3 = 300)).
  { intros a. cbv zeta.
    destruct (Js.gtb a 300) eqn:G;
      [apply JsFacts.gtb_gt in G|apply JsFacts.gtb_le in G].
    - change (Js.ltb (-300) (-300)) with false. cbv iota.
      repeat split; intros; try reflexivity; try discriminate; lra.
    - destruct (Js.ltb a (-300)) eqn:L;
        [apply JsFacts.ltb_lt in L|apply JsFacts.ltb_ge in L];
        repeat split; intros; try reflexivity; try discriminate; lra. }
  destruct (W x1) as (X1 & X2 & X3 & X4).
  destruct (W z1) as (Z1 & Z2 & Z3 & Z4).
  repeat split; try reflexivity;
    try apply X1; try apply Z1; assumption.
Qed.

Local Open Scope R_scope.

(** X13.  Beyond the step along its direction, [update] changes a bird's
    height by the bob [sin (2 * time) * 0.02], at most 0.02 up or down per
    call whatever the [delta]; so a bird whose direction is horizontal
    moves at most 0.02 in height per frame.  The wings are set to opposite
    angles of at most 0.4 radians. *)
Theorem X13_bird_bob_and_flap :
  forall (now : Z) (delta : Q) (b : t),
    let b' := update now delta b in
    let climb := Q2R (Vector3.y (direction b) * (speed b * delta)) in
    -0.02 <= y b' - (y b + climb) <= 0.02 /\
    ((Vector3.y (direction b) == 0)%Q -> -0.02 <= y b' - y b <= 0.02) /\
    wingR b' = - wingL b' /\
    -0.4 <= wingL b' <= 0.4.
Proof.
  intros now delta b b' climb. unfold b', update. cbn [y wingL wingR].
  fold climb.
  set (time := (inject_Z now * 0.001)%Q).
  pose proof (SIN_bound (Q2R (time * 2))) as [S1 S2].
  pose proof (SIN_bound (Q2R (time * flapSpeed b))) as [F1 F2].
  assert (C : (Vector3.y (direction b) == 0)%Q -> climb = 0).
  { intros H. unfold climb. rewrite H.
    setoid_replace (0 * (speed b * delta))%Q with 0%Q by ring.
    unfold Q2R. simpl. Lra.lra. }
  split; [Lra.lra|]. split.
  - intros H. rewrite (C H). Lra.lra.
  - split; [reflexivity|Lra.lra].
Qed.

End BirdExtras.


Module SceneryFacts.
Import Buildings BuildingsFacts Scenery.

(** On the asphalt of a road: within half its width and half its length
    of its centre. *)
Definition OnRoad (r : Road) (px pz : Q) : Prop :=
  Qabs (px - roadX r) <= roadW r / 2 /\ Qabs (pz - roadZ r) <= roadL r / 2.

Lemma createRoads_lines (r : Road) :
  In r createRoads ->
  exists i, In i roadLines /\
    (r = mkRoad roadWidth 300 i 0 \/ r = mkRoad 300 roadWidth 0 i).
Proof.
  unfold createRoads, roadLines. rewrite in_app_iff, !in_map_iff.
  intros [(i & E & Hi) | (i & E & Hi)]; exists i; split; auto.
Qed.

(** A point within 10 of a grid line is more than 6 from every road
    line. *)
Lemma off_the_strip (g half p i : Q) :
  In g gridRange -> In i roadLines -> half <= 10 ->
  Qabs (p - g) <= half -> ~ Qabs (p - i) <= roadWidth / 2.
Proof.
  intros Hg Hi Hh Hp C.
  pose proof (grid_road_gap g i Hg Hi) as Hgap.
  apply Qabs_Qle_condition in Hp. apply Qabs_Qle_condition in C.
  unfold roadWidth in C. JsFacts.halves.
  apply Qabs_ge in Hgap. destruct Hgap; lra.
Qed.

Lemma isTooCloseToRoad_false (px pz : Q) :
  isTooCloseToRoad px pz = false ->
  forall i, In i roadLines ->
    (Qabs pz < 150 -> 11 <= Qabs (px - i)) /\
    (Qabs px < 150 -> 11 <= Qabs (pz - i)).
Proof.
  unfold isTooCloseToRoad. intros H i Hi.
  destruct (Js.ltb (Qabs pz) (roadWidth / 2 + margin)); [discriminate|].
  destruct (Js.ltb (Qabs px) (roadWidth / 2 + margin)); [discriminate|].
  assert (forall a b, existsb a b = false ->
            forall j : Q, In j b -> a j = false) as Ex.
  { intros a b E j Hj. destruct (a j) eqn:Ej; [|reflexivity].
    rewrite <- E. symmetry. apply existsb_exists. eauto. }
  specialize (Ex _ _ H i Hi). cbv beta in Ex.
  apply orb_false_iff in Ex. destruct Ex as [E1 E2].
  assert (roadWidth / 2 + margin == 11) as W by reflexivity.
  split; intros Hlt; apply JsFacts.ltb_lt in Hlt.
  - rewrite Hlt, andb_true_r in E1. apply JsFacts.ltb_ge in E1.
    rewrite <- W. exact E1.
  - rewrite Hlt, andb_true_r in E2. apply JsFacts.ltb_ge in E2.
    rewrite <- W. exact E2.
Qed.

Lemma loose_strict (px pz : Q) :
  isTooCloseToRoadLoose px pz = true -> isTooCloseToRoad px pz = true.
Proof.
  unfold isTooCloseToRoadLoose, isTooCloseToRoad, roadLines.
  assert (forall a, Js.ltb a (roadWidth / 2 + 1.5) = true ->
                    Js.ltb a (roadWidth / 2 + margin) = true) as M.
  { intros a H. apply JsFacts.ltb_lt. apply JsFacts.ltb_lt in H.
    unfold roadWidth, margin in *. JsFacts.halves. lra. }
  cbv zeta.
  destruct (Js.ltb (Qabs pz) (roadWidth / 2 + 1.5)) eqn:E1.
  { intros _. rewrite (M _ E1). reflexivity. }
  destruct (Js.ltb (Qabs px) (roadWidth / 2 + 1.5)) eqn:E2.
  { intros _. rewrite (M _ E2).
    destruct (Js.ltb (Qabs pz) (roadWidth / 2 + margin)); reflexivity. }
  intros H. apply existsb_exists in H. destruct H as (i & Hi & H).
  destruct (Js.ltb (Qabs pz) (roadWidth / 2 + margin)); [reflexivity|].
  destruct (Js.ltb (Qabs px) (roadWidth / 2 + margin)); [reflexivity|].
  apply existsb_exists. exists i. split; [exact Hi|].
  apply orb_true_iff in H. apply orb_true_iff.
  destruct H as [H | H]; apply andb_true_iff in H; destruct H as [Ha Hb];
    [left | right]; rewrite (M _ Ha), Hb; reflexivity.
Qed.

End SceneryFacts.

Section SceneryExtras.
Import Buildings BuildingsFacts Scenery SceneryFacts.

(** X14.  No registered collider reaches the asphalt: for every run of
    [Math.random] with values in [0, 1), no point of a collider of
    [initWorld], the school included, lies on a road of [createRoads]. *)
Theorem X14_colliders_off_asphalt :
  forall (random : nat -> Q) (c : Collider.t) (r : Road) (px pz : Q),
    (forall n, 0 <= random n /\ random n < 1) ->
    In c (initWorld random) -> In r createRoads ->
    Inside c px pz -> ~ OnRoad r px pz.
Proof.
  intros random c r px pz Hr Hc Hroad [Ix Iz] [Rx Rz].
  pose proof (initWorld_sized random Hr) as S.
  rewrite Forall_forall in S. specialize (S c Hc).
  destruct S as [[_ Sw] [_ Sd]].
  assert (In (colliderCentre c) allCentres) as Hcen.
  { rewrite <- (initWorld_centres random). apply in_map. exact Hc. }
  apply allCentres_on_grid in Hcen. cbn [colliderCentre fst snd] in Hcen.
  destruct Hcen as [Gx Gz].
  destruct (createRoads_lines r Hroad) as (i & Hi & [E | E]); subst r;
    cbn [roadX roadZ roadW roadL] in Rx, Rz.
  - apply (off_the_strip (Collider.x c) (Collider.width c / 2) px i);
      auto. JsFacts.halves. lra.
  - apply (off_the_strip (Collider.z c) (Collider.depth c / 2) pz i);
      auto. JsFacts.halves. lra.
Qed.

(** The school's centre is on no road. *)
Lemma X14_colliders_off_asphalt_witness :
  In schoolCollider (initWorld cycling) /\
  forall r, In r createRoads -> ~ OnRoad r 0 (-40).
Proof.
  assert (In schoolCollider (initWorld cycling)) as Hin.
  { unfold initWorld. apply in_or_app. right. left. reflexivity. }
  split; [exact Hin|]. intros r Hroad.
  apply (X14_colliders_off_asphalt cycling schoolCollider r 0 (-40)
           cycling_unit Hin Hroad).
  split; cbn; vm_compute; discriminate.
Defined.

(** X15.  The loose road test of the trees around buildings never rejects
    a point the strict test accepts, and it is strictly looser: at
    (28, 28) the strict test rejects and the loose one accepts. *)
Theorem X15_loose_test_is_looser :
  (forall px pz,
     isTooCloseToRoad px pz = false -> isTooCloseToRoadLoose px pz = false) /\
  (exists px pz,
     isTooCloseToRoad px pz = true /\ isTooCloseToRoadLoose px pz = false).
Proof.
  split.
  - intros px pz H. destruct (isTooCloseToRoadLoose px pz) eqn:E; [|reflexivity].
    apply loose_strict in E. congruence.
  - exists 28, 28. split; vm_compute; reflexivity.
Qed.

End SceneryExtras.


Module TreeFacts.
Import Buildings BuildingsFacts Scenery.

(** Where a tree stands and how large it is. *)
Definition pos (t : Tree) : Q * Q * Q := (treeX t, treeZ t, treeScale t).

(** What one guarded planting of [createTrees] adds. *)
Definition planted (px pz scale : Q) : list (Q * Q * Q) :=
  if negb (isInNoTreeZone px pz) && negb (isTooCloseToRoad px pz)
  then [ (px, pz, scale) ] else [].

(** The trees of [createTrees], without their colours. *)
Definition rowsAndLarge : list (Q * Q * Q) :=
  flat_map
    (fun i =>
       flat_map
         (fun pz =>
            planted (i - roadWidth / 2 - 12) pz 1
            ++ planted (i + roadWidth / 2 + 12) pz 1)
         (forRange (- (100)) 100 8))
    (forRange (-100) 100 gridSpacing)
  ++ flat_map (fun loc => planted (fst loc) (snd loc) 2.5) largeTreeLocations.

Section Rows.
Variable random : nat -> Q.

Lemma forEachTree_pos {A : Type} (f : A -> Gen (list Tree))
    (g : A -> list (Q * Q * Q)) (l : list A) :
  (forall a n, map pos (fst (f a n)) = g a) ->
  forall n, map pos (fst (forEachTree f l n)) = flat_map g l.
Proof.
  intros Hf. induction l as [|a rest IH]; intros n; [reflexivity|].
  cbn [forEachTree flat_map]. unfold bind, ret.
  specialize (Hf a n). destruct (f a n) as [out n1].
  specialize (IH n1). destruct (forEachTree f rest n1) as [outs n2].
  cbn [fst] in *. rewrite map_app. congruence.
Qed.

Lemma forEachTree_draws {A : Type} (f : A -> Gen (list Tree)) (l : list A) :
  (forall a n, snd (f a n) = (n + List.length (fst (f a n)))%nat) ->
  forall n,
    snd (forEachTree f l n)
    = (n + List.length (fst (forEachTree f l n)))%nat.
Proof.
  intros Hf. induction l as [|a rest IH]; intros n.
  - cbn. lia.
  - cbn [forEachTree]. unfold bind, ret.
    specialize (Hf a n). destruct (f a n) as [out n1].
    specialize (IH n1). destruct (forEachTree f rest n1) as [outs n2].
    cbn [fst snd] in *. rewrite length_app. lia.
Qed.

Lemma plantIfClear_pos (px pz scale : Q) (n : nat) :
  map pos (fst (plantIfClear random px pz scale n)) = planted px pz scale.
Proof.
  unfold plantIfClear, planted.
  destruct (negb (isInNoTreeZone px pz) && negb (isTooCloseToRoad px pz));
    reflexivity.
Qed.

Lemma plantIfClear_draws (px pz scale : Q) (n : nat) :
  snd (plantIfClear random px pz scale n)
  = (n + List.length (fst (plantIfClear random px pz scale n)))%nat.
Proof.
  unfold plantIfClear.
  destruct (negb (isInNoTreeZone px pz) && negb (isTooCloseToRoad px pz));
    cbn; lia.
Qed.

Lemma createTrees_pos (n : nat) :
  map pos (fst (createTrees random n)) = rowsAndLarge.
Proof.
  unfold createTrees, rowsAndLarge. cbv zeta. unfold bind at 1.
  match goal with
  | |- context [forEachTree ?f ?l n] =>
      pose proof (forEachTree_pos f
        (fun i =>
           flat_map
             (fun pz =>
                planted (i - roadWidth / 2 - 12) pz 1
                ++ planted (i + roadWidth / 2 + 12) pz 1)
             (forRange (- (100)) 100 8)) l) as R;
      destruct (forEachTree f l n) as [rows n1] eqn:E
  end.
  unfold bind, ret.
  match goal with
  | |- context [forEachTree ?f ?l n1] =>
      pose proof (forEachTree_pos f
        (fun loc => planted (fst loc) (snd loc) 2.5) l) as L;
      destruct (forEachTree f l n1) as [large n2] eqn:E'
  end.
  cbn [fst]. rewrite map_app. f_equal.
  - rewrite <- (R ltac:(
      intros i m; apply forEachTree_pos; intros pz k;
      unfold bind, ret;
      pose proof (plantIfClear_pos (i - roadWidth / 2 - 12) pz 1 k) as A;
      destruct (plantIfClear random (i - roadWidth / 2 - 12) pz 1 k)
        as [a k1];
      pose proof (plantIfClear_pos (i + roadWidth / 2 + 12) pz 1 k1) as B;
      destruct (plantIfClear random (i + roadWidth / 2 + 12) pz 1 k1)
        as [b k2];
      cbn [fst] in *; rewrite map_app; congruence) n).
    rewrite E. reflexivity.
  - rewrite <- (L ltac:(intros loc m; apply plantIfClear_pos) n1).
    rewrite E'. reflexivity.
Qed.

Lemma createTrees_draws (n : nat) :
  snd (createTrees random n)
  = (n + List.length (fst (createTrees random n)))%nat.
Proof.
  unfold createTrees, bind, ret. cbv zeta.
  match goal with
  | |- context [forEachTree ?f ?l n] =>
      pose proof (forEachTree_draws f l) as R;
      destruct (forEachTree f l n) as [rows n1] eqn:E
  end.
  match goal with
  | |- context [forEachTree ?f ?l n1] =>
      pose proof (forEachTree_draws f l) as L;
      destruct (forEachTree f l n1) as [large n2] eqn:E'
  end.
  cbn [fst snd]. rewrite length_app.
  assert (n1 = (n + List.length rows)%nat) as H1.
  { specialize (R ltac:(
      intros i m; apply forEachTree_draws; intros pz k;
      unfold bind, ret;
      pose proof (plantIfClear_draws (i - roadWidth / 2 - 12) pz 1 k) as A;
      destruct (plantIfClear random (i - roadWidth / 2 - 12) pz 1 k)
        as [a k1];
      pose proof (plantIfClear_draws (i + roadWidth / 2 + 12) pz 1 k1) as B;
      destruct (plantIfClear random (i + roadWidth / 2 + 12) pz 1 k1)
        as [b k2];
      cbn [fst snd] in *; rewrite length_app; lia) n).
    rewrite E in R. exact R. }
  assert (n2 = (n1 + List.length large)%nat) as H2.
  { specialize (L ltac:(intros loc m; apply plantIfClear_draws) n1).
    rewrite E' in L. exact L. }
  lia.
Qed.
End Rows.

(** What holds of every entry of [rowsAndLarge]. *)
Definition rowTree (p : Q * Q * Q) : bool :=
  let '(px, pz, scale) := p in
  Qeq_bool scale 1
  && negb (isInNoTreeZone px pz)
  && negb (isTooCloseToRoad px pz)
  && Qle_bool (Qabs pz) 100
  && existsb
       (fun i => Qeq_bool (Qabs (px - i)) 18)
       (forRange (-100) 100 gridSpacing).

Lemma rowsAndLarge_rows : forallb rowTree rowsAndLarge = true.
Proof. vm_compute. reflexivity. Qed.

Lemma rowsAndLarge_count : List.length rowsAndLarge = 76%nat.
Proof. vm_compute. reflexivity. Qed.

End TreeFacts.

Section TreeExtras.
Import Buildings BuildingsFacts Scenery SceneryFacts TreeFacts.

(** X16.  [createTrees] plants row trees only.  Whatever [Math.random]
    gives, it plants 76 trees and makes one draw for each; every one of
    them has scale 1, so none of the fourteen large trees of scale 2.5 is
    ever planted; each stands 18 from the centre line of a vertical road,
    outside the strict road margin and outside the no-tree zones, with z
    within 100. *)
Theorem X16_createTrees_rows_only :
  forall (random : nat -> Q) (n : nat),
    List.length (fst (createTrees random n)) = 76%nat /\
    snd (createTrees random n) = (n + 76)%nat /\
    Forall
      (fun t =>
         treeScale t == 1 /\
         isInNoTreeZone (treeX t) (treeZ t) = false /\
         isTooCloseToRoad (treeX t) (treeZ t) = false /\
         Qabs (treeZ t) <= 100 /\
         exists i, In i roadLines /\ Qabs (treeX t - i) == 18)
      (fst (createTrees random n)).
Proof.
  intros random n.
  assert (List.length (fst (createTrees random n)) = 76%nat) as Hlen.
  { rewrite <- (length_map pos), createTrees_pos. apply rowsAndLarge_count. }
  split; [exact Hlen|]. split; [rewrite createTrees_draws, Hlen; reflexivity|].
  apply Forall_forall. intros t Ht.
  apply (in_map pos) in Ht. rewrite createTrees_pos in Ht.
  pose proof rowsAndLarge_rows as R. rewrite forallb_forall in R.
  specialize (R _ Ht). unfold rowTree, pos in R.
  rewrite !andb_true_iff, !negb_true_iff in R.
  destruct R as ((((R1 & R2) & R3) & R4) & R5).
  apply Qeq_bool_iff in R1. apply Qle_bool_iff in R4.
  apply existsb_exists in R5. destruct R5 as (i & Hi & R5).
  apply Qeq_bool_iff in R5.
  repeat split; try assumption. exists i. split; assumption.
Qed.

End TreeExtras.


Module SmartTreeFacts.
Import Buildings BuildingsFacts Scenery SceneryFacts.

(** A tree that passed the four tests of [addRandomTreesSmart] for the
    building [config], and was scaled as the code scales it. *)
Definition Good (config : Config) (t : Tree) : Prop :=
  ~ (x config - width config / 2 - 1 < treeX t /\
     treeX t < x config + width config / 2 + 1 /\
     z config - depth config / 2 - 1 < treeZ t /\
     treeZ t < z config + depth config / 2 + 1) /\
  isTooCloseToRoadLoose (treeX t) (treeZ t) = false /\
  isInNoTreeZone (treeX t) (treeZ t) = false /\
  0.9 <= treeScale t /\ treeScale t < 1.5.

Section Smart.
Variable random : nat -> Q.
Hypothesis random_unit : forall n, 0 <= random n /\ random n < 1.
Variable cos sin sqrt : Q -> Q.
Variable PI : Q.
Variable config : Config.
Variable targetCount : Z.

(** The spacing test of the code, between an earlier tree and a later
    one. *)
Definition apart (a b : Tree) : Prop :=
  ~ sqrt ((treeX a - treeX b) * (treeX a - treeX b)
          + (treeZ a - treeZ b) * (treeZ a - treeZ b)) < 1.5.

Definition Spaced (l : list Tree) : Prop :=
  forall i j a b, (i < j)%nat ->
    nth_error l i = Some a -> nth_error l j = Some b -> apart a b.

Definition spot (t : Tree) : Q * Q := (treeX t, treeZ t).

Lemma tooNear_apart (trees : list Tree) (t : Tree) :
  tooNear sqrt (map spot trees) (treeX t) (treeZ t) = false ->
  forall a, In a trees -> apart a t.
Proof.
  unfold tooNear. intros H a Ha C.
  assert (existsb
            (fun p =>
               Js.ltb (sqrt ((fst p - treeX t) * (fst p - treeX t)
                             + (snd p - treeZ t) * (snd p - treeZ t))) 1.5)
            (map spot trees) = true) as T.
  { apply existsb_exists. exists (spot a). split; [apply in_map; exact Ha|].
    apply JsFacts.ltb_lt. exact C. }
  cbv zeta in H. congruence.
Qed.

Lemma Spaced_snoc (trees : list Tree) (t : Tree) :
  Spaced trees -> (forall a, In a trees -> apart a t) ->
  Spaced (trees ++ [t]).
Proof.
  intros Sp A i j a b Hij Hi Hj.
  destruct (Nat.lt_ge_cases j (List.length trees)) as [L | L].
  - rewrite nth_error_app1 in Hi, Hj by lia. exact (Sp i j a b Hij Hi Hj).
  - rewrite nth_error_app2 in Hj by lia.
    destruct (j - List.length trees)%nat as [|k] eqn:E.
    + cbn in Hj. injection Hj as <-.
      rewrite nth_error_app1 in Hi by lia.
      apply A. eapply nth_error_In; eassumption.
    + cbn in Hj. destruct k; discriminate.
Qed.

Lemma tryPlacing_inv (attempts : nat) :
  forall (trees : list Tree) (n : nat),
    Forall (Good config) trees -> Spaced trees ->
    let out :=
      tryPlacing random cos sin sqrt PI attempts config targetCount
        (map spot trees) (Z.of_nat (List.length trees)) trees n in
    Forall (Good config) (fst out) /\ Spaced (fst out) /\
    (Z.of_nat (List.length (fst out))
     <= Z.max targetCount (Z.of_nat (List.length trees)))%Z /\
    (snd out <= n + 5 * attempts)%nat /\
    exists more, fst out = trees ++ more.
Proof.
  induction attempts as [|k IH]; intros trees n G Sp; cbv zeta.
  - cbn. repeat split; try assumption; try lia. exists []. symmetry; apply app_nil_r.
  - cbn [tryPlacing].
    destruct (Z.of_nat (List.length trees) <? targetCount)%Z eqn:Ec.
    2:{ cbn. repeat split; try assumption; try lia.
        exists []. symmetry; apply app_nil_r. }
    apply Z.ltb_lt in Ec.
    cbv beta iota zeta delta [bind mathRandom ret newTree].
    set (tx := x config + cos (random n * PI * 2)
                 * (qmax (width config / 2) (depth config / 2) + 1.5
                    + random (S n)
                      * (15 - (qmax (width config / 2) (depth config / 2)
                               + 1.5)))).
    set (tz := z config + sin (random n * PI * 2)
                 * (qmax (width config / 2) (depth config / 2) + 1.5
                    + random (S n)
                      * (15 - (qmax (width config / 2) (depth config / 2)
                               + 1.5)))).
    assert (forall out : list Tree * nat,
              (Forall (Good config) (fst out) /\ Spaced (fst out) /\
               (Z.of_nat (List.length (fst out))
                <= Z.max targetCount (Z.of_nat (List.length trees)))%Z /\
               (snd out <= S (S n) + 5 * k)%nat /\
               exists more, fst out = trees ++ more) ->
              Forall (Good config) (fst out) /\ Spaced (fst out) /\
              (Z.of_nat (List.length (fst out))
               <= Z.max targetCount (Z.of_nat (List.length trees)))%Z /\
              (snd out <= n + 5 * S k)%nat /\
              exists more, fst out = trees ++ more) as Skip.
    { intros out (A & B & C & D & E). repeat split; try assumption. lia. }
    destruct (Js.gtb tx (x config - width config / 2 - 1)
              && Js.ltb tx (x config + width config / 2 + 1)
              && Js.gtb tz (z config - depth config / 2 - 1)
              && Js.ltb tz (z config + depth config / 2 + 1)) eqn:E1.
    { apply Skip, IH; assumption. }
    destruct (isTooCloseToRoadLoose tx tz) eqn:E2.
    { apply Skip, IH; assumption. }
    destruct (isInNoTreeZone tx tz) eqn:E3.
    { apply Skip, IH; assumption. }
    destruct (tooNear sqrt (map spot trees) tx tz) eqn:E4.
    { apply Skip, IH; assumption. }
    match goal with
    | |- context [trees ++ [?t]] => set (tree := t)
    end.
    assert (Good config tree) as Gt.
    { unfold Good, tree. cbn [treeX treeZ treeScale].
      pose proof (random_unit (S (S (S n)))) as [? ?].
      repeat split; try assumption; try lra.
      intros (A & B & C & D).
      apply JsFacts.gtb_gt in A, C. apply JsFacts.ltb_lt in B, D.
      rewrite A, B, C, D in E1. discriminate. }
    assert (Spaced (trees ++ [tree])) as St.
    { apply Spaced_snoc; [exact Sp|]. apply tooNear_apart. exact E4. }
    assert (Forall (Good config) (trees ++ [tree])) as Gs.
    { apply Forall_app. split; [exact G|]. constructor; [exact Gt|constructor]. }
    pose proof (IH (trees ++ [tree]) (S (S (S (S (S n))))) Gs St) as H.
    cbv zeta in H.
    replace (map spot (trees ++ [tree])) with (map spot trees ++ [(tx, tz)])
      in H by (rewrite map_app; reflexivity).
    replace (Z.of_nat (List.length (trees ++ [tree])))
      with (Z.of_nat (List.length trees) + 1)%Z in H
      by (rewrite length_app; cbn [List.length]; lia).
    destruct H as (A & B & C & D & (more & E)).
    repeat split; try assumption; try lia.
    exists (tree :: more). rewrite E, <- app_assoc. reflexivity.
Qed.
End Smart.

End SmartTreeFacts.

Section SmartTreeExtras.
Import Buildings BuildingsFacts Scenery SceneryFacts SmartTreeFacts.

(** X17.  The trees [addRandomTreesSmart] scatters around a building.
    For every run of [Math.random] in [0, 1), whatever [Math.cos],
    [Math.sin] and [Math.sqrt] return, and for [minCount <= maxCount]:
    the call ends within its 300 attempts having made at most 1501 draws
    and planted at most [maxCount] trees; every tree is outside the
    footprint padded by 1, passes the loose road test, is outside the
    no-tree zones and is scaled within [0.9, 1.5); and every tree passed
    the 1.5 spacing test against each tree planted before it. *)
Theorem X17_trees_around_building :
  forall (random : nat -> Q) (cos sin sqrt : Q -> Q) (PI : Q)
         (config : Config) (minCount maxCount : Z) (n : nat),
    (forall k, 0 <= random k /\ random k < 1) ->
    (minCount <= maxCount)%Z ->
    let out :=
      addRandomTreesSmart random cos sin sqrt PI config minCount maxCount n in
    (Z.of_nat (List.length (fst out)) <= Z.max maxCount 0)%Z /\
    (snd out <= n + 1501)%nat /\
    Forall (Good config) (fst out) /\
    Spaced sqrt (fst out).
Proof.
  intros random cos sin sqrt PI config minCount maxCount n Hr Hm.
  cbv zeta.
  change (addRandomTreesSmart random cos sin sqrt PI config minCount
            maxCount n)
    with (tryPlacing random cos sin sqrt PI 300 config
            (Js.floor (random n * inject_Z (maxCount - minCount + 1))
             + minCount)%Z [] 0%Z [] (S n)).
  set (targetCount :=
         (Js.floor (random n * inject_Z (maxCount - minCount + 1)) + minCount)%Z).
  assert (targetCount <= maxCount)%Z as Ht.
  { unfold targetCount, Js.floor.
    destruct (Hr n) as [H0 H1].
    assert (0 < inject_Z (maxCount - minCount + 1)) as Hk.
    { change 0 with (inject_Z 0). rewrite <- Zlt_Qlt. lia. }
    assert (random n * inject_Z (maxCount - minCount + 1)
            < inject_Z (maxCount - minCount + 1)) as Hlt by nra.
    pose proof (Qfloor_le (random n * inject_Z (maxCount - minCount + 1))) as F.
    assert (inject_Z (Qfloor (random n * inject_Z (maxCount - minCount + 1)))
            < inject_Z (maxCount - minCount + 1)) as F'
      by (eapply Qle_lt_trans; eassumption).
    rewrite <- Zlt_Qlt in F'. lia. }
  pose proof (tryPlacing_inv random Hr cos sin sqrt PI config targetCount
                300 [] (S n) (Forall_nil _)) as H.
  cbv zeta in H. cbn [map List.length Z.of_nat] in H.
  destruct H as (A & B & C & D & _).
  { intros i j a b _ Hi. destruct i; discriminate. }
  repeat split; try assumption; lia.
Qed.

(** Around the first skyscraper, with the cycling random source and
    constant stand-ins for the library functions. *)
Lemma X17_trees_around_building_witness :
  let out :=
    addRandomTreesSmart cycling (fun _ => 1) (fun _ => 0) (fun q => q) 3
      (mkConfig (-80) 80 14 38 14 None) 8%Z 15%Z 0%nat in
  (Z.of_nat (List.length (fst out)) <= Z.max 15 0)%Z /\
  (snd out <= 0 + 1501)%nat /\
  Forall (Good (mkConfig (-80) 80 14 38 14 None)) (fst out) /\
  Spaced (fun q => q) (fst out).
Proof.
  apply (X17_trees_around_building cycling (fun _ => 1) (fun _ => 0)
           (fun q => q) 3 (mkConfig (-80) 80 14 38 14 None) 8%Z 15%Z 0%nat
           cycling_unit).
  lia.
Defined.

End SmartTreeExtras.


Module StyleFacts.
Import Buildings BuildingsFacts Scenery.

(** The height bands of the generator: 20 to 30 in the centre, 10 to 18
    on the outskirts. *)
Definition Banded (c : Config) : Prop :=
  if Qle_bool (Qabs (x c)) 40 && Qle_bool (Qabs (z c)) 40
  then 20 <= height c /\ height c < 30
  else 10 <= height c /\ height c < 18.

Section Heights.
Variable random : nat -> Q.
Hypothesis random_unit : forall n, 0 <= random n /\ random n < 1.

Lemma generateCell_banded (gx gz : Q) (n : nat) :
  Forall Banded (fst (generateCell random gx gz n)).
Proof.
  unfold generateCell. destruct (isOccupied gx gz); [constructor|].
  unfold bind, mathRandom, ret. cbn [fst].
  constructor; [|constructor].
  unfold Banded. cbn [x z height].
  pose proof (random_unit n) as [? ?].
  destruct (Qle_bool (Qabs gx) 40 && Qle_bool (Qabs gz) 40); split; lra.
Qed.

Lemma generated_banded : Forall Banded (generatedBuildings random).
Proof.
  unfold generatedBuildings, generate.
  apply forEachGen_Forall. intros gx n.
  apply forEachGen_Forall. intros gz m. apply generateCell_banded.
Qed.
End Heights.

Lemma Banded_range (c : Config) : Banded c -> 10 <= height c /\ height c < 30.
Proof.
  unfold Banded.
  destruct (Qle_bool (Qabs (x c)) 40 && Qle_bool (Qabs (z c)) 40);
    intros [? ?]; split; lra.
Qed.

Lemma skyscrapers_heights :
  Forall (fun c => 33 <= height c /\ height c <= 45) skyscrapers.
Proof. repeat constructor; cbn; lra. Qed.

End StyleFacts.

Section StyleExtras.
Import Buildings BuildingsFacts Scenery StyleFacts.

(** X18.  No building of the city is tiered.  For every run of
    [Math.random] in [0, 1): a generated building in the centre (both
    coordinates within 40) is 20 to 30 high and one on the outskirts 10 to
    18; every configuration handed to the [Building] constructor is at
    least 10 and at most 45 high, so the constructor's tiered test fails
    for it after the single draw of its style value. *)
Theorem X18_no_building_is_tiered :
  forall (random : nat -> Q),
    (forall n, 0 <= random n /\ random n < 1) ->
    Forall Banded (mediumBuildings random) /\
    forall c,
      In c (roadsideBuildings ++ mediumBuildings random ++ skyscrapers) ->
      10 <= height c /\ height c <= 45 /\
      forall n, isTiered random (height c) n = (false, S n).
Proof.
  intros random Hr.
  pose proof (generated_banded random Hr) as B.
  split; [exact B|]. intros c Hc.
  assert (10 <= height c /\ height c <= 45) as [H1 H2].
  { unfold roadsideBuildings, mediumBuildings in Hc. cbn [app] in Hc.
    apply in_app_or in Hc. destruct Hc as [Hc | Hc].
    - rewrite Forall_forall in B. apply B, Banded_range in Hc. lra.
    - pose proof skyscrapers_heights as K. rewrite Forall_forall in K.
      apply K in Hc. lra. }
  repeat split; try assumption. intros n.
  unfold isTiered, bind, mathRandom, ret.
  assert (Js.gtb (height c) 50 = false) as E by (apply JsFacts.gtb_le; lra).
  rewrite E. reflexivity.
Qed.

(** The first skyscraper under the cycling random source. *)
Lemma X18_no_building_is_tiered_witness :
  isTiered cycling 38 0%nat = (false, 1%nat).
Proof.
  destruct (X18_no_building_is_tiered cycling cycling_unit) as [_ H].
  destruct (H (mkConfig (-80) 80 14 38 14 (Some 0x9e9e9e%Z))) as (_ & _ & T).
  - apply in_or_app. right. apply in_or_app. right. left. reflexivity.
  - exact (T 0%nat).
Defined.

End StyleExtras.

Module StripeFacts.
Import Buildings Scenery.

Lemma stripes_forever (fuel : nat) :
  forall (x xEnd step : Q),
    step <= 0 -> x <= xEnd -> stripes fuel x xEnd step = None.
Proof.
  induction fuel as [|k IH]; intros x xEnd step Hs Hx; [reflexivity|].
  cbn [stripes].
  assert (Qle_bool x xEnd = true) as E by (apply Qle_bool_iff; exact Hx).
  rewrite E, IH; [reflexivity|exact Hs|lra].
Qed.

End StripeFacts.

Module DoubleStripeFacts.
Import ZebraCross.

(** More turns change nothing once the loop has ended. *)
Lemma stripes_more (fuel : nat) :
  forall (x xEnd step : PrimFloat.float) (l : list PrimFloat.float),
    stripes fuel x xEnd step = Some l ->
    forall more, stripes (fuel + more) x xEnd step = Some l.
Proof.
  induction fuel as [|k IH]; intros x xEnd step l H more; [discriminate|].
  cbn [stripes Nat.add] in *. destruct (PrimFloat.leb x xEnd); [|exact H].
  destruct (stripes k (PrimFloat.add x step) xEnd step) as [rest|] eqn:R;
    [|discriminate].
  rewrite (IH _ _ _ _ R more). exact H.
Qed.

(** A start the step cannot move: the loop goes round for ever. *)
Lemma stripes_stuck (x xEnd step : PrimFloat.float) :
  PrimFloat.leb x xEnd = true -> PrimFloat.add x step = x ->
  forall fuel, stripes fuel x xEnd step = None.
Proof.
  intros Hle Hadd fuel. induction fuel as [|k IH]; [reflexivity|].
  cbn [stripes]. rewrite Hle, Hadd, IH. reflexivity.
Qed.

(** The stripes lie between the two ends. *)
Definition within (lo hi : PrimFloat.float) (l : list PrimFloat.float)
    : bool :=
  forallb (fun v => PrimFloat.leb lo v && PrimFloat.leb v hi) l.

End DoubleStripeFacts.

Section StripeExtras.
Import PrimFloat.
Import Buildings Scenery StripeFacts.

(** X19.  The stripe loop of [ZebraCross] in the doubles the code
    computes with.  For each of the five crossings [initWorld] lays, with
    the default step, the loop ends: from 20 turns on it gives the same
    stripes, 12, 13, 11, 13 and 13 of them, all between [xStart] and
    [xEnd], and these are the counts exact arithmetic gives.  A positive
    step alone guarantees neither the count nor the end: from 1 to 7 the
    loop lays 5 stripes where exact arithmetic counts 6, because the fifth
    addition overshoots 7, and from 1e16 with step 1 it never ends,
    because [x + 1] rounds back to [x]. *)
Theorem X19_stripes_in_doubles :
  (forall c, In c ZebraCross.crossings ->
     exists l,
       (forall more,
          ZebraCross.stripes (20 + more) (fst c) (snd c)
            ZebraCross.defaultStep = Some l) /\
       DoubleStripeFacts.within (fst c) (snd c) l = true) /\
  map (fun c =>
         option_map (@List.length PrimFloat.float)
           (ZebraCross.stripes 20 (fst c) (snd c) ZebraCross.defaultStep))
    ZebraCross.crossings
  = [Some 12; Some 13; Some 11; Some 13; Some 13]%nat /\
  map (fun c =>
         let '(xStart, xEnd, _) := c in
         List.length (forRange xStart xEnd defaultStep))
    crossings
  = [12; 13; 11; 13; 13]%nat /\
  option_map (@List.length PrimFloat.float)
    (ZebraCross.stripes 20 1%float 7%float ZebraCross.defaultStep)
  = Some 5%nat /\
  List.length (forRange 1 7 defaultStep) = 6%nat /\
  (forall fuel,
     ZebraCross.stripes fuel 10000000000000000%float 10000000000000004%float
       1%float = None).
Proof.
  split.
  { intros c Hc. cbn [ZebraCross.crossings In] in Hc.
    repeat (destruct Hc as [<- | Hc];
            [ match goal with
              | |- context [ZebraCross.stripes _ ?a ?b ?s] =>
                  destruct (ZebraCross.stripes 20 a b s) as [l|] eqn:E;
                  [|vm_compute in E; discriminate]
              end;
              exists l; split;
              [ intros more; apply DoubleStripeFacts.stripes_more; exact E
              | vm_compute in E; injection E as <-; vm_compute; reflexivity ]
            | ]).
    destruct Hc. }
  split; [vm_compute; reflexivity|].
  split; [vm_compute; reflexivity|].
  split; [vm_compute; reflexivity|].
  split; [vm_compute; reflexivity|].
  apply DoubleStripeFacts.stripes_stuck; vm_compute; reflexivity.
Qed.

(** X20.  The stripe loop of [ZebraCross] never ends for a step that is
    zero or negative when [xStart <= xEnd]: no number of turns is
    enough. *)
Theorem X20_stripes_never_end :
  forall (xStart xEnd step : Q) (fuel : nat),
    step <= 0 -> xStart <= xEnd ->
    stripes fuel xStart xEnd step = None.
Proof.
  intros xStart xEnd step fuel Hs Hx. apply stripes_forever; assumption.
Qed.

Lemma X20_stripes_never_end_witness :
  stripes 1000%nat 13 27 0 = None.
Proof.
  apply (X20_stripes_never_end 13 27 0 1000%nat); discriminate.
Defined.

End StripeExtras.


Module QuizFacts.
Import Quiz.
Local Open Scope Z_scope.

Lemma get_put_same {A : Type} (o : list (string * A)) (id : string) (v : A) :
  get (put o id v) id = Some v.
Proof.
  induction o as [|[k w] rest IH]; cbn.
  - rewrite String.eqb_refl. reflexivity.
  - destruct (String.eqb k id) eqn:E; cbn; rewrite E; auto.
Qed.

Lemma get_put_other {A : Type} (o : list (string * A)) (id id' : string)
    (v : A) :
  id' <> id -> get (put o id v) id' = get o id'.
Proof.
  intros N. induction o as [|[k w] rest IH]; cbn.
  - destruct (String.eqb id id') eqn:E; [|reflexivity].
    apply String.eqb_eq in E. congruence.
  - destruct (String.eqb k id) eqn:E; cbn.
    + apply String.eqb_eq in E. subst k.
      destruct (String.eqb id id') eqn:E'; [|reflexivity].
      apply String.eqb_eq in E'. congruence.
    + destruct (String.eqb k id'); auto.
Qed.

Lemma put_keys {A : Type} (o : list (string * A)) (id : string) (v : A) :
  map fst (put o id v)
  = if existsb (String.eqb id) (map fst o) then map fst o
    else map fst o ++ [id].
Proof.
  induction o as [|[k w] rest IH]; cbn; [reflexivity|].
  rewrite (String.eqb_sym id k).
  destruct (String.eqb k id) eqn:E; cbn; [reflexivity|].
  rewrite IH. destruct (existsb (String.eqb id) (map fst rest)); reflexivity.
Qed.

Lemma put_NoDup {A : Type} (o : list (string * A)) (id : string) (v : A) :
  NoDup (map fst o) -> NoDup (map fst (put o id v)).
Proof.
  intros N. rewrite put_keys.
  destruct (existsb (String.eqb id) (map fst o)) eqn:E; [exact N|].
  apply NoDup_app; [exact N|repeat constructor; intros []|].
  intros k Hk [E' | []]. subst k.
  assert (existsb (String.eqb id) (map fst o) = true) as T.
  { apply existsb_exists. exists id. split; [exact Hk|apply String.eqb_refl]. }
  congruence.
Qed.

Lemma put_incl {A : Type} (o : list (string * A)) (id : string) (v : A)
    (keys : list string) :
  incl (map fst o) keys -> In id keys -> incl (map fst (put o id v)) keys.
Proof.
  intros I Hid. rewrite put_keys.
  destruct (existsb (String.eqb id) (map fst o)); [exact I|].
  apply incl_app; [exact I|]. intros k [<- | []]. exact Hid.
Qed.

Lemma put_Forall {A : Type} (P : A -> Prop) (o : list (string * A))
    (id : string) (v : A) :
  Forall (fun kv => P (snd kv)) o -> P v ->
  Forall (fun kv => P (snd kv)) (put o id v).
Proof.
  intros F Pv. induction o as [|[k w] rest IH]; cbn.
  - repeat constructor. exact Pv.
  - inversion F as [|? ? Pw Fr]; subst.
    destruct (String.eqb k id); constructor; auto.
Qed.

(** The right answers are counted, none twice. *)
Lemma grade_bounds (group : nat -> list Radio) (data : list Item) :
  forall index,
    0 <= snd (grade group index data) <= Z.of_nat (List.length data).
Proof.
  induction data as [|item rest IH]; intros index; cbn [grade].
  - cbn. lia.
  - specialize (IH (S index)).
    destruct (grade group (S index) rest) as [answers correct].
    cbn [snd List.length] in *.
    destruct (chosen (group index) =? c item); lia.
Qed.

(** Full marks mean that every question was answered with its key. *)
Lemma grade_full (group : nat -> list Radio) (data : list Item) :
  forall index,
    snd (grade group index data) = Z.of_nat (List.length data) ->
    forall k item, nth_error data k = Some item ->
      chosen (group (index + k)%nat) = c item.
Proof.
  induction data as [|item rest IH]; intros index H k it Hk.
  - destruct k; discriminate.
  - cbn [grade] in H. pose proof (grade_bounds group rest (S index)) as B.
    specialize (IH (S index)).
    destruct (grade group (S index) rest) as [answers correct].
    cbn [snd List.length] in *.
    destruct (chosen (group index) =? c item) eqn:E; [|lia].
    destruct k as [|k].
    + cbn in Hk. injection Hk as <-. rewrite Nat.add_0_r.
      apply Z.eqb_eq. exact E.
    + cbn in Hk. replace (index + S k)%nat with (S index + k)%nat by lia.
      apply IH; [lia|exact Hk].
Qed.

(** A question left blank is never right: every key is an option index. *)
Lemma keys_in_range (id : string) (data : list Item) :
  get quizData id = Some data ->
  In id SIGN_IDS /\ List.length data = 5%nat /\
  Forall (fun item => 0 <= c item < Z.of_nat (a item)) data.
Proof.
  unfold quizData. cbn [get].
  repeat
    (match goal with
     | |- (if String.eqb ?k id then _ else _) = _ -> _ =>
         destruct (String.eqb k id) eqn:E;
         [ apply String.eqb_eq in E; subst id; intros [= <-];
           split; [cbn; tauto|];
           split; [reflexivity|repeat constructor; cbn; lia]
         | clear E ]
     end).
  discriminate.
Qed.

Lemma SIGN_IDS_have_quizzes (id : string) :
  In id SIGN_IDS -> exists data, get quizData id = Some data.
Proof.
  cbn. intros H.
  repeat (destruct H as [<- | H]; [eexists; reflexivity|]).
  destruct H.
Qed.

Lemma blank_grade (data : list Item) :
  Forall (fun item => 0 <= c item) data ->
  forall index, snd (grade (fun _ => []) index data) = 0.
Proof.
  induction 1 as [|item rest Hc _ IH]; intros index; cbn [grade];
    [reflexivity|].
  specialize (IH (S index)).
  destruct (grade (fun _ => []) (S index) rest) as [answers correct].
  cbn [snd] in *. unfold chosen. cbn [find].
  destruct (-1 =? c item) eqn:E; [apply Z.eqb_eq in E; lia|lia].
Qed.

Lemma total_bounds (scores : list (string * Z)) (hi : Z) :
  Forall (fun kv => 0 <= snd kv <= hi) scores ->
  forall acc,
    acc <= fold_left (fun total kv => total + snd kv) scores acc
        <= acc + hi * Z.of_nat (List.length scores).
Proof.
  induction 1 as [|kv rest H _ IH]; intros acc; cbn [fold_left List.length].
  - lia.
  - specialize (IH (acc + snd kv)). lia.
Qed.

(** The state a session keeps. *)
Definition Sound (st : State) : Prop :=
  NoDup (map fst (signScores st)) /\
  incl (map fst (signScores st)) SIGN_IDS /\
  Forall (fun kv => exists k, snd kv = 2 * k /\ 0 <= k <= 5) (signScores st) /\
  hud st = updateHud (signScores st) /\
  missionBox st = updateMissionBox (signStates st) /\
  signChecklist st = updateSignChecklist (signStates st).

Lemma initial_Sound : Sound initial.
Proof.
  unfold Sound, initial. cbn [signScores signStates hud missionBox
    signChecklist map].
  split; [constructor|]. split; [intros k []|]. split; [constructor|].
  repeat split.
Qed.

Lemma finishQuiz_Sound (form : Form) (id : string) (st : State) :
  Sound st -> Sound (finishQuiz form id st).
Proof.
  intros (N & I & F & H & M & L). unfold finishQuiz.
  destruct (get quizData id) as [data|] eqn:D; [|repeat split; assumption].
  destruct (keys_in_range id data D) as (Hid & Hlen & _).
  pose proof (grade_bounds (form id) data 0) as B.
  destruct (grade (form id) 0 data) as [answers correct].
  cbn [snd] in B. rewrite Hlen in B.
  unfold Sound. cbn [signScores signStates hud missionBox signChecklist].
  repeat split.
  - apply put_NoDup. exact N.
  - apply put_incl; assumption.
  - apply (put_Forall (fun v => exists k, v = 2 * k /\ 0 <= k <= 5));
      [exact F|]. exists correct. split; lia.
Qed.

Lemma session_Sound (quizzes : list (string * Form)) :
  forall st, Sound st -> Sound (session quizzes st).
Proof.
  induction quizzes as [|[id form] rest IH]; intros st S; [exact S|].
  cbn [session]. apply IH, finishQuiz_Sound, S.
Qed.

Lemma finishQuiz_keeps (form : Form) (id id' : string) (st : State) :
  truthy (get (signStates st) id') = true ->
  truthy (get (signStates (finishQuiz form id st)) id') = true.
Proof.
  intros T. unfold finishQuiz.
  destruct (get quizData id) as [data|]; [|exact T].
  destruct (grade (form id) 0 data) as [answers correct].
  cbn [signStates].
  destruct (correct =? Z.of_nat (List.length data)); [|exact T].
  destruct (string_dec id' id) as [-> | N].
  - rewrite get_put_same. reflexivity.
  - rewrite get_put_other by exact N. exact T.
Qed.

Lemma session_keeps (quizzes : list (string * Form)) (id' : string) :
  forall st,
    truthy (get (signStates st) id') = true ->
    truthy (get (signStates (session quizzes st)) id') = true.
Proof.
  induction quizzes as [|[id form] rest IH]; intros st T; [exact T|].
  cbn [session]. apply IH, finishQuiz_keeps, T.
Qed.

(** The mission count reaches the number of signs only if every sign
    counts. *)
Lemma completed_bounds (states : list (string * bool)) (ids : list string) :
  forall acc,
    let completed :=
      fold_left
        (fun completed id =>
           if truthy (get states id) then completed + 1 else completed)
        ids acc in
    acc <= completed <= acc + Z.of_nat (List.length ids) /\
    (completed = acc + Z.of_nat (List.length ids) <->
     forall id, In id ids -> truthy (get states id) = true).
Proof.
  induction ids as [|id rest IH]; intros acc; cbv zeta.
  - cbn. split; [lia|]. split; [intros _ ? []|lia].
  - cbn [fold_left List.length].
    destruct (truthy (get states id)) eqn:T.
    + specialize (IH (acc + 1)). cbv zeta in IH. destruct IH as [B E].
      split; [lia|]. split.
      * intros H id' [<- | Hin]; [exact T|]. apply E; [lia|exact Hin].
      * intros H. assert (forall i, In i rest -> truthy (get states i) = true)
          as H' by (intros i Hi; apply H; right; exact Hi).
        apply E in H'. lia.
    + specialize (IH acc). cbv zeta in IH. destruct IH as [B E].
      split; [lia|]. split.
      * intros H. lia.
      * intros H. specialize (H id (or_introl eq_refl)). congruence.
Qed.

End QuizFacts.

Section QuizExtras.
Import Quiz QuizFacts.
Local Open Scope Z_scope.

(** X21.  The score panel stays within its bounds.  After any session of
    quizzes handed in, for any signs and with any forms, every stored
    score belongs to a sign of [SIGN_IDS] and is an even number from 0 to
    10, no sign is stored twice, and the HUD shows the sum of the stored
    scores, between 0 and the maximum of 100 it prints beside it. *)
Theorem X21_score_within_bounds :
  forall (quizzes : list (string * Form)),
    let st := session quizzes initial in
    NoDup (map fst (signScores st)) /\
    Forall
      (fun kv =>
         In (fst kv) SIGN_IDS /\ exists k, snd kv = 2 * k /\ 0 <= k <= 5)
      (signScores st) /\
    hud st = updateHud (signScores st) /\
    snd (hud st) = 100 /\
    0 <= fst (hud st) <= snd (hud st).
Proof.
  intros quizzes st.
  destruct (session_Sound quizzes initial initial_Sound)
    as (N & I & F & H & _). fold st in N, I, F, H.
  split; [exact N|]. split.
  { rewrite Forall_forall in *. intros kv Hkv. split; [|apply F, Hkv].
    apply I, in_map, Hkv. }
  split; [exact H|]. rewrite H. unfold updateHud. cbn [fst snd].
  split; [reflexivity|].
  change (getTotalQuizQuestions * 2) with 100.
  assert (Forall (fun kv : string * Z => 0 <= snd kv <= 10) (signScores st))
    as F'.
  { eapply Forall_impl; [|exact F]. cbv beta. intros kv (k & -> & Hk). lia. }
  pose proof (total_bounds (signScores st) 10 F' 0) as T.
  pose proof (NoDup_incl_length N I) as L.
  rewrite length_map in L. change (List.length SIGN_IDS) with 10%nat in L.
  lia.
Qed.

(** X22.  Mastery is permanent and has to be earned.  A sign shown as
    done stays done whatever quiz is handed in next; a sign becomes done
    only by its own quiz with every question answered by its key; and
    handing in a blank form for a sign sets its score to 0 and leaves
    every sign's mastery as it was, so a mastered sign can score 0. *)
Theorem X22_mastery_is_permanent :
  forall (form : Form) (id id' : string) (st : State),
    (truthy (get (signStates st) id') = true ->
     truthy (get (signStates (finishQuiz form id st)) id') = true) /\
    (truthy (get (signStates st) id') = false ->
     truthy (get (signStates (finishQuiz form id st)) id') = true ->
     id' = id /\
     exists data, get quizData id = Some data /\
       forall k item, nth_error data k = Some item ->
         chosen (form id k) = c item) /\
    (forall data, get quizData id = Some data ->
     get (signScores (finishQuiz (fun _ _ => []) id st)) id = Some 0 /\
     signStates (finishQuiz (fun _ _ => []) id st) = signStates st).
Proof.
  intros form id id' st. split; [apply finishQuiz_keeps|]. split.
  - intros T0 T1. unfold finishQuiz in T1.
    destruct (get quizData id) as [data|] eqn:D; [|congruence].
    pose proof (grade_full (form id) data 0%nat) as G.
    destruct (grade (form id) 0 data) as [answers correct].
    cbn [signStates snd] in *.
    destruct (correct =? Z.of_nat (List.length data)) eqn:E; [|congruence].
    apply Z.eqb_eq in E.
    destruct (string_dec id' id) as [-> | N].
    + split; [reflexivity|]. exists data. split; [reflexivity|].
      intros k item Hk. exact (G E k item Hk).
    + rewrite get_put_other in T1 by exact N. congruence.
  - intros data D. unfold finishQuiz. rewrite D.
    destruct (keys_in_range id data D) as (_ & Hlen & Hc).
    pose proof (blank_grade data) as B.
    assert (Forall (fun item => 0 <= c item) data) as Hc'
      by (eapply Forall_impl; [|exact Hc]; cbv beta; intros; lia).
    specialize (B Hc' 0%nat).
    destruct (grade (fun _ => []) 0 data) as [answers correct].
    cbn [snd] in B. subst correct. cbn [signScores signStates].
    rewrite get_put_same, Hlen. split; reflexivity.
Qed.

(** X23.  Every sign can be mastered from the form [startQuiz] writes:
    ticking, in each question, the option numbered by its key gives the
    sign 10 points and marks it done, from any state. *)
Theorem X23_every_sign_can_be_mastered :
  forall (id : string) (st : State),
    In id SIGN_IDS ->
    exists data,
      get quizData id = Some data /\
      let form :=
        fun _ : string =>
          tick (fun index =>
                  option_map (fun item => Z.to_nat (c item))
                    (nth_error data index))
            (startQuiz id) in
      get (signScores (finishQuiz form id st)) id = Some 10 /\
      truthy (get (signStates (finishQuiz form id st)) id) = true.
Proof.
  intros id st H. cbn in H.
  repeat
    (destruct H as [<- | H];
     [ eexists; split; [reflexivity|]; cbv zeta; unfold finishQuiz;
       match goal with
       | |- context [get quizData ?i] =>
           let d := eval vm_compute in (get quizData i) in
           change (get quizData i) with d
       end;
       cbv beta iota;
       match goal with
       | |- context [grade ?g 0 ?d] =>
           let r := eval vm_compute in (grade g 0 d) in
           change (grade g 0 d) with r
       end;
       cbv beta iota; cbn [signScores signStates];
       match goal with
       | |- context [?x =? Z.of_nat (List.length ?d)] =>
           change (x =? Z.of_nat (List.length d)) with true
       end;
       cbv iota; rewrite !get_put_same; split; reflexivity
     | ]).
  destruct H.
Qed.

(** Parking, from the initial state. *)
Lemma X23_every_sign_can_be_mastered_witness :
  exists data,
    get quizData "parking" = Some data /\
    let form :=
      fun _ : string =>
        tick (fun index =>
                option_map (fun item => Z.to_nat (c item))
                  (nth_error data index))
          (startQuiz "parking") in
    get (signScores (finishQuiz form "parking" initial)) "parking" = Some 10 /\
    truthy (get (signStates (finishQuiz form "parking" initial)) "parking")
    = true.
Proof.
  apply (X23_every_sign_can_be_mastered "parking" initial).
  left. reflexivity.
Defined.

(** X24.  The mission box announces completion exactly when every sign of
    [SIGN_IDS] is mastered; otherwise it shows a count below 10, out of
    10. *)
Theorem X24_mission_complete_iff_all_mastered :
  forall (signStates : list (string * bool)),
    (updateMissionBox signStates = AllLearned <->
     forall id, In id SIGN_IDS -> truthy (get signStates id) = true) /\
    (forall completed total,
       updateMissionBox signStates = Learn completed total ->
       0 <= completed < 10 /\ total = 10).
Proof.
  intros states. unfold updateMissionBox. cbv zeta.
  destruct (completed_bounds states SIGN_IDS 0) as [B E]. cbv zeta in B, E.
  set (completed :=
         fold_left
           (fun completed id =>
              if truthy (get states id) then completed + 1 else completed)
           SIGN_IDS 0) in *.
  change (Z.of_nat (List.length SIGN_IDS)) with 10 in *.
  destruct (completed =? 10) eqn:C.
  - apply Z.eqb_eq in C. split.
    + split; [intros _; apply E; lia|reflexivity].
    + intros ? ? [=].
  - apply Z.eqb_neq in C. split.
    + split; [intros [=]|]. intros H. apply E in H. lia.
    + intros ? ? [= <- <-]. lia.
Qed.

End QuizExtras.


Module GameFacts.
Import Controls Game.

(** What every event keeps. *)
Definition Steady (clockEl : option string) (w : World) : Prop :=
  (0 <= timeOfDay (player w) /\ timeOfDay (player w) < 1) /\
  InCity (pos (player w)) /\
  Vector3.y (pos (player w)) = 2 /\
  Forall JunctionFacts.Cycling (trafficLights w) /\
  List.length (trafficLights w) = 5%nat /\
  (clockEl <> None -> gameClock w <> None).

Lemma init_Steady (sky0 : Lighting.State) (clockEl : option string) :
  Steady clockEl (init sky0 clockEl).
Proof.
  unfold Steady, init. cbn [player trafficLights gameClock].
  split; [split; vm_compute; congruence|].
  split; [repeat split; vm_compute; congruence|].
  split; [reflexivity|]. split; [|split; [reflexivity|auto]].
  unfold Junctions.initTrafficLights. apply Forall_map, Forall_forall.
  intros p _. split; [left; reflexivity|apply Qle_refl].
Qed.

Lemma tick_phase (delta : Q) (c : State) :
  0 <= delta -> 0 <= timeOfDay c /\ timeOfDay c < 1 ->
  0 <= timeOfDay (Lighting.tick delta c)
  /\ timeOfDay (Lighting.tick delta c) < 1.
Proof.
  intros Hd [H0 H1]. unfold Lighting.tick.
  destruct (dayNightAuto c); [|split; assumption].
  cbn [setTimeOfDay timeOfDay].
  apply LightingFacts.rem1_nonneg.
  unfold Lighting.cycleSpeed. nra.
Qed.

Lemma updateDayNight_player (delta : Q) (c : State) (l : Lighting.State) :
  fst (Lighting.updateDayNight delta c l) = c \/
  fst (Lighting.updateDayNight delta c l) = Lighting.tick delta c.
Proof.
  unfold Lighting.updateDayNight.
  destruct (Lighting.hemiLight l), (Lighting.sunLight l); auto.
Qed.

Lemma tick_pos (delta : Q) (c : State) : pos (Lighting.tick delta c) = pos c.
Proof. unfold Lighting.tick. destruct (dayNightAuto c); reflexivity. Qed.

Section Loop.
Variable sqrt : Q -> Q.
Variable colliders : list Collider.t.

Lemma moved_Steady (delta : Q) (s : State) :
  InCity (pos s) -> Vector3.y (pos s) = 2 ->
  InCity (pos (updateMovement sqrt colliders delta s)) /\
  Vector3.y (pos (updateMovement sqrt colliders delta s)) = 2.
Proof.
  intros Hc Hy. unfold updateMovement.
  destruct (controls s); [|split; assumption].
  split; [apply ControlsFacts.clampToCity_InCity|].
  rewrite MovementFacts.clampToCity_height. reflexivity.
Qed.

Lemma animate_player (delta : Q) (w : World) :
  player (animate sqrt colliders delta w)
  = fst (Lighting.updateDayNight delta
           (updateMovement sqrt colliders delta (player w)) (sky w)) /\
  trafficLights (animate sqrt colliders delta w)
  = TrafficLights.updateTrafficLights delta (trafficLights w) /\
  gameClock (animate sqrt colliders delta w)
  = Clock.updateGameClock (gameClock w)
      (player (animate sqrt colliders delta w)).
Proof.
  unfold animate.
  destruct (Lighting.updateDayNight delta
              (updateMovement sqrt colliders delta (player w)) (sky w)).
  repeat split.
Qed.

Lemma animate_Steady (clockEl : option string) (delta : Q) (w : World) :
  0 <= delta -> Steady clockEl w ->
  Steady clockEl (animate sqrt colliders delta w) /\
  Forall JunctionFacts.Showing (trafficLights (animate sqrt colliders delta w)) /\
  gameClock (animate sqrt colliders delta w)
  = option_map
      (fun _ => Clock.clockText
                  (timeOfDay (player (animate sqrt colliders delta w))))
      (gameClock w).
Proof.
  intros Hd (Hp & Hc & Hy & Hl & Hn & Hk).
  destruct (animate_player delta w) as (Ep & El & Ek).
  pose proof (MovementFacts.updateMovement_untouched sqrt colliders delta
                (player w)) as U.
  unfold MovementFacts.untouched in U. injection U as Ut _ _.
  destruct (moved_Steady delta (player w) Hc Hy) as [Mc My].
  assert (Forall JunctionFacts.Showing
            (TrafficLights.updateTrafficLights delta (trafficLights w))) as S.
  { unfold TrafficLights.updateTrafficLights. apply Forall_map.
    eapply Forall_impl; [|exact Hl]. intros l Cl.
    apply JunctionFacts.updateLight_Showing; assumption. }
  assert (gameClock (animate sqrt colliders delta w)
          = option_map
              (fun _ => Clock.clockText
                          (timeOfDay (player (animate sqrt colliders delta w))))
              (gameClock w)) as K.
  { rewrite Ek. unfold Clock.updateGameClock.
    destruct (gameClock w); reflexivity. }
  split; [|split; [rewrite El; exact S|exact K]].
  unfold Steady. rewrite El.
  assert ((0 <= timeOfDay (player (animate sqrt colliders delta w)) /\
           timeOfDay (player (animate sqrt colliders delta w)) < 1) /\
          pos (player (animate sqrt colliders delta w))
          = pos (updateMovement sqrt colliders delta (player w)))
    as [P Epos].
  { rewrite Ep.
    destruct (updateDayNight_player delta
                (updateMovement sqrt colliders delta (player w)) (sky w))
      as [E | E]; rewrite E.
    - rewrite Ut. split; [exact Hp|reflexivity].
    - split; [apply tick_phase; [exact Hd|rewrite Ut; exact Hp]
             |apply tick_pos]. }
  rewrite Epos. split; [exact P|]. split; [exact Mc|]. split; [exact My|].
  split; [|split].
  - eapply Forall_impl; [|exact S]. apply JunctionFacts.Showing_Cycling.
  - unfold TrafficLights.updateTrafficLights. rewrite length_map. exact Hn.
  - intros Hne. rewrite K. specialize (Hk Hne).
    destruct (gameClock w); [discriminate|congruence].
Qed.

Lemma step_Steady (clockEl : option string) (e : Event) (w : World) :
  (forall d, e = Frame d -> 0 <= d) ->
  Steady clockEl w -> Steady clockEl (step sqrt colliders e w).
Proof.
  intros Hd S. destruct e as [delta | k | k | r u]; cbn [step].
  - apply animate_Steady; [apply Hd; reflexivity|exact S].
  - destruct S as (Hp & Hc & Hy & Hl & Hn & Hk). unfold Steady.
    cbn [player trafficLights gameClock].
    assert (pos (onKeyDown k (player w)) = pos (player w)) as E
      by (destruct k; reflexivity).
    rewrite E. split; [|tauto].
    destruct k; cbn [onKeyDown setFlags setTimeOfDay setDayNightAuto
                     timeOfDay]; try exact Hp; split; vm_compute; congruence.
  - destruct S as (Hp & Hc & Hy & Hl & Hn & Hk). unfold Steady.
    cbn [player trafficLights gameClock].
    assert (pos (onKeyUp k (player w)) = pos (player w)) as E
      by (destruct k; reflexivity).
    assert (timeOfDay (onKeyUp k (player w)) = timeOfDay (player w)) as T
      by (destruct k; reflexivity).
    rewrite E, T. tauto.
  - exact S.
Qed.

Lemma play_Steady (clockEl : option string) (events : list Event) :
  (forall d, In (Frame d) events -> 0 <= d) ->
  forall w, Steady clockEl w -> Steady clockEl (play sqrt colliders events w).
Proof.
  induction events as [|e rest IH]; intros Hd w S; [exact S|].
  cbn [play]. apply IH.
  - intros d Hin. apply Hd. right. exact Hin.
  - apply step_Steady; [|exact S]. intros d ->. apply Hd. left. reflexivity.
Qed.

Lemma play_app (pre post : list Event) (w : World) :
  play sqrt colliders (pre ++ post) w
  = play sqrt colliders post (play sqrt colliders pre w).
Proof.
  revert w. induction pre as [|e rest IH]; intros w; [reflexivity|].
  cbn [play app]. apply IH.
Qed.
End Loop.

End GameFacts.

Section GameExtras.
Import Controls Game GameFacts.

(** X25.  What the game loop keeps.  Start from [init] and let frames
    with non-negative [delta], key presses, key releases and turns of the
    camera follow one another in any order, with any colliders and any
    [Math.sqrt].  Then the phase of the day stays in [0, 1), the player
    stays inside the city limits at eye height 2 and there are five
    traffic lights.  Right after a frame every traffic light shows exactly
    the lamp of its state with its timer within that state's duration,
    and the clock element, if the page has one, reads HH:MM for the
    current phase with HH below 24 and MM below 60. *)
Theorem X25_game_loop_keeps_state_sane :
  forall (sqrt : Q -> Q) (colliders : list Collider.t)
         (sky0 : Lighting.State) (clockEl : option string)
         (events : list Event),
    (forall d, In (Frame d) events -> 0 <= d) ->
    let w := play sqrt colliders events (init sky0 clockEl) in
    (0 <= timeOfDay (player w) /\ timeOfDay (player w) < 1) /\
    InCity (pos (player w)) /\
    Vector3.y (pos (player w)) = 2 /\
    List.length (trafficLights w) = 5%nat /\
    (forall pre d, events = pre ++ [Frame d] ->
       Forall JunctionFacts.Showing (trafficLights w) /\
       (clockEl <> None ->
        exists hours minutes,
          (0 <= hours < 24)%Z /\ (0 <= minutes < 60)%Z /\
          gameClock w
          = Some (Clock.twoDigits hours ++ ":" ++ Clock.twoDigits minutes)%string /\
          Clock.clockText (timeOfDay (player w))
          = (Clock.twoDigits hours ++ ":" ++ Clock.twoDigits minutes)%string)).
Proof.
  intros sqrt colliders sky0 clockEl events Hd w.
  pose proof (play_Steady sqrt colliders clockEl events Hd _
                (init_Steady sky0 clockEl)) as S. fold w in S.
  destruct S as (Hp & Hc & Hy & _ & Hn & _).
  split; [exact Hp|]. split; [exact Hc|]. split; [exact Hy|].
  split; [exact Hn|]. intros pre d E.
  assert (forall x, In (Frame x) pre -> 0 <= x) as Hpre.
  { intros x Hx. apply Hd. rewrite E. apply in_or_app. left. exact Hx. }
  assert (0 <= d) as Hd0.
  { apply Hd. rewrite E. apply in_or_app. right. left. reflexivity. }
  pose proof (play_Steady sqrt colliders clockEl pre Hpre _
                (init_Steady sky0 clockEl)) as S.
  assert (w = animate sqrt colliders d
                (play sqrt colliders pre (init sky0 clockEl))) as Ew.
  { unfold w. rewrite E, play_app. reflexivity. }
  destruct (animate_Steady sqrt colliders clockEl d _ Hd0 S) as (_ & L & K).
  rewrite <- Ew in L, K. split; [exact L|]. intros Hne.
  destruct Hp as [H0 H1].
  destruct (ClockFacts.clockText_digits (timeOfDay (player w)) H0 H1)
    as (Hh & Hm & T).
  eexists _, _. split; [exact Hh|]. split; [exact Hm|]. split; [|exact T].
  rewrite K. destruct S as (_ & _ & _ & _ & _ & Sk). specialize (Sk Hne).
  destruct (gameClock (play sqrt colliders pre (init sky0 clockEl)));
    [|congruence].
  cbn [option_map]. rewrite T. reflexivity.
Qed.

(** Two frames around a press of key 3, then a release. *)
Lemma X25_game_loop_keeps_state_sane_witness :
  let w :=
    play sqrt01 [] [Frame 0.016; KeyDown Digit3; KeyUp Digit3; Frame 40]
      (init litWorld (Some ""%string)) in
  (0 <= timeOfDay (player w) /\ timeOfDay (player w) < 1) /\
  InCity (pos (player w)) /\
  Vector3.y (pos (player w)) = 2 /\
  List.length (trafficLights w) = 5%nat.
Proof.
  destruct (X25_game_loop_keeps_state_sane sqrt01 [] litWorld
              (Some ""%string)
              [Frame 0.016; KeyDown Digit3; KeyUp Digit3; Frame 40])
    as (A & B & C & D & _).
  - intros d [E | [E | [E | [E | []]]]]; try discriminate;
      injection E as <-; discriminate.
  - cbv zeta. repeat split; tauto.
Defined.

End GameExtras.


Module SignFacts.
Import Signs.

(** The loop of [findClickableSignFromObject]: what it returns is an
    entry of the list, and the first one whose mesh is the nearest
    registered object at or above the start. *)
Lemma find_mesh (clickableSigns : list Clickable) (u : nat) :
  match find (fun s => Nat.eqb (uuid (mesh s)) u) clickableSigns with
  | Some found => In found clickableSigns /\ uuid (mesh found) = u
  | None => forall s, In s clickableSigns -> uuid (mesh s) <> u
  end.
Proof.
  destruct (find _ clickableSigns) as [found|] eqn:E.
  - apply find_some in E. destruct E as [Hin E].
    apply Nat.eqb_eq in E. split; assumption.
  - intros s Hs C. apply (find_none _ _ E) in Hs. cbv beta in Hs.
    apply Nat.eqb_neq in Hs. contradiction.
Qed.

Lemma findClickable_some (clickableSigns : list Clickable) (o : Object3D) :
  forall found,
    findClickableSignFromObject clickableSigns o = Some found ->
    In found clickableSigns /\ Below (uuid (mesh found)) o.
Proof.
  induction o as [u p | u p o' IH]; intros found H; cbn [findClickableSignFromObject] in H;
    pose proof (find_mesh clickableSigns u) as F; cbn [uuid] in H;
    destruct (find _ clickableSigns) as [s|] eqn:E.
  - injection H as <-. destruct F as [Hin Hu]. split; [exact Hin|].
    cbn. left. symmetry. exact Hu.
  - discriminate.
  - injection H as <-. destruct F as [Hin Hu]. split; [exact Hin|].
    cbn. left. symmetry. exact Hu.
  - destruct (IH found H) as [Hin Hb]. split; [exact Hin|].
    cbn [Below]. right. exact Hb.
Qed.

Lemma findClickable_none (clickableSigns : list Clickable) (o : Object3D) :
  findClickableSignFromObject clickableSigns o = None ->
  forall s, In s clickableSigns -> ~ Below (uuid (mesh s)) o.
Proof.
  induction o as [u p | u p o' IH]; intros H s Hs;
    cbn [findClickableSignFromObject] in H;
    pose proof (find_mesh clickableSigns u) as F; cbn [uuid] in H;
    destruct (find _ clickableSigns) as [f|] eqn:E; try discriminate;
    cbn [Below uuid]; intros [C | C].
  - apply (F s Hs). symmetry. exact C.
  - exact C.
  - apply (F s Hs). symmetry. exact C.
  - exact (IH H s Hs C).
Qed.

Lemma findClickable_below (clickableSigns : list Clickable) (o : Object3D)
    (s : Clickable) :
  In s clickableSigns -> Below (uuid (mesh s)) o ->
  exists found, findClickableSignFromObject clickableSigns o = Some found.
Proof.
  intros Hs Hb.
  destruct (findClickableSignFromObject clickableSigns o) as [f|] eqn:E;
    [eexists; reflexivity|].
  exfalso. exact (findClickable_none _ _ E s Hs Hb).
Qed.

(** Where the player would stand at a sign, and the free cells around
    it. *)
Definition spot (config : SignData.SignConfig) : Vector3.t :=
  Vector3.mk (SignData.x config) 2 (SignData.z config).

Definition awayFrom (config : SignData.SignConfig) (centre : Q * Q) : bool :=
  Qle_bool 11 (Qabs (SignData.x config - fst centre))
  || Qle_bool 11 (Qabs (SignData.z config - snd centre)).

Lemma signs_away :
  forallb
    (fun config => forallb (awayFrom config) BuildingsFacts.allCentres)
    SignData.signConfigs = true.
Proof. vm_compute. reflexivity. Qed.

Definition offRoads (config : SignData.SignConfig) : bool :=
  forallb
    (fun r =>
       negb (Qle_bool (Qabs (SignData.x config - Scenery.roadX r))
               (Scenery.roadW r / 2)
             && Qle_bool (Qabs (SignData.z config - Scenery.roadZ r))
                  (Scenery.roadL r / 2)))
    Scenery.createRoads.

Lemma signs_offRoads : forallb offRoads SignData.signConfigs = true.
Proof. vm_compute. reflexivity. Qed.

Lemma signs_inCity :
  forallb
    (fun config =>
       Qle_bool (Qabs (SignData.x config)) 107
       && Qle_bool (Qabs (SignData.z config)) 107)
    SignData.signConfigs = true.
Proof. vm_compute. reflexivity. Qed.

End SignFacts.

Section SignExtras.
Import Signs SignFacts.

(** X26.  [findClickableSignFromObject] resolves a hit to a registered
    sign at or above it.  A result is an entry of [clickableSigns]
    whose mesh is the object itself or one of its ancestors; when there is
    no result no entry's mesh is at or above the object; and every object
    at or below a registered mesh gets a result. *)
Theorem X26_click_resolves_to_sign :
  forall (clickableSigns : list Clickable) (o : Object3D),
    (forall found,
       findClickableSignFromObject clickableSigns o = Some found ->
       In found clickableSigns /\ Below (uuid (mesh found)) o) /\
    (findClickableSignFromObject clickableSigns o = None ->
     forall s, In s clickableSigns -> ~ Below (uuid (mesh s)) o) /\
    (forall s, In s clickableSigns -> Below (uuid (mesh s)) o ->
     exists found, findClickableSignFromObject clickableSigns o = Some found).
Proof.
  intros clickableSigns o. split; [apply findClickable_some|].
  split; [apply findClickable_none|]. intros s. apply findClickable_below.
Qed.

(** X27.  The hint and the click agree.  With the same pointer lock,
    camera, sign list and ray, the interaction hint is visible exactly
    when a click opens a popup.  A popup is opened only while the pointer
    is locked, for a sign of the list whose mesh is at or above the first
    object hit and lies less than 12 from the camera. *)
Theorem X27_hint_agrees_with_click :
  forall (sqrt : Q -> Q) (intersectObjects : list Object3D -> list Object3D)
         (controls : option Controls.PointerLock) (camera : Controls.Camera)
         (clickableSigns : list Clickable),
    (updateInteractionHint sqrt intersectObjects controls camera
       clickableSigns = true ->
     exists opened,
       handleSceneClick sqrt intersectObjects controls camera clickableSigns
       = Some opened) /\
    (forall opened,
       handleSceneClick sqrt intersectObjects controls camera clickableSigns
       = Some opened ->
       updateInteractionHint sqrt intersectObjects controls camera
         clickableSigns = true /\
       controls = Some (Controls.mkPointerLock true) /\
       exists found obj rest,
         intersectObjects (map mesh clickableSigns) = obj :: rest /\
         In found clickableSigns /\ id found = opened /\
         Below (uuid (mesh found)) obj /\
         distanceTo sqrt (Controls.position camera) (position (mesh found))
         < 12).
Proof.
  intros sqrt intersectObjects controls camera clickableSigns.
  unfold updateInteractionHint, handleSceneClick.
  destruct controls as [[locked]|]; cbn [Controls.isLocked];
    [|split; [discriminate|intros ? [=]]].
  destruct locked; cbn [negb orb]; [|split; [discriminate|intros ? [=]]].
  destruct clickableSigns as [|s0 signs] eqn:Es.
  { cbn [List.length Nat.eqb map]. split; [discriminate|].
    intros opened H.
    destruct (intersectObjects []) as [|obj rest]; [discriminate|].
    cbn [findClickableSignFromObject find] in H.
    exfalso. revert H. clear. induction obj as [u p | u p o' IH];
      cbn [findClickableSignFromObject find]; [discriminate|exact IH]. }
  rewrite <- Es. replace (Nat.eqb (List.length clickableSigns) 0) with false
    by (subst clickableSigns; reflexivity).
  destruct (intersectObjects (map mesh clickableSigns)) as [|obj rest];
    [split; [discriminate|intros ? [=]]|].
  pose proof (findClickable_some clickableSigns obj) as F.
  destruct (findClickableSignFromObject clickableSigns obj) as [found|];
    [|split; [discriminate|intros ? [=]]].
  destruct (F found eq_refl) as [Hin Hb]. cbv zeta.
  destruct (Js.ltb (distanceTo sqrt (Controls.position camera)
                      (position (mesh found))) 12) eqn:D;
    [|split; [discriminate|intros ? [=]]].
  apply JsFacts.ltb_lt in D. split.
  - intros _. eexists. reflexivity.
  - intros opened [= <-]. split; [reflexivity|]. split; [reflexivity|].
    exists found, obj, rest. repeat split; assumption.
Qed.

(** X28.  Every sign stands in a free spot, and each has its quiz.  The
    signs of [initSigns] are the ten of [SIGN_IDS], in that order and at
    the configured places, each with popup text and quiz data.  For every
    run of [Math.random] in [0, 1), a player standing at a sign's place is
    inside the city limits, off the asphalt of every road and outside the
    padded footprint of every registered collider. *)
Theorem X28_signs_stand_clear :
  forall (random : nat -> Q) (scene : Object3D),
    (forall n, 0 <= random n /\ random n < 1) ->
    map id (initSigns scene) = Quiz.SIGN_IDS /\
    map id (initSigns scene) = SignData.signPopupInfo /\
    (forall s, In s (initSigns scene) ->
       exists data, Quiz.get Quiz.quizData (id s) = Some data) /\
    map (fun s => position (mesh s)) (initSigns scene)
    = map (fun c => Vector3.mk (SignData.x c) (SignData.y c) (SignData.z c))
        SignData.signConfigs /\
    forall config, In config SignData.signConfigs ->
      Controls.InCity (spot config) /\
      Controls.checkBuildingCollisions (Buildings.initWorld random)
        (spot config) = false /\
      forall r, In r Scenery.createRoads ->
        ~ SceneryFacts.OnRoad r (SignData.x config) (SignData.z config).
Proof.
  intros random scene Hr.
  split; [reflexivity|]. split; [reflexivity|]. split.
  { intros s Hs. apply QuizFacts.SIGN_IDS_have_quizzes.
    change Quiz.SIGN_IDS with (map id (initSigns scene)).
    apply in_map. exact Hs. }
  split; [reflexivity|].
  intros config Hc.
  pose proof signs_inCity as C. rewrite forallb_forall in C.
  specialize (C config Hc). apply andb_true_iff in C. destruct C as [Cx Cz].
  apply Qle_bool_iff, Qabs_Qle_condition in Cx.
  apply Qle_bool_iff, Qabs_Qle_condition in Cz.
  split.
  { unfold Controls.InCity, spot, Controls.limit.
    cbn [Vector3.x Vector3.z]. repeat split; lra. }
  split.
  { apply ControlsFacts.check_free. intros (b & Hb & Px & Pz).
    pose proof (BuildingsFacts.initWorld_sized random Hr) as S.
    rewrite Forall_forall in S. specialize (S b Hb).
    destruct S as [[_ Sw] [_ Sd]].
    assert (In (BuildingsFacts.colliderCentre b) BuildingsFacts.allCentres)
      as Hcen.
    { rewrite <- (BuildingsFacts.initWorld_centres random).
      apply in_map. exact Hb. }
    pose proof signs_away as A. rewrite forallb_forall in A.
    specialize (A config Hc). rewrite forallb_forall in A.
    specialize (A _ Hcen). unfold awayFrom in A.
    cbn [BuildingsFacts.colliderCentre fst snd] in A.
    unfold spot in Px, Pz. cbn [Vector3.x Vector3.z] in Px, Pz.
    unfold Controls.playerRadius in Px, Pz.
    apply orb_true_iff in A. destruct A as [A | A];
      apply Qle_bool_iff in A; JsFacts.halves; lra. }
  intros r Hroad [Rx Rz].
  pose proof signs_offRoads as O. rewrite forallb_forall in O.
  specialize (O config Hc). unfold offRoads in O.
  rewrite forallb_forall in O. specialize (O r Hroad).
  apply negb_true_iff, andb_false_iff in O.
  destruct O as [O | O]; apply not_true_iff_false in O; apply O;
    apply Qle_bool_iff; assumption.
Qed.

(** The stop sign, with the cycling random source. *)
Lemma X28_signs_stand_clear_witness :
  Controls.InCity (Vector3.mk 13.5 2 (-7)) /\
  Controls.checkBuildingCollisions (Buildings.initWorld cycling)
    (Vector3.mk 13.5 2 (-7)) = false.
Proof.
  destruct (X28_signs_stand_clear cycling (detached 0 Vector3.zero)
              cycling_unit) as (_ & _ & _ & _ & H).
  destruct (H (SignData.mkSignConfig "stop" 13.5 0 (-7) 0 1.0))
    as (A & B & _).
  - cbn. tauto.
  - split; [exact A|exact B].
Defined.

End SignExtras.
